(** * window_cycler: hotkey model, hotkey manager and window cycler

    A shallow embedding of

      - [src/models/hotkey.py]       (module [Hotkey]),
      - [src/core/hotkey_manager.py] (module [HotkeyManager]),
      - [src/core/window_cycler.py]  (module [WindowCycler]),

    together with the properties of the cycling core.

    Conventions.  Python [int]s are [Z].  Python [str]s are [string]s
    of ASCII characters (the hotkey grammar is ASCII; characters above
    127 are outside the model).  [print] calls only write to the
    console and are left out.  Calls into the operating system and
    into the optional libraries ([keyboard], [pynput], [win32gui]) are
    answered by an explicit environment record. *)

From Stdlib Require Import ZArith List Bool String Ascii Lia.
From Stdlib Require Import QArith Lqa Permutation Sorted.
Import ListNotations.

Local Open Scope string_scope.
Local Open Scope list_scope.

(* ================================================================= *)
(** ** Python string primitives used by the sources *)

Module PyStr.

Definition is_upper (c : ascii) : bool :=
  let n := nat_of_ascii c in (65 <=? n)%nat && (n <=? 90)%nat.

Definition is_lower (c : ascii) : bool :=
  let n := nat_of_ascii c in (97 <=? n)%nat && (n <=? 122)%nat.

Definition is_digit (c : ascii) : bool :=
  let n := nat_of_ascii c in (48 <=? n)%nat && (n <=? 57)%nat.

(** [str.isspace] on the ASCII range: TAB, LF, VT, FF, CR, the four
    separators 0x1c..0x1f and the blank. *)
Definition is_space (c : ascii) : bool :=
  let n := nat_of_ascii c in
  ((9 <=? n)%nat && (n <=? 13)%nat) || ((28 <=? n)%nat && (n <=? 32)%nat).

Definition char_lower (c : ascii) : ascii :=
  if is_upper c then ascii_of_nat (nat_of_ascii c + 32) else c.

Definition char_upper (c : ascii) : ascii :=
  if is_lower c then ascii_of_nat (nat_of_ascii c - 32) else c.

(** [s.lower()] and [s.upper()] *)
Fixpoint lower (s : string) : string :=
  match s with
  | EmptyString => EmptyString
  | String c r => String (char_lower c) (lower r)
  end.

Fixpoint upper (s : string) : string :=
  match s with
  | EmptyString => EmptyString
  | String c r => String (char_upper c) (upper r)
  end.

Fixpoint lstrip (s : string) : string :=
  match s with
  | EmptyString => EmptyString
  | String c r => if is_space c then lstrip r else s
  end.

Fixpoint rstrip (s : string) : string :=
  match s with
  | EmptyString => EmptyString
  | String c r =>
      match rstrip r with
      | EmptyString => if is_space c then EmptyString else String c EmptyString
      | r' => String c r'
      end
  end.

(** [s.strip()] *)
Definition strip (s : string) : string := rstrip (lstrip s).

(** [s.split(sep)] for a one-character separator; never empty. *)
Fixpoint split (sep : ascii) (s : string) : list string :=
  match s with
  | EmptyString => [EmptyString]
  | String c r =>
      if Ascii.eqb c sep then EmptyString :: split sep r
      else match split sep r with
           | [] => [String c EmptyString]
           | p :: ps => String c p :: ps
           end
  end.

(** [sep.join(l)] *)
Fixpoint join (sep : string) (l : list string) : string :=
  match l with
  | [] => EmptyString
  | x :: xs =>
      match xs with
      | [] => x
      | _ :: _ => x ++ sep ++ join sep xs
      end
  end.

(** [s.startswith(p)] *)
Definition startswith (p s : string) : bool := String.prefix p s.

(** [s[1:]] *)
Definition tail (s : string) : string :=
  match s with
  | EmptyString => EmptyString
  | String _ r => r
  end.

Fixpoint all_chars (p : ascii -> bool) (s : string) : bool :=
  match s with
  | EmptyString => true
  | String c r => p c && all_chars p r
  end.

(** [s.isdigit()] and [s.isalpha()]: false on the empty string. *)
Definition isdigit (s : string) : bool :=
  match s with
  | EmptyString => false
  | _ => all_chars is_digit s
  end.

Definition isalpha (s : string) : bool :=
  match s with
  | EmptyString => false
  | _ => all_chars (fun c => is_upper c || is_lower c) s
  end.

Fixpoint int_digits (acc : Z) (s : string) : Z :=
  match s with
  | EmptyString => acc
  | String c r => int_digits (10 * acc + (Z.of_nat (nat_of_ascii c) - 48)) r
  end.

(** [int(s)] for a string of decimal digits *)
Definition int (s : string) : Z := int_digits 0 s.

(** [ord(s)] for a one-character string *)
Definition ord (s : string) : Z :=
  match s with
  | String c _ => Z.of_nat (nat_of_ascii c)
  | EmptyString => 0
  end.

(** [x in l] for a list (or set) of strings *)
Definition mem (x : string) (l : list string) : bool :=
  existsb (String.eqb x) l.

(** [sub in s] *)
Fixpoint contains (sub s : string) : bool :=
  String.prefix sub s ||
  match s with
  | EmptyString => false
  | String _ r => contains sub r
  end.

(** [s.replace(old, new)] for a non-empty [old]: leftmost
    non-overlapping occurrences; [skip] counts the characters of a
    match still to be dropped. *)
Fixpoint replace_from (old new : string) (skip : nat) (s : string) : string :=
  match s with
  | EmptyString => EmptyString
  | String c r =>
      match skip with
      | S k => replace_from old new k r
      | O =>
          if String.prefix old s
          then new ++ replace_from old new (String.length old - 1) r
          else String c (replace_from old new 0 r)
      end
  end.

Definition replace (old new s : string) : string := replace_from old new 0 s.

(** [len(l) != len(set(l))] *)
Fixpoint has_duplicates (l : list string) : bool :=
  match l with
  | [] => false
  | x :: xs => mem x xs || has_duplicates xs
  end.

End PyStr.

(* ================================================================= *)
(** ** [models/hotkey.py] *)

Module Hotkey.
Import PyStr.

Inductive HotkeyType := KEYBOARD | MOUSE | COMBINATION.

Inductive ModifierKey := CTRL | ALT | SHIFT | WIN.

(** [m.value] *)
Definition modifier_value (m : ModifierKey) : string :=
  match m with
  | CTRL => "ctrl" | ALT => "alt" | SHIFT => "shift" | WIN => "win"
  end.

(** [ModifierKey(s)]: lookup by value, [None] for [ValueError]. *)
Definition ModifierKey_of (s : string) : option ModifierKey :=
  if String.eqb s "ctrl" then Some CTRL
  else if String.eqb s "alt" then Some ALT
  else if String.eqb s "shift" then Some SHIFT
  else if String.eqb s "win" then Some WIN
  else None.

Record HotkeyConfig := mkHotkeyConfig {
  raw_value : string;
  display_name : string;
  modifiers : list ModifierKey;
  main_key : string;
  hotkey_type : HotkeyType
}.

Definition mouse_keys : list string := ["middle"; "mouse4"; "mouse5"].

(** [HotkeyConfig._generate_display_name] *)
Definition modifier_display (m : ModifierKey) : string :=
  match m with
  | CTRL => "Ctrl" | ALT => "Alt" | SHIFT => "Shift" | WIN => "Win"
  end.

Definition main_key_display (main_key : string) : string :=
  if String.eqb main_key "middle" then "Middle Click"
  else if String.eqb main_key "mouse4" then "Mouse 4"
  else if String.eqb main_key "mouse5" then "Mouse 5"
  else if String.eqb main_key "space" then "Space"
  else if String.eqb main_key "tab" then "Tab"
  else if startswith "f" main_key && isdigit (tail main_key) then upper main_key
  else upper main_key.

Definition _generate_display_name (mods : list ModifierKey) (main_key : string)
  : string :=
  let display_parts := map modifier_display mods ++ [main_key_display main_key] in
  join "+" display_parts.

(** The loop over [modifier_strings]; [None] is the [ValueError]. *)
Fixpoint parse_modifiers (modifier_strings : list string)
  : option (list ModifierKey) :=
  match modifier_strings with
  | [] => Some []
  | mod_str :: rest =>
      match ModifierKey_of mod_str with
      | None => None
      | Some m =>
          match parse_modifiers rest with
          | None => None
          | Some ms => Some (m :: ms)
          end
      end
  end.

Definition is_nil {A} (l : list A) : bool :=
  match l with [] => true | _ => false end.

(** [HotkeyConfig.parse]; [None] is the [ValueError] of an unknown
    modifier. *)
Definition parse (hotkey_string : string) : option HotkeyConfig :=
  let raw_value := strip (lower hotkey_string) in
  let parts := split "+" raw_value in
  let main_key := last parts EmptyString in
  let modifier_strings := removelast parts in
  match parse_modifiers modifier_strings with
  | None => None
  | Some modifiers =>
      let hotkey_type :=
        if mem main_key mouse_keys
        then (if is_nil modifiers then MOUSE else COMBINATION)
        else (if is_nil modifiers then KEYBOARD else COMBINATION) in
      let display_name := _generate_display_name modifiers main_key in
      Some (mkHotkeyConfig raw_value display_name modifiers main_key hotkey_type)
  end.

(** [HotkeyConfig.__str__] *)
Definition to_str (c : HotkeyConfig) : string := display_name c.

(** [HotkeyValidator] *)
Definition VALID_MODIFIERS : list string := ["ctrl"; "alt"; "shift"; "win"].

Definition VALID_KEYS : list string :=
  ["f1"; "f2"; "f3"; "f4"; "f5"; "f6"; "f7"; "f8"; "f9"; "f10"; "f11"; "f12";
   "space"; "tab"; "enter"; "escape"; "backspace"; "delete"; "insert";
   "home"; "end"; "pageup"; "pagedown"; "up"; "down"; "left"; "right";
   "middle"; "mouse4"; "mouse5";
   "0"; "1"; "2"; "3"; "4"; "5"; "6"; "7"; "8"; "9";
   "a"; "b"; "c"; "d"; "e"; "f"; "g"; "h"; "i"; "j"; "k"; "l"; "m";
   "n"; "o"; "p"; "q"; "r"; "s"; "t"; "u"; "v"; "w"; "x"; "y"; "z"].

Definition validate_hotkey (hotkey_string : string) : bool :=
  if String.eqb hotkey_string EmptyString
     || String.eqb (strip hotkey_string) EmptyString
  then false
  else
    let parts := split "+" (strip (lower hotkey_string)) in
    if (List.length parts <? 1)%nat then false
    else
      let main_key := last parts EmptyString in
      if negb (mem main_key VALID_KEYS) then false
      else
        let modifiers := removelast parts in
        if negb (forallb (fun modifier => mem modifier VALID_MODIFIERS) modifiers)
        then false
        else if has_duplicates modifiers then false
        else true.

(** [HotkeyConfig.is_valid] *)
Definition is_valid (c : HotkeyConfig) : bool := validate_hotkey (raw_value c).

(** Characters of the canonical combo text: lower case, no white space. *)
Definition plain (c : ascii) : bool := negb (is_space c) && negb (is_upper c).

(** Is the main key a pointer button? *)
Definition is_pointer_button (main_key : string) : bool := mem main_key mouse_keys.

End Hotkey.

(* ================================================================= *)
(** ** The platform: answers of the operating system and of the
       optional libraries *)

Module Platform.

(** One record answers every external call made during one public
    operation.  A [bool] answer [false] of a library call stands for
    the call raising an exception. *)
Record Env := mkEnv {
  (** [win32gui.IsWindow(hwnd) and win32gui.IsWindowVisible(hwnd)] *)
  window_valid : Z -> bool;
  (** [WindowsAPI.activate_window(hwnd)] *)
  activate_window : Z -> bool;
  (** [keyboard.unhook_all()] returns *)
  unhook_all_ok : bool;
  (** [keyboard.add_hotkey(hotkey_string, ...)] returns *)
  add_hotkey_ok : string -> bool;
  (** [import win32con] succeeds *)
  win32con_ok : bool;
  (** [threading.Thread(...).start()] returns *)
  thread_start_ok : bool;
  (** the [pynput] listener constructors and [start]/[stop] return *)
  key_listener_new_ok : bool;
  mouse_listener_new_ok : bool;
  key_listener_start_ok : bool;
  mouse_listener_start_ok : bool;
  key_listener_stop_ok : bool;
  mouse_listener_stop_ok : bool
}.

(** The constants of [win32con] used by the sources. *)
Definition VK_F1 : Z := 112.
Definition VK_SPACE : Z := 32.
Definition VK_TAB : Z := 9.
Definition VK_RETURN : Z := 13.
Definition VK_ESCAPE : Z := 27.
Definition VK_BACK : Z := 8.
Definition VK_DELETE : Z := 46.
Definition VK_UP : Z := 38.
Definition VK_DOWN : Z := 40.
Definition VK_LEFT : Z := 37.
Definition VK_RIGHT : Z := 39.
Definition MOD_ALT : Z := 1.
Definition MOD_CONTROL : Z := 2.
Definition MOD_SHIFT : Z := 4.
Definition MOD_WIN : Z := 8.

End Platform.

(* ================================================================= *)
(** ** [core/hotkey_manager.py] *)

Module HotkeyManager.
Import PyStr Hotkey Platform.

Inductive HotkeyMethod := KEYBOARD_LIB | WIN32_REGISTER | PYNPUT.

(** [method.value] *)
Definition method_value (m : HotkeyMethod) : string :=
  match m with
  | KEYBOARD_LIB => "keyboard"
  | WIN32_REGISTER => "win32"
  | PYNPUT => "pynput"
  end.

Definition method_eqb (a b : HotkeyMethod) : bool :=
  match a, b with
  | KEYBOARD_LIB, KEYBOARD_LIB => true
  | WIN32_REGISTER, WIN32_REGISTER => true
  | PYNPUT, PYNPUT => true
  | _, _ => false
  end.

(** A [threading.Thread] running [_win32_hotkey_thread(vk_code, modifiers)] *)
Record Thread := mkThread {
  thread_args : Z * Z;
  thread_started : bool
}.

(** A [pynput] listener object *)
Record Listener := mkListener {
  listener_running : bool
}.

(** The callable handed to [set_hotkey], by name. *)
Definition Callable := string.

Record t := mk {
  current_config : option HotkeyConfig;
  callback : option Callable;
  is_listening : bool;
  last_trigger_time : Q;
  min_trigger_interval : Q;
  active_method : option HotkeyMethod;
  method_priority : list HotkeyMethod;
  hotkey_thread : option Thread;
  stop_thread : bool;
  keyboard_available : bool;
  (** the hotkeys currently hooked inside the [keyboard] library *)
  keyboard_hooks : list string;
  pynput_available : bool;
  pressed_keys : list Z;
  pressed_mouse : list Z;
  last_combo_state : bool;
  (** [None] also when the attribute was never created *)
  key_listener : option Listener;
  mouse_listener : option Listener;
  (** [self.windows_api] is not [None] *)
  windows_api : bool
}.

(** [HotkeyManager.__init__], given which optional imports succeed. *)
Definition init (keyboard_ok pynput_ok api_ok : bool) : t :=
  mk None None false 0 (2 # 10) None
     [KEYBOARD_LIB; WIN32_REGISTER; PYNPUT]
     None false keyboard_ok [] pynput_ok [] [] false None None api_ok.

Definition set_current_config v (s : t) : t :=
  mk v (callback s) (is_listening s) (last_trigger_time s)
     (min_trigger_interval s) (active_method s) (method_priority s)
     (hotkey_thread s) (stop_thread s) (keyboard_available s)
     (keyboard_hooks s) (pynput_available s) (pressed_keys s)
     (pressed_mouse s) (last_combo_state s) (key_listener s)
     (mouse_listener s) (windows_api s).

Definition set_callback v (s : t) : t :=
  mk (current_config s) v (is_listening s) (last_trigger_time s)
     (min_trigger_interval s) (active_method s) (method_priority s)
     (hotkey_thread s) (stop_thread s) (keyboard_available s)
     (keyboard_hooks s) (pynput_available s) (pressed_keys s)
     (pressed_mouse s) (last_combo_state s) (key_listener s)
     (mouse_listener s) (windows_api s).

Definition set_is_listening v (s : t) : t :=
  mk (current_config s) (callback s) v (last_trigger_time s)
     (min_trigger_interval s) (active_method s) (method_priority s)
     (hotkey_thread s) (stop_thread s) (keyboard_available s)
     (keyboard_hooks s) (pynput_available s) (pressed_keys s)
     (pressed_mouse s) (last_combo_state s) (key_listener s)
     (mouse_listener s) (windows_api s).

Definition set_last_trigger_time v (s : t) : t :=
  mk (current_config s) (callback s) (is_listening s) v
     (min_trigger_interval s) (active_method s) (method_priority s)
     (hotkey_thread s) (stop_thread s) (keyboard_available s)
     (keyboard_hooks s) (pynput_available s) (pressed_keys s)
     (pressed_mouse s) (last_combo_state s) (key_listener s)
     (mouse_listener s) (windows_api s).

Definition set_active_method v (s : t) : t :=
  mk (current_config s) (callback s) (is_listening s) (last_trigger_time s)
     (min_trigger_interval s) v (method_priority s)
     (hotkey_thread s) (stop_thread s) (keyboard_available s)
     (keyboard_hooks s) (pynput_available s) (pressed_keys s)
     (pressed_mouse s) (last_combo_state s) (key_listener s)
     (mouse_listener s) (windows_api s).

Definition set_hotkey_thread v (s : t) : t :=
  mk (current_config s) (callback s) (is_listening s) (last_trigger_time s)
     (min_trigger_interval s) (active_method s) (method_priority s)
     v (stop_thread s) (keyboard_available s)
     (keyboard_hooks s) (pynput_available s) (pressed_keys s)
     (pressed_mouse s) (last_combo_state s) (key_listener s)
     (mouse_listener s) (windows_api s).

Definition set_stop_thread v (s : t) : t :=
  mk (current_config s) (callback s) (is_listening s) (last_trigger_time s)
     (min_trigger_interval s) (active_method s) (method_priority s)
     (hotkey_thread s) v (keyboard_available s)
     (keyboard_hooks s) (pynput_available s) (pressed_keys s)
     (pressed_mouse s) (last_combo_state s) (key_listener s)
     (mouse_listener s) (windows_api s).

Definition set_keyboard_hooks v (s : t) : t :=
  mk (current_config s) (callback s) (is_listening s) (last_trigger_time s)
     (min_trigger_interval s) (active_method s) (method_priority s)
     (hotkey_thread s) (stop_thread s) (keyboard_available s)
     v (pynput_available s) (pressed_keys s)
     (pressed_mouse s) (last_combo_state s) (key_listener s)
     (mouse_listener s) (windows_api s).

(** [pressed_keys = set(); pressed_mouse = set(); last_combo_state = False] *)
Definition reset_pressed (s : t) : t :=
  mk (current_config s) (callback s) (is_listening s) (last_trigger_time s)
     (min_trigger_interval s) (active_method s) (method_priority s)
     (hotkey_thread s) (stop_thread s) (keyboard_available s)
     (keyboard_hooks s) (pynput_available s) []
     [] false (key_listener s)
     (mouse_listener s) (windows_api s).

Definition set_key_listener v (s : t) : t :=
  mk (current_config s) (callback s) (is_listening s) (last_trigger_time s)
     (min_trigger_interval s) (active_method s) (method_priority s)
     (hotkey_thread s) (stop_thread s) (keyboard_available s)
     (keyboard_hooks s) (pynput_available s) (pressed_keys s)
     (pressed_mouse s) (last_combo_state s) v
     (mouse_listener s) (windows_api s).

Definition set_mouse_listener v (s : t) : t :=
  mk (current_config s) (callback s) (is_listening s) (last_trigger_time s)
     (min_trigger_interval s) (active_method s) (method_priority s)
     (hotkey_thread s) (stop_thread s) (keyboard_available s)
     (keyboard_hooks s) (pynput_available s) (pressed_keys s)
     (pressed_mouse s) (last_combo_state s) (key_listener s)
     v (windows_api s).

(** [_convert_for_keyboard_lib] *)
Definition _convert_for_keyboard_lib (hotkey : string) : string :=
  if contains "middle" hotkey then replace "middle" "middle mouse" hotkey
  else if contains "mouse4" hotkey then replace "mouse4" "x1 mouse" hotkey
  else if contains "mouse5" hotkey then replace "mouse5" "x2 mouse" hotkey
  else hotkey.

(** [_get_vk_code]; [None] is Python's [None], also returned by the
    [except] branch when [win32con] cannot be imported.  As everywhere
    in the model the key is ASCII text: on a letter or digit beyond
    ASCII, and on more digits than [int] accepts, the source answers
    differently. *)
Definition special_vk_map : list (string * Z) :=
  [("space", VK_SPACE); ("tab", VK_TAB); ("enter", VK_RETURN);
   ("escape", VK_ESCAPE); ("backspace", VK_BACK); ("delete", VK_DELETE);
   ("up", VK_UP); ("down", VK_DOWN); ("left", VK_LEFT); ("right", VK_RIGHT)].

Fixpoint dict_get (key : string) (d : list (string * Z)) : option Z :=
  match d with
  | [] => None
  | (k, v) :: r => if String.eqb key k then Some v else dict_get key r
  end.

Definition vk_function_key (key : string) : option Z :=
  if startswith "f" key && isdigit (tail key) then
    let f_num := int (tail key) in
    if (1 <=? f_num)%Z && (f_num <=? 12)%Z
    then Some (VK_F1 + (f_num - 1))%Z
    else None
  else None.

Definition _get_vk_code (env : Env) (key : string) : option Z :=
  if negb (win32con_ok env) then None
  else
    match vk_function_key key with
    | Some vk => Some vk
    | None =>
        match dict_get key special_vk_map with
        | Some vk => Some vk
        | None =>
            if (String.length key =? 1)%nat && isalpha key
            then Some (ord (upper key))
            else if (String.length key =? 1)%nat && isdigit key
            then Some (ord key)
            else if mem key ["middle"; "mouse4"; "mouse5"] then None
            else None
        end
    end.

(** [_convert_for_win32] *)
Definition modifier_flag (m : ModifierKey) : Z :=
  match m with
  | CTRL => MOD_CONTROL
  | ALT => MOD_ALT
  | SHIFT => MOD_SHIFT
  | WIN => MOD_WIN
  end.

Definition _convert_for_win32 (env : Env) (config : HotkeyConfig)
  : option Z * option Z :=
  if negb (win32con_ok env) then (None, None)
  else
    let mod_flags :=
      fold_left (fun flags m => Z.lor flags (modifier_flag m))
                (modifiers config) 0%Z in
    match _get_vk_code env (main_key config) with
    | Some vk_code =>
        if (vk_code =? 0)%Z then (None, None) else (Some vk_code, Some mod_flags)
    | None => (None, None)
    end.

(** [_start_keyboard_method] *)
Definition _start_keyboard_method (env : Env) (s : t) : bool * t :=
  match current_config s with
  | Some config =>
      if negb (keyboard_available s) then (false, s)
      else
        let hotkey_string := _convert_for_keyboard_lib (raw_value config) in
        if negb (unhook_all_ok env) then (false, s)
        else
          let s1 := set_keyboard_hooks [] s in
          if negb (add_hotkey_ok env hotkey_string) then (false, s1)
          else (true, set_keyboard_hooks [hotkey_string] s1)
  | None => (false, s)
  end.

(** [_start_win32_method] *)
Definition _start_win32_method (env : Env) (s : t) : bool * t :=
  match current_config s with
  | Some config =>
      if negb (windows_api s) then (false, s)
      else
        match _convert_for_win32 env config with
        | (None, _) => (false, s)
        | (Some vk_code, modifiers) =>
            let modifiers := match modifiers with Some m => m | None => 0%Z end in
            let s1 := set_stop_thread false s in
            let s2 := set_hotkey_thread
                        (Some (mkThread (vk_code, modifiers) false)) s1 in
            if negb (thread_start_ok env) then (false, s2)
            else (true, set_hotkey_thread
                          (Some (mkThread (vk_code, modifiers) true)) s2)
        end
  | None => (false, s)
  end.

(** [_start_pynput_method] *)
Definition _start_pynput_method (env : Env) (s : t) : bool * t :=
  match current_config s with
  | Some _ =>
      if negb (pynput_available s) then (false, s)
      else
        let s1 := reset_pressed s in
        if negb (key_listener_new_ok env) then (false, s1)
        else
          let s2 := set_key_listener (Some (mkListener false)) s1 in
          if negb (mouse_listener_new_ok env) then (false, s2)
          else
            let s3 := set_mouse_listener (Some (mkListener false)) s2 in
            if negb (key_listener_start_ok env) then (false, s3)
            else
              let s4 := set_key_listener (Some (mkListener true)) s3 in
              if negb (mouse_listener_start_ok env) then (false, s4)
              else (true, set_mouse_listener (Some (mkListener true)) s4)
  | None => (false, s)
  end.

(** One entry of the local list [methods_tried]. *)
Inductive Tried :=
| TriedFailed (method_name : string)
| TriedError (method : HotkeyMethod).

(** The [if/elif] chain of the loop body of [start_listening]:
    the new [success], the new binding of the local [method_name]
    ([None] while it is unbound) and the new state. *)
Definition attempt (env : Env) (method : HotkeyMethod)
           (method_name : option string) (s : t)
  : bool * option string * t :=
  if method_eqb method KEYBOARD_LIB && keyboard_available s then
    let (success, s') := _start_keyboard_method env s in
    (success, Some "keyboard library", s')
  else if method_eqb method WIN32_REGISTER && windows_api s then
    let (success, s') := _start_win32_method env s in
    (success, Some "Win32 RegisterHotKey", s')
  else if method_eqb method PYNPUT && pynput_available s then
    let (success, s') := _start_pynput_method env s in
    (success, Some "pynput", s')
  else (false, method_name, s).

(** The [for method in self.method_priority] loop.  Reading the
    unbound [method_name] raises inside the [try]; the handler
    records the error and continues. *)
Fixpoint start_loop (env : Env) (methods : list HotkeyMethod)
         (method_name : option string) (methods_tried : list Tried) (s : t)
  : bool * t :=
  match methods with
  | [] => (false, s)
  | method :: rest =>
      let '(success, method_name', s1) := attempt env method method_name s in
      if success then
        (true, set_is_listening true (set_active_method (Some method) s1))
      else
        let entry :=
          match method_name' with
          | Some name => TriedFailed name
          | None => TriedError method
          end in
        start_loop env rest method_name' (methods_tried ++ [entry]) s1
  end.

(** [start_listening] *)
Definition start_listening (env : Env) (s : t) : bool * t :=
  match current_config s with
  | None => (false, s)
  | Some _ =>
      if is_listening s then (false, s)
      else start_loop env (method_priority s) None [] s
  end.

(** [stop_listening] *)
Definition stop_listening (env : Env) (s : t) : t :=
  let s := set_is_listening false s in
  let s :=
    match hotkey_thread s with
    | Some _ => set_hotkey_thread None (set_stop_thread true s)
    | None => s
    end in
  let s :=
    if keyboard_available s && unhook_all_ok env
    then set_keyboard_hooks [] s else s in
  let s :=
    match key_listener s with
    | Some _ => if key_listener_stop_ok env then set_key_listener None s else s
    | None => s
    end in
  let s :=
    match mouse_listener s with
    | Some _ =>
        if mouse_listener_stop_ok env then set_mouse_listener None s else s
    | None => s
    end in
  set_active_method None s.

(** [set_hotkey] *)
Definition set_hotkey (env : Env) (s : t) (hotkey_config : HotkeyConfig)
           (callback : Callable) : bool * t :=
  let s := stop_listening env s in
  let s := set_current_config (Some hotkey_config) s in
  let s := set_callback (Some callback) s in
  start_listening env s.

(** [_should_trigger], at [current_time = time.time()] (exact
    arithmetic on seconds). *)
Definition _should_trigger (current_time : Q) (s : t) : bool * t :=
  if Qle_bool (min_trigger_interval s) (current_time - last_trigger_time s)
  then (true, set_last_trigger_time current_time s)
  else (false, s).


(** Is [method] able to arm in state [s]?  (the [success] of its
    loop iteration) *)
Definition arms (env : Env) (s : t) (method : HotkeyMethod) : bool :=
  fst (fst (attempt env method None s)).

(** The fields that decide whether a method can arm. *)
Definition caps (s : t) : bool * bool * bool * option HotkeyConfig :=
  (keyboard_available s, windows_api s, pynput_available s, current_config s).


(** *** What the manager's attributes hold of each method

    The attributes are all that the model follows.  For the Win32
    method this is the thread object that [hotkey_thread] refers to:
    a thread whose reference [stop_listening] has dropped is told to
    end through [stop_thread], and whether and when it ends is outside
    the model. *)

(** [hotkey_thread] refers to a thread that was started. *)
Definition thread_running (s : t) : bool :=
  match hotkey_thread s with
  | Some thread => thread_started thread
  | None => false
  end.

(** The attribute refers to a listener that was started. *)
Definition listener_on (listener : option Listener) : bool :=
  match listener with
  | Some l => listener_running l
  | None => false
  end.

(** Something of [method] is held: a hotkey hooked in the [keyboard]
    library, a started thread, a running [pynput] listener. *)
Definition holds (s : t) (method : HotkeyMethod) : bool :=
  match method with
  | KEYBOARD_LIB =>
      match keyboard_hooks s with
      | [] => false
      | _ :: _ => true
      end
  | WIN32_REGISTER => thread_running s
  | PYNPUT => listener_on (key_listener s) || listener_on (mouse_listener s)
  end.

(** What [method] has put in place once it has armed for [config]. *)
Definition installed (env : Env) (config : HotkeyConfig)
           (method : HotkeyMethod) (s : t) : Prop :=
  match method with
  | KEYBOARD_LIB =>
      keyboard_hooks s = [_convert_for_keyboard_lib (raw_value config)]
  | WIN32_REGISTER =>
      exists vk_code modifiers,
        _convert_for_win32 env config = (Some vk_code, Some modifiers) /\
        hotkey_thread s = Some (mkThread (vk_code, modifiers) true) /\
        stop_thread s = false
  | PYNPUT =>
      key_listener s = Some (mkListener true) /\
      mouse_listener s = Some (mkListener true) /\
      pressed_keys s = [] /\ pressed_mouse s = [] /\
      last_combo_state s = false
  end.

(** The library calls that [stop_listening] makes return:
    [keyboard.unhook_all()] and the [stop()] of both listeners. *)
Definition stops_return (env : Env) : Prop :=
  unhook_all_ok env = true /\
  key_listener_stop_ok env = true /\
  mouse_listener_stop_ok env = true.

(** Only a manager that has the [keyboard] library has hooked
    hotkeys in it. *)
Definition hooks_need_library (s : t) : Prop :=
  keyboard_available s = false -> keyboard_hooks s = [].

(** The attributes after [stop_listening], when its library calls
    return: flags cleared, no hook, no listener, the reference to the
    thread dropped and, if there was one, [stop_thread] set. *)
Definition released (before after : t) : Prop :=
  is_listening after = false /\ active_method after = None /\
  keyboard_hooks after = [] /\
  key_listener after = None /\ mouse_listener after = None /\
  hotkey_thread after = None /\
  (hotkey_thread before <> None -> stop_thread after = true).

(** [_start_pynput_method] gets as far as [self.key_listener.start()]
    and [self.mouse_listener.start()] raises. *)
Definition pynput_half_started (env : Env) : bool :=
  key_listener_new_ok env && mouse_listener_new_ok env &&
  key_listener_start_ok env && negb (mouse_listener_start_ok env).

End HotkeyManager.

(* ================================================================= *)
(** ** [models/game_window.py] and [core/window_cycler.py] *)

Module WindowCycler.
Import PyStr Hotkey Platform.

Local Open Scope Z_scope.

Record GameWindow := mkGameWindow {
  hwnd : Z;
  title : string;
  process_name : string;
  process_id : Z;
  character_name : string;
  game_type : string;
  icon_path : string;
  order : Z
}.

(** [GameWindow.is_valid_handle]: the handle is a visible window. *)
Definition is_valid_handle (env : Env) (w : GameWindow) : bool :=
  window_valid env (hwnd w).

(** Notifications sent to the observers [on_window_activated],
    [on_window_removed] and [on_cycling_stopped], all taken as
    registered (as the main window does). *)
Inductive Event :=
| WindowActivated (w : GameWindow)
| WindowRemoved (w : GameWindow)
| CyclingStopped.

(** How a call ends: it returns, it raises, or the fuel given to a
    [while] loop ran out. *)
Inductive Exn := IndexError | ZeroDivisionError.

Inductive outcome (A : Type) :=
| Returned (a : A)
| Raised (e : Exn)
| OutOfFuel.
Arguments Returned {A} a.
Arguments Raised {A} e.
Arguments OutOfFuel {A}.

Definition bind {A B} (m : outcome A) (k : A -> outcome B) : outcome B :=
  match m with
  | Returned a => k a
  | Raised e => Raised e
  | OutOfFuel => OutOfFuel
  end.

Notation "x <- m ;; k" := (bind m (fun x => k))
  (at level 61, m at next level, right associativity).

(** [None] becomes the given exception. *)
Definition or_raise {A} (e : Exn) (o : option A) : outcome A :=
  match o with
  | Some a => Returned a
  | None => Raised e
  end.

(** [len(l)] *)
Definition len {A} (l : list A) : Z := Z.of_nat (List.length l).

(** [l[i]], with Python's negative indices; [None] is [IndexError]. *)
Definition getitem {A} (l : list A) (i : Z) : option A :=
  if 0 <=? i then nth_error l (Z.to_nat i)
  else if - len l <=? i then nth_error l (Z.to_nat (len l + i))
  else None.

(** The list left by [l.pop(i)] for [0 <= i < len(l)]. *)
Definition pop_rest {A} (l : list A) (i : Z) : list A :=
  firstn (Z.to_nat i) l ++ skipn (S (Z.to_nat i)) l.

(** [a % b]; [None] is [ZeroDivisionError]. *)
Definition py_mod (a b : Z) : option Z :=
  if b =? 0 then None else Some (a mod b).

(** [sorted(l, key=lambda w: w.order)]: the stable sort by [order]. *)
Fixpoint insert_by_order (w : GameWindow) (l : list GameWindow)
  : list GameWindow :=
  match l with
  | [] => [w]
  | x :: r => if order w <=? order x then w :: l else x :: insert_by_order w r
  end.

Definition sorted_by_order (l : list GameWindow) : list GameWindow :=
  fold_right insert_by_order [] l.

Record t := mk {
  windows : list GameWindow;
  current_index : Z;
  hotkey_manager : HotkeyManager.t;
  (** [self.windows_api] is not [None] *)
  windows_api : bool;
  total_cycles : Z;
  successful_activations : Z;
  failed_activations : Z;
  (** the notifications sent so far, oldest first *)
  events : list Event
}.

(** [WindowCycler.__init__] *)
Definition init (keyboard_ok pynput_ok api_ok : bool) : t :=
  mk [] 0 (HotkeyManager.init keyboard_ok pynput_ok api_ok) api_ok 0 0 0 [].

Definition set_windows_field v (s : t) : t :=
  mk v (current_index s) (hotkey_manager s) (windows_api s)
     (total_cycles s) (successful_activations s) (failed_activations s)
     (events s).

Definition set_current_index v (s : t) : t :=
  mk (windows s) v (hotkey_manager s) (windows_api s)
     (total_cycles s) (successful_activations s) (failed_activations s)
     (events s).

Definition set_hotkey_manager v (s : t) : t :=
  mk (windows s) (current_index s) v (windows_api s)
     (total_cycles s) (successful_activations s) (failed_activations s)
     (events s).

Definition set_total_cycles v (s : t) : t :=
  mk (windows s) (current_index s) (hotkey_manager s) (windows_api s)
     v (successful_activations s) (failed_activations s)
     (events s).

Definition set_successful_activations v (s : t) : t :=
  mk (windows s) (current_index s) (hotkey_manager s) (windows_api s)
     (total_cycles s) v (failed_activations s)
     (events s).

Definition set_failed_activations v (s : t) : t :=
  mk (windows s) (current_index s) (hotkey_manager s) (windows_api s)
     (total_cycles s) (successful_activations s) v
     (events s).

(** Call an observer. *)
Definition notify (e : Event) (s : t) : t :=
  mk (windows s) (current_index s) (hotkey_manager s) (windows_api s)
     (total_cycles s) (successful_activations s) (failed_activations s)
     (events s ++ [e]).

(** [set_windows] *)
Definition set_windows (env : Env) (s : t) (ws : list GameWindow) : bool * t :=
  if is_nil ws then (false, s)
  else
    let valid_windows := filter (is_valid_handle env) ws in
    if is_nil valid_windows then (false, s)
    else
      let s := set_windows_field (sorted_by_order valid_windows) s in
      let s := set_current_index 0 s in
      (true, s).

(** [set_hotkey] *)
Definition set_hotkey (env : Env) (s : t) (hotkey_config : HotkeyConfig)
  : bool * t :=
  let (r, hm) :=
    HotkeyManager.set_hotkey env (hotkey_manager s) hotkey_config "cycle_next" in
  (r, set_hotkey_manager hm s).

(** [start_cycling] *)
Definition start_cycling (s : t) : bool :=
  if is_nil (windows s) then false
  else if negb (HotkeyManager.is_listening (hotkey_manager s)) then false
  else true.

(** [stop_cycling] *)
Definition stop_cycling (env : Env) (s : t) : t :=
  let s :=
    set_hotkey_manager (HotkeyManager.stop_listening env (hotkey_manager s)) s in
  notify CyclingStopped s.

(** [_activate_window] *)
Definition _activate_window (env : Env) (s : t) (window : GameWindow) : bool :=
  if negb (windows_api s) then false
  else activate_window env (hwnd window).

(** [_remove_invalid_window] *)
Definition _remove_invalid_window (s : t) (index : Z) : t :=
  if (0 <=? index) && (index <? len (windows s)) then
    match nth_error (windows s) (Z.to_nat index) with
    | Some removed_window =>
        let s := set_windows_field (pop_rest (windows s) index) s in
        let s :=
          if (current_index s >=? len (windows s)) && negb (is_nil (windows s))
          then set_current_index 0 s else s in
        notify (WindowRemoved removed_window) s
    | None => s
    end
  else s.

(** The [while attempts < max_attempts] loop of [cycle_next].  Each
    turn either removes a window or counts one attempt; [fuel] bounds
    the number of turns. *)
Fixpoint cycle_loop (env : Env) (fuel : nat) (max_attempts attempts : Z)
         (s : t) : outcome t :=
  match fuel with
  | O => OutOfFuel
  | S fuel' =>
      if negb (attempts <? max_attempts) then Returned s
      else
        let s :=
          if current_index s >=? len (windows s)
          then set_current_index 0 s else s in
        window <- or_raise IndexError (getitem (windows s) (current_index s)) ;;
        if negb (is_valid_handle env window) then
          let s := _remove_invalid_window s (current_index s) in
          if is_nil (windows s) then Returned (stop_cycling env s)
          else cycle_loop env fuel' max_attempts attempts s
        else
          let success := _activate_window env s window in
          if success then
            let s :=
              set_successful_activations (successful_activations s + 1) s in
            next <- or_raise ZeroDivisionError
                      (py_mod (current_index s + 1) (len (windows s))) ;;
            let s := set_current_index next s in
            Returned (notify (WindowActivated window) s)
          else
            let s := set_failed_activations (failed_activations s + 1) s in
            next <- or_raise ZeroDivisionError
                      (py_mod (current_index s + 1) (len (windows s))) ;;
            let s := set_current_index next s in
            cycle_loop env fuel' max_attempts (attempts + 1) s
  end.

(** Turns that always suffice for a list of [n] windows: at most [n]
    removals, at most [n] attempts, and the final test. *)
Definition cycle_fuel (n : nat) : nat := S (n + n).

(** [cycle_next] *)
Definition cycle_next (env : Env) (s : t) : outcome t :=
  if is_nil (windows s) then Returned s
  else
    let s := set_total_cycles (total_cycles s + 1) s in
    let max_attempts := len (windows s) in
    cycle_loop env (cycle_fuel (List.length (windows s))) max_attempts 0 s.

(** [cycle_to_specific] *)
Definition cycle_to_specific (env : Env) (s : t) (window_index : Z)
  : outcome (bool * t) :=
  if is_nil (windows s) || (window_index <? 0)
     || (window_index >=? len (windows s))
  then Returned (false, s)
  else
    window <- or_raise IndexError (getitem (windows s) window_index) ;;
    if negb (is_valid_handle env window) then
      Returned (false, _remove_invalid_window s window_index)
    else
      let success := _activate_window env s window in
      if success then
        let s := set_current_index window_index s in
        Returned (true, notify (WindowActivated window) s)
      else Returned (false, s).

(** [cycle_to_character] *)
Fixpoint find_character (name : string) (i : Z) (l : list GameWindow)
  : option Z :=
  match l with
  | [] => None
  | window :: r =>
      if String.eqb (lower (character_name window)) (lower name) then Some i
      else find_character name (i + 1) r
  end.

Definition cycle_to_character (env : Env) (s : t) (name : string)
  : outcome (bool * t) :=
  match find_character name 0 (windows s) with
  | Some i => cycle_to_specific env s i
  | None => Returned (false, s)
  end.

(** [refresh_window_validity]: the loop over
    [range(len(self.windows) - 1, -1, -1)]. *)
Fixpoint refresh_loop (env : Env) (indices : list Z) (s : t) : outcome t :=
  match indices with
  | [] => Returned s
  | i :: rest =>
      window <- or_raise IndexError (getitem (windows s) i) ;;
      if negb (is_valid_handle env window)
      then refresh_loop env rest (_remove_invalid_window s i)
      else refresh_loop env rest s
  end.

(** [range(n - 1, -1, -1)] *)
Definition range_down (n : nat) : list Z :=
  rev (map Z.of_nat (seq 0 n)).

Definition refresh_window_validity (env : Env) (s : t) : outcome t :=
  refresh_loop env (range_down (List.length (windows s))) s.

(** [reorder_windows] *)
Fixpoint reorder_loop (ws : list GameWindow) (new_order : list Z)
  : option (list GameWindow) :=
  match new_order with
  | [] => Some []
  | o :: rest =>
      if (0 <=? o) && (o <? len ws) then
        match nth_error ws (Z.to_nat o), reorder_loop ws rest with
        | Some w, Some r => Some (w :: r)
        | _, _ => None
        end
      else None
  end.

Definition reorder_windows (s : t) (new_order : list Z) : bool * t :=
  if negb (len new_order =? len (windows s)) then (false, s)
  else
    match reorder_loop (windows s) new_order with
    | Some new_windows =>
        (true, set_current_index 0 (set_windows_field new_windows s))
    | None => (false, s)
    end.

(** [get_current_window] *)
Definition get_current_window (s : t) : option GameWindow :=
  if negb (is_nil (windows s)) && (0 <=? current_index s)
     && (current_index s <? len (windows s))
  then nth_error (windows s) (Z.to_nat (current_index s))
  else None.

(** The public operations, and runs of them, each under the
    environment of its moment. *)
Inductive Op :=
| OpSetWindows (ws : list GameWindow)
| OpCycleNext
| OpCycleToSpecific (window_index : Z)
| OpCycleToCharacter (name : string)
| OpRefreshWindowValidity
| OpReorderWindows (new_order : list Z)
| OpStopCycling.

Definition step (env : Env) (s : t) (op : Op) : outcome t :=
  match op with
  | OpSetWindows ws => Returned (snd (set_windows env s ws))
  | OpCycleNext => cycle_next env s
  | OpCycleToSpecific i => r <- cycle_to_specific env s i ;; Returned (snd r)
  | OpCycleToCharacter n => r <- cycle_to_character env s n ;; Returned (snd r)
  | OpRefreshWindowValidity => refresh_window_validity env s
  | OpReorderWindows o => Returned (snd (reorder_windows s o))
  | OpStopCycling => Returned (stop_cycling env s)
  end.

Fixpoint run (s : t) (ops : list (Env * Op)) : outcome t :=
  match ops with
  | [] => Returned s
  | (env, op) :: rest => s' <- step env s op ;; run s' rest
  end.

(** The cursor invariant. *)
Definition cursor_in_range (s : t) : Prop :=
  windows s <> [] -> 0 <= current_index s < len (windows s).

(** Ascending by [order]. *)
Definition order_le (a b : GameWindow) : Prop := order a <= order b.

(** The windows of a list with a given [order], in their sequence. *)
Definition with_order (k : Z) (l : list GameWindow) : list GameWindow :=
  filter (fun w => order w =? k) l.

End WindowCycler.

(* ================================================================= *)
(** ** Concrete windows, platforms and cyclers *)

Module Examples.
Import Hotkey Platform WindowCycler.

Local Open Scope Z_scope.

Definition window (h : Z) (name : string) (o : Z) : GameWindow :=
  mkGameWindow h name "Dofus.exe" (4000 + h) name "dofus" "" o.

Definition A : GameWindow := window 101 "A" 1.
Definition B : GameWindow := window 102 "B" 2.
Definition C : GameWindow := window 103 "C" 3.

(** A platform on which every library call returns. *)
Definition platform (valid activate : Z -> bool) : Env :=
  mkEnv valid activate true (fun _ => true) true true true true true true
        true true.

Definition all_alive : Env := platform (fun _ => true) (fun _ => true).

(** The window with handle 102 has been closed. *)
Definition B_gone : Env := platform (fun h => negb (h =? 102)) (fun _ => true).

(** The operating system refuses every foreground request. *)
Definition focus_denied : Env := platform (fun _ => true) (fun _ => false).

(** Only [pynput] works: adding a [keyboard] hotkey raises and
    [win32con] cannot be imported. *)
Definition only_pynput : Env :=
  mkEnv (fun _ => true) (fun _ => true) true (fun _ => false) false true
        true true true true true true.

Definition fresh : t := init true true true.

Definition cycler_ABC : t := snd (set_windows all_alive fresh [C; A; B]).

Definition cycler_AB : t := snd (set_windows all_alive fresh [A; B]).

Definition ctrl_tab : HotkeyConfig :=
  mkHotkeyConfig "ctrl+tab" "Ctrl+Tab" [CTRL] "tab" COMBINATION.

Definition ctrl_mouse5 : HotkeyConfig :=
  mkHotkeyConfig "ctrl+mouse5" "Ctrl+Mouse 5" [CTRL] "mouse5" COMBINATION.

Definition fresh_manager : HotkeyManager.t := HotkeyManager.init true true true.

(** The fresh manager once a combo, or a callback, is stored. *)
Definition manager_mouse5 : HotkeyManager.t :=
  HotkeyManager.set_current_config (Some ctrl_mouse5) fresh_manager.

Definition manager_bound : HotkeyManager.t :=
  HotkeyManager.set_callback (Some "cycle_next") fresh_manager.


(** The fresh manager after binding Ctrl+Tab where only [pynput]
    arms: both listeners run. *)
Definition manager_pynput : HotkeyManager.t :=
  snd (HotkeyManager.set_hotkey only_pynput fresh_manager ctrl_tab
         "cycle_next").

(** As [only_pynput], but [mouse_listener.start()] raises. *)
Definition mouse_start_raises : Env :=
  mkEnv (fun _ => true) (fun _ => true) true (fun _ => false) false true
        true true true false true true.

(** No method can arm, and [key_listener.stop()] raises. *)
Definition key_stop_raises : Env :=
  mkEnv (fun _ => true) (fun _ => true) true (fun _ => false) false true
        false true true true false true.

(** The cycler after a jump to index 1 (window [B]) of [cycler_ABC]. *)
Definition cycler_jumped : t :=
  match cycle_to_specific all_alive cycler_ABC 1 with
  | Returned (_, s1) => s1
  | _ => cycler_ABC
  end.

(** A session: windows are set, two triggers, B disappears, a jump,
    a trigger with focus denied, a refresh and a reordering. *)
Definition session : list (Env * Op) :=
  [(all_alive, OpSetWindows [C; A; B]);
   (all_alive, OpCycleNext);
   (B_gone, OpCycleNext);
   (B_gone, OpCycleToSpecific 1);
   (focus_denied, OpCycleNext);
   (B_gone, OpRefreshWindowValidity);
   (all_alive, OpReorderWindows [1; 0])].

End Examples.

(* ================================================================= *)
(** ** More of [models/hotkey.py]: validation errors and presets *)

Module HotkeyErrors.
Import PyStr Hotkey.

(** The messages of [HotkeyValidator.get_validation_error], by kind;
    [InvalidKey] and [InvalidModifier] carry the offending part that
    the message quotes. *)
Inductive ValidationError :=
| EmptyHotkey
| InvalidFormat
| InvalidKey (main_key : string)
| InvalidModifier (modifier : string)
| DuplicateModifiers.

(** [HotkeyValidator.get_validation_error]; [None] is Python's [None]. *)
Definition get_validation_error (hotkey_string : string)
  : option ValidationError :=
  if String.eqb hotkey_string EmptyString
     || String.eqb (strip hotkey_string) EmptyString
  then Some EmptyHotkey
  else
    let parts := split "+" (strip (lower hotkey_string)) in
    if (List.length parts <? 1)%nat then Some InvalidFormat
    else
      let main_key := last parts EmptyString in
      let modifiers := removelast parts in
      if negb (mem main_key VALID_KEYS) then Some (InvalidKey main_key)
      else
        match find (fun modifier => negb (mem modifier VALID_MODIFIERS))
                   modifiers with
        | Some modifier => Some (InvalidModifier modifier)
        | None =>
            if has_duplicates modifiers then Some DuplicateModifiers
            else None
        end.

(** [KEYBOARD_PRESETS] and [MOUSE_PRESETS]: label and combo text. *)
Definition KEYBOARD_PRESETS : list (string * string) :=
  [("Ctrl+Tab", "ctrl+tab"); ("Alt+Tab", "alt+tab");
   ("Ctrl+Space", "ctrl+space"); ("Ctrl+Q", "ctrl+q");
   ("F1", "f1"); ("F2", "f2"); ("F3", "f3"); ("F4", "f4");
   ("Ctrl+F1", "ctrl+f1"); ("Ctrl+F2", "ctrl+f2")].

Definition MOUSE_PRESETS : list (string * string) :=
  [("Middle Click", "middle"); ("Mouse 4", "mouse4"); ("Mouse 5", "mouse5");
   ("Ctrl+Middle", "ctrl+middle"); ("Ctrl+Mouse 4", "ctrl+mouse4");
   ("Ctrl+Mouse 5", "ctrl+mouse5"); ("Alt+Middle", "alt+middle");
   ("Alt+Mouse 4", "alt+mouse4"); ("Alt+Mouse 5", "alt+mouse5");
   ("Shift+Mouse 4", "shift+mouse4")].

(** Does a preset's combo text validate and parse to a combo whose
    raw value is that text? *)
Definition preset_ok (preset : string * string) : bool :=
  validate_hotkey (snd preset) &&
  match parse (snd preset) with
  | Some c => String.eqb (raw_value c) (snd preset)
  | None => false
  end.

(** The valid main keys that the Win32 and pynput tables leave out. *)
Definition navigation_keys : list string :=
  ["insert"; "home"; "end"; "pageup"; "pagedown"].

(** The texts on which the string methods of the model are those of
    Python: every character is below 128 ([str.isalpha], [str.isdigit]
    and [str.upper] know letters and digits beyond), and there are at
    most [int_max_str_digits] characters ([int] raises on longer runs
    of digits where the interpreter enforces that limit). *)
Definition is_ascii (s : string) : bool :=
  all_chars (fun c => (nat_of_ascii c <? 128)%nat) s.

Definition int_max_str_digits : nat := 4300.

Definition plain_key (key : string) : Prop :=
  is_ascii key = true /\ (String.length key <= int_max_str_digits)%nat.

End HotkeyErrors.

(* ================================================================= *)
(** ** More of [models/game_window.py]: display names *)

Module GameWindowDisplay.
Import PyStr WindowCycler.

Local Open Scope Z_scope.





End GameWindowDisplay.

(* ================================================================= *)
(** ** More of [core/window_cycler.py]: queries and statistics *)

Module WindowCyclerQueries.
Import PyStr Hotkey Platform WindowCycler.

Local Open Scope Z_scope.

(** [get_next_window] *)
Definition get_next_window (s : t) : outcome (option GameWindow) :=
  if is_nil (windows s) then Returned None
  else
    next_index <- or_raise ZeroDivisionError
                    (py_mod (current_index s + 1) (len (windows s))) ;;
    window <- or_raise IndexError (getitem (windows s) next_index) ;;
    Returned (Some window).

(** [is_cycling_active] *)
Definition is_cycling_active (s : t) : bool :=
  HotkeyManager.is_listening (hotkey_manager s) && (len (windows s) >? 0).

(** [n] triggers in a row under the same platform answers. *)
Definition triggers (env : Env) (n : nat) : list (Env * Op) :=
  repeat (env, OpCycleNext) n.

(** The window at position [i] modulo the length, for a non-empty list. *)
Definition window_at (l : list GameWindow) (i : Z) : option GameWindow :=
  nth_error l (Z.to_nat (i mod len l)).

(** The notifications of a round of [n] successful triggers that starts
    with the cursor at [c]: the windows at [c], [c+1], ... modulo the
    length. *)
Fixpoint round_robin (l : list GameWindow) (c : Z) (n : nat) : list Event :=
  match n with
  | O => []
  | S k =>
      match window_at l c with
      | Some w => WindowActivated w :: round_robin l (c + 1) k
      | None => []
      end
  end.

(** What one trigger may add to the notifications under [env], for a
    cycler that held the windows [l]. *)
Definition sound_event (env : Env) (l : list GameWindow) (e : Event) : Prop :=
  match e with
  | WindowActivated w =>
      In w l /\ is_valid_handle env w = true /\
      activate_window env (hwnd w) = true
  | WindowRemoved w => In w l /\ is_valid_handle env w = false
  | CyclingStopped => True
  end.

Definition is_activation (e : Event) : bool :=
  match e with
  | WindowActivated _ => true
  | _ => false
  end.

Definition count_activations (l : list Event) : Z :=
  len (filter is_activation l).

(** [sum(1 for i in new_order if 0 <= i < n)] equals [len(new_order)]:
    all indices are in range. *)
Definition all_in_range (n : Z) (new_order : list Z) : bool :=
  forallb (fun o => (0 <=? o) && (o <? n)) new_order.

(** The windows picked by a list of indices. *)
Definition pick (l : list GameWindow) (new_order : list Z)
  : list (option GameWindow) :=
  map (fun o => nth_error l (Z.to_nat o)) new_order.

End WindowCyclerQueries.

(* ================================================================= *)
(** ** More of [core/hotkey_manager.py]: the pynput listener *)

Module Pynput.
Import PyStr Hotkey Platform HotkeyManager.

Local Open Scope Z_scope.

(** Key and button objects of [pynput] are told apart by identity
    only.  A [Key] member is a negative number, [KeyCode.from_char(c)]
    is the code of [c], and [None] (an unknown key) has its own
    number. *)
Definition Key_ctrl_l : Z := -1.
Definition Key_ctrl_r : Z := -2.
Definition Key_alt_l : Z := -3.
Definition Key_alt_r : Z := -4.
Definition Key_shift_l : Z := -5.
Definition Key_shift_r : Z := -6.
Definition Key_tab : Z := -30.
Definition Key_space : Z := -31.
Definition Key_enter : Z := -32.
Definition Key_esc : Z := -33.
Definition Key_backspace : Z := -34.
Definition Key_delete : Z := -35.
Definition Key_up : Z := -36.
Definition Key_down : Z := -37.
Definition Key_left : Z := -38.
Definition Key_right : Z := -39.
Definition Key_None : Z := -100.

(** [Key.f1] ... [Key.f12] *)
Definition Key_f (n : Z) : Z := - (10 + n).

(** [KeyCode.from_char(c)] *)
Definition KeyCode_from_char (c : string) : Z := ord c.

Definition Button_middle : Z := 2.
Definition Button_x1 : Z := 4.
Definition Button_x2 : Z := 5.

(** Python sets of such objects. *)
Definition set_in (x : Z) (l : list Z) : bool := existsb (Z.eqb x) l.

Definition set_add (x : Z) (l : list Z) : list Z :=
  if set_in x l then l else x :: l.

Definition set_remove (x : Z) (l : list Z) : list Z :=
  filter (fun y => negb (y =? x)) l.

Definition set_pressed_keys v (s : t) : t :=
  mk (current_config s) (callback s) (is_listening s) (last_trigger_time s)
     (min_trigger_interval s) (active_method s) (method_priority s)
     (hotkey_thread s) (stop_thread s) (keyboard_available s)
     (keyboard_hooks s) (pynput_available s) v
     (pressed_mouse s) (last_combo_state s) (key_listener s)
     (mouse_listener s) (windows_api s).

Definition set_pressed_mouse v (s : t) : t :=
  mk (current_config s) (callback s) (is_listening s) (last_trigger_time s)
     (min_trigger_interval s) (active_method s) (method_priority s)
     (hotkey_thread s) (stop_thread s) (keyboard_available s)
     (keyboard_hooks s) (pynput_available s) (pressed_keys s)
     v (last_combo_state s) (key_listener s)
     (mouse_listener s) (windows_api s).

Definition set_last_combo_state v (s : t) : t :=
  mk (current_config s) (callback s) (is_listening s) (last_trigger_time s)
     (min_trigger_interval s) (active_method s) (method_priority s)
     (hotkey_thread s) (stop_thread s) (keyboard_available s)
     (keyboard_hooks s) (pynput_available s) (pressed_keys s)
     (pressed_mouse s) v (key_listener s)
     (mouse_listener s) (windows_api s).

(** [_is_modifier_pressed]: the [WIN] modifier has no branch. *)
Definition _is_modifier_pressed (s : t) (modifier : ModifierKey) : bool :=
  match modifier with
  | CTRL => set_in Key_ctrl_l (pressed_keys s) || set_in Key_ctrl_r (pressed_keys s)
  | ALT => set_in Key_alt_l (pressed_keys s) || set_in Key_alt_r (pressed_keys s)
  | SHIFT =>
      set_in Key_shift_l (pressed_keys s) || set_in Key_shift_r (pressed_keys s)
  | WIN => false
  end.

(** [f_key_map.get(f_num)]: [Key_None] is Python's [None]. *)
Definition f_key_map_get (f_num : Z) : Z :=
  if (1 <=? f_num) && (f_num <=? 12) then Key_f f_num else Key_None.

Definition special_keys : list (string * Z) :=
  [("tab", Key_tab); ("space", Key_space); ("enter", Key_enter);
   ("escape", Key_esc); ("backspace", Key_backspace); ("delete", Key_delete);
   ("up", Key_up); ("down", Key_down); ("left", Key_left);
   ("right", Key_right)].

(** [_is_main_key_pressed] *)
Definition _is_main_key_pressed (s : t) (main_key : string) : bool :=
  if startswith "f" main_key && isdigit (tail main_key) then
    set_in (f_key_map_get (int (tail main_key))) (pressed_keys s)
  else
    match dict_get main_key special_keys with
    | Some key => set_in key (pressed_keys s)
    | None =>
        if String.eqb main_key "middle" then set_in Button_middle (pressed_mouse s)
        else if String.eqb main_key "mouse4" then set_in Button_x1 (pressed_mouse s)
        else if String.eqb main_key "mouse5" then set_in Button_x2 (pressed_mouse s)
        else if (String.length main_key =? 1)%nat
        then set_in (KeyCode_from_char main_key) (pressed_keys s)
        else false
    end.

(** [_is_combo_active_pynput] *)
Definition _is_combo_active_pynput (s : t) : bool :=
  match current_config s with
  | None => false
  | Some config =>
      if forallb (_is_modifier_pressed s) (modifiers config)
      then _is_main_key_pressed s (main_key config)
      else false
  end.

(** [_check_combo_and_trigger] at [current_time = time.time()]; the
    result counts the callback threads started. *)
Definition _check_combo_and_trigger (current_time : Q) (s : t) : nat * t :=
  match current_config s with
  | None => (0%nat, s)
  | Some _ =>
      let combo_active := _is_combo_active_pynput s in
      let (fired, s) :=
        if combo_active && negb (last_combo_state s) then
          let (ok, s') := _should_trigger current_time s in
          if ok then
            match callback s' with
            | Some _ => (1%nat, s')
            | None => (0%nat, s')
            end
          else (0%nat, s')
        else (0%nat, s) in
      (fired, set_last_combo_state combo_active s)
  end.

(** [_on_key_press], [_on_key_release] and [_on_mouse_click] *)
Definition _on_key_press (current_time : Q) (key : Z) (s : t) : nat * t :=
  _check_combo_and_trigger current_time
    (set_pressed_keys (set_add key (pressed_keys s)) s).

Definition _on_key_release (current_time : Q) (key : Z) (s : t) : nat * t :=
  let s :=
    if set_in key (pressed_keys s)
    then set_pressed_keys (set_remove key (pressed_keys s)) s else s in
  _check_combo_and_trigger current_time s.

Definition _on_mouse_click (current_time : Q) (button : Z) (pressed : bool)
           (s : t) : nat * t :=
  let s :=
    if pressed then set_pressed_mouse (set_add button (pressed_mouse s)) s
    else if set_in button (pressed_mouse s)
         then set_pressed_mouse (set_remove button (pressed_mouse s)) s
         else s in
  _check_combo_and_trigger current_time s.

(** What the two listeners deliver. *)
Inductive Input :=
| KeyPress (key : Z)
| KeyRelease (key : Z)
| MouseClick (button : Z) (pressed : bool).

Definition handle (current_time : Q) (i : Input) (s : t) : nat * t :=
  match i with
  | KeyPress key => _on_key_press current_time key s
  | KeyRelease key => _on_key_release current_time key s
  | MouseClick button pressed => _on_mouse_click current_time button pressed s
  end.

(** A timed sequence of inputs; the callbacks started are summed. *)
Fixpoint replay (inputs : list (Q * Input)) (s : t) : nat * t :=
  match inputs with
  | [] => (0%nat, s)
  | (current_time, i) :: rest =>
      let (n, s1) := handle current_time i s in
      let (m, s2) := replay rest s1 in
      ((n + m)%nat, s2)
  end.

(** An input that repeats what is already held. *)
Definition is_repeat (s : t) (i : Input) : bool :=
  match i with
  | KeyPress key => set_in key (pressed_keys s)
  | KeyRelease _ => false
  | MouseClick button pressed => pressed && set_in button (pressed_mouse s)
  end.

(** The tracker agrees with what is held. *)
Definition in_sync (s : t) : Prop :=
  last_combo_state s = _is_combo_active_pynput s.

(** The mask bit of a modifier is set. *)
Definition has_flag (mask : Z) (m : ModifierKey) : bool :=
  negb (Z.land mask (modifier_flag m) =? 0).

End Pynput.

(* ================================================================= *)
(** ** More concrete data *)

Module MoreExamples.
Import Hotkey Platform WindowCycler Examples.

Local Open Scope Z_scope.


(** A platform on which no window handle is valid any more. *)
Definition all_gone : Env := platform (fun _ => false) (fun _ => true).

(** The fresh manager bound to Ctrl+Tab with a callback, its last
    trigger long ago. *)
Definition manager_ctrl_tab : HotkeyManager.t :=
  HotkeyManager.set_callback (Some "cycle_next")
    (HotkeyManager.set_current_config (Some ctrl_tab) fresh_manager).

(** The same manager with Ctrl (left) and Tab held and the tracker
    in sync. *)
Definition manager_holding : HotkeyManager.t :=
  snd (Pynput.replay
         [(1000%Q, Pynput.KeyPress Pynput.Key_ctrl_l);
          (1000%Q, Pynput.KeyPress Pynput.Key_tab)]
         manager_ctrl_tab).

(** Key repeat while the combo is held. *)
Definition key_repeat : list (Q * Pynput.Input) :=
  [((10003 # 10)%Q, Pynput.KeyPress Pynput.Key_tab);
   ((10006 # 10)%Q, Pynput.KeyPress Pynput.Key_tab);
   ((10009 # 10)%Q, Pynput.KeyPress Pynput.Key_ctrl_l)].

Definition win_d : HotkeyConfig :=
  mkHotkeyConfig "win+d" "Win+D" [WIN] "d" COMBINATION.

Definition ctrl_home : HotkeyConfig :=
  mkHotkeyConfig "ctrl+home" "Ctrl+HOME" [CTRL] "home" COMBINATION.

Definition ctrl_shift_f5 : HotkeyConfig :=
  mkHotkeyConfig "ctrl+shift+f5" "Ctrl+Shift+F5" [CTRL; SHIFT] "f5" COMBINATION.

(** What [parse] makes of a text with an unknown main key. *)
Definition ctrl_foo : HotkeyConfig :=
  mkHotkeyConfig "ctrl+foo" "Ctrl+FOO" [CTRL] "foo" COMBINATION.

(** The manager bound to Ctrl+Tab with Ctrl (left) held. *)
Definition manager_ctrl_down : HotkeyManager.t :=
  snd (Pynput.handle 1000%Q (Pynput.KeyPress Pynput.Key_ctrl_l)
         manager_ctrl_tab).

(** The manager bound to Win+D. *)
Definition manager_win_d : HotkeyManager.t :=
  HotkeyManager.set_current_config (Some win_d) manager_bound.

(** The cycler on A, B, C with the cursor on B. *)
Definition cycler_at_1 : t := set_current_index 1 cycler_ABC.

(** The cycler on A, B, C bound to Ctrl+Tab. *)
Definition cycler_bound : t :=
  snd (WindowCycler.set_hotkey only_pynput cycler_ABC ctrl_tab).

(** The cycler on A, B, C refreshed after B was closed. *)
Definition cycler_refreshed : t :=
  match refresh_window_validity B_gone cycler_ABC with
  | Returned s => s
  | _ => cycler_ABC
  end.

End MoreExamples.

(* ================================================================= *)
(** ** Properties of the string primitives *)

Module PyStrFacts.
Import PyStr.

Lemma split_not_nil (sep : ascii) (s : string) : split sep s <> [].
Proof.
  destruct s as [|c r]; simpl; [discriminate|].
  destruct (Ascii.eqb c sep); [discriminate|].
  destruct (split sep r); discriminate.
Qed.

(** Joining what [split] produced gives the string back. *)
Lemma join_split (s : string) : join "+" (split "+" s) = s.
Proof.
  induction s as [|c r IH]; simpl; [reflexivity|].
  destruct (Ascii.eqb c "+") eqn:E.
  - apply Ascii.eqb_eq in E; subst c.
    destruct (split "+" r) as [|p ps] eqn:S; [now apply split_not_nil in S|].
    change (join "+" ("" :: p :: ps))
      with ("" ++ "+" ++ join "+" (p :: ps))%string.
    rewrite IH; reflexivity.
  - destruct (split "+" r) as [|p ps] eqn:S; [now apply split_not_nil in S|].
    destruct ps as [|q qs]; [simpl in *; now rewrite <- IH|].
    change (join "+" (String c p :: q :: qs))
      with (String c (p ++ "+" ++ join "+" (q :: qs))%string).
    now rewrite <- IH.
Qed.

Lemma lower_app (a b : string) : lower (a ++ b) = (lower a ++ lower b)%string.
Proof. induction a; simpl; [reflexivity|now rewrite IHa]. Qed.

Lemma lower_join (l : list string) :
  lower (join "+" l) = join "+" (map lower l).
Proof.
  induction l as [|x xs IH]; [reflexivity|].
  destruct xs as [|y ys]; [reflexivity|].
  change (join "+" (x :: y :: ys)) with (x ++ "+" ++ join "+" (y :: ys))%string.
  rewrite lower_app, lower_app, IH; reflexivity.
Qed.

Lemma all_chars_app p (a b : string) :
  all_chars p (a ++ b) = all_chars p a && all_chars p b.
Proof. induction a; simpl; [reflexivity|now rewrite IHa, andb_assoc]. Qed.

Lemma all_chars_join p (l : list string) :
  p "+"%char = true ->
  forallb (all_chars p) l = true ->
  all_chars p (join "+" l) = true.
Proof.
  intros Hp; induction l as [|x xs IH]; [reflexivity|].
  intros H; simpl in H; apply andb_true_iff in H as [Hx Hxs].
  destruct xs as [|y ys]; [exact Hx|].
  change (join "+" (x :: y :: ys)) with (x ++ "+" ++ join "+" (y :: ys))%string.
  rewrite !all_chars_app, Hx, (IH Hxs); simpl; now rewrite Hp.
Qed.

(** A string without upper-case letters is its own [lower]. *)
Lemma lower_fixed (s : string) :
  all_chars (fun c => negb (is_upper c)) s = true -> lower s = s.
Proof.
  induction s as [|c r IH]; simpl; [reflexivity|].
  intros H; apply andb_true_iff in H as [Hc Hr].
  unfold char_lower; apply negb_true_iff in Hc; rewrite Hc, (IH Hr); reflexivity.
Qed.

(** A string without white space is its own [strip]. *)
Lemma lstrip_fixed (s : string) :
  all_chars (fun c => negb (is_space c)) s = true -> lstrip s = s.
Proof.
  destruct s as [|c r]; simpl; [reflexivity|].
  intros H; apply andb_true_iff in H as [Hc _].
  apply negb_true_iff in Hc; now rewrite Hc.
Qed.

Lemma rstrip_fixed (s : string) :
  all_chars (fun c => negb (is_space c)) s = true -> rstrip s = s.
Proof.
  induction s as [|c r IH]; simpl; [reflexivity|].
  intros H; apply andb_true_iff in H as [Hc Hr].
  rewrite (IH Hr); apply negb_true_iff in Hc; rewrite Hc.
  destruct r; reflexivity.
Qed.

Lemma strip_fixed (s : string) :
  all_chars (fun c => negb (is_space c)) s = true -> strip s = s.
Proof.
  intros H; unfold strip; rewrite (lstrip_fixed _ H); now apply rstrip_fixed.
Qed.

Lemma all_chars_and p q (s : string) :
  all_chars (fun c => p c && q c) s = all_chars p s && all_chars q s.
Proof.
  induction s as [|c r IH]; simpl; [reflexivity|].
  rewrite IH; destruct (p c), (q c), (all_chars p r), (all_chars q r); reflexivity.
Qed.

Lemma mem_In (x : string) (l : list string) : mem x l = true <-> In x l.
Proof.
  unfold mem; rewrite existsb_exists; split.
  - intros [y [Hy E]]; apply String.eqb_eq in E; now subst.
  - intros H; exists x; split; [assumption|apply String.eqb_refl].
Qed.

End PyStrFacts.

(* ================================================================= *)
(** ** Properties of [models/hotkey.py] *)

Module HotkeyFacts.
Import PyStr PyStrFacts Hotkey.

Lemma valid_parts (s : string) :
  validate_hotkey s = true ->
  let parts := split "+" (strip (lower s)) in
  mem (last parts EmptyString) VALID_KEYS = true /\
  forallb (fun m => mem m VALID_MODIFIERS) (removelast parts) = true.
Proof.
  unfold validate_hotkey; cbv zeta.
  destruct (_ || _); [discriminate|].
  destruct (_ <? _)%nat; [discriminate|].
  destruct (mem (last _ _) VALID_KEYS); [|discriminate].
  destruct (forallb _ _); [|discriminate].
  intros _; split; reflexivity.
Qed.

Lemma ModifierKey_of_valid (m : string) :
  mem m VALID_MODIFIERS = true ->
  exists k, ModifierKey_of m = Some k /\ modifier_value k = m.
Proof.
  intros H; apply mem_In in H; simpl in H.
  destruct H as [<-|[<-|[<-|[<-|[]]]]]; eexists; split; reflexivity.
Qed.

Lemma parse_modifiers_valid (l : list string) :
  forallb (fun m => mem m VALID_MODIFIERS) l = true ->
  exists ms, parse_modifiers l = Some ms /\ map modifier_value ms = l.
Proof.
  induction l as [|m r IH]; simpl; intros H.
  - exists []; split; reflexivity.
  - apply andb_true_iff in H as [Hm Hr].
    destruct (ModifierKey_of_valid m Hm) as [k [Hk Hv]].
    destruct (IH Hr) as [ms [Hms Hmap]].
    exists (k :: ms); rewrite Hk, Hms; simpl; now rewrite Hv, Hmap.
Qed.

Lemma modifier_value_plain (k : ModifierKey) :
  all_chars plain (modifier_value k) = true.
Proof. destruct k; reflexivity. Qed.

Lemma valid_key_plain (key : string) :
  mem key VALID_KEYS = true -> all_chars plain key = true.
Proof.
  intros H; apply mem_In in H.
  assert (A : forallb (all_chars plain) VALID_KEYS = true) by (vm_compute; reflexivity).
  rewrite forallb_forall in A; now apply A.
Qed.

Lemma valid_key_display (key : string) :
  mem key VALID_KEYS = true -> is_pointer_button key = false ->
  lower (main_key_display key) = key.
Proof.
  intros H Hm; apply mem_In in H.
  assert (A : forallb (fun k => is_pointer_button k
                                || String.eqb (lower (main_key_display k)) k)
                      VALID_KEYS = true) by (vm_compute; reflexivity).
  rewrite forallb_forall in A; specialize (A _ H).
  rewrite Hm in A; simpl in A; now apply String.eqb_eq.
Qed.

Lemma modifier_display_lower (ms : list ModifierKey) :
  map lower (map modifier_display ms) = map modifier_value ms.
Proof.
  induction ms as [|k r IH]; simpl; [reflexivity|].
  rewrite IH; destruct k; reflexivity.
Qed.

(** The canonical text of a combo: its parts joined by [+]. *)
Lemma canonical_plain (ms : list ModifierKey) (key : string) :
  mem key VALID_KEYS = true ->
  all_chars plain (join "+" (map modifier_value ms ++ [key])) = true.
Proof.
  intros H; apply all_chars_join; [reflexivity|].
  rewrite forallb_app; simpl; rewrite (valid_key_plain _ H), andb_true_r.
  apply forallb_forall; intros x Hx; apply in_map_iff in Hx as [k [<- _]].
  apply modifier_value_plain.
Qed.

Lemma plain_normal (s : string) :
  all_chars plain s = true -> strip (lower s) = s.
Proof.
  intros H; unfold plain in H; rewrite all_chars_and in H.
  apply andb_true_iff in H as [Hs Hu].
  rewrite (lower_fixed _ Hu); now apply strip_fixed.
Qed.

(** What [parse] computes once the text is normalised. *)
Lemma parse_normal (s raw : string) :
  strip (lower s) = raw -> strip (lower raw) = raw -> parse s = parse raw.
Proof. intros H1 H2; unfold parse; now rewrite H1, H2. Qed.

(** The shape of a valid combo text. *)
Lemma valid_shape (s : string) :
  validate_hotkey s = true ->
  exists ms key,
    mem key VALID_KEYS = true /\
    strip (lower s) = join "+" (map modifier_value ms ++ [key]) /\
    parse s = Some (mkHotkeyConfig (strip (lower s))
                      (_generate_display_name ms key) ms key
                      (if is_pointer_button key
                       then (if is_nil ms then MOUSE else COMBINATION)
                       else (if is_nil ms then KEYBOARD else COMBINATION))).
Proof.
  intros V; destruct (valid_parts s V) as [Hk Hm]; cbv zeta in *.
  destruct (parse_modifiers_valid _ Hm) as [ms [Hms Hmap]].
  exists ms, (last (split "+" (strip (lower s))) EmptyString).
  split; [exact Hk|]; split.
  - rewrite Hmap, <- app_removelast_last by apply split_not_nil.
    symmetry; apply join_split.
  - unfold parse; rewrite Hms; reflexivity.
Qed.

Lemma canonical_no_space (ms : list ModifierKey) (key : string) :
  mem key VALID_KEYS = true ->
  all_chars (fun c => negb (is_space c))
            (join "+" (map modifier_value ms ++ [key])) = true.
Proof.
  intros Hk; pose proof (canonical_plain ms key Hk) as Q.
  unfold plain in Q; rewrite all_chars_and in Q.
  now apply andb_true_iff in Q as [Q _].
Qed.

Lemma valid_normal_form (s : string) :
  validate_hotkey s = true -> validate_hotkey (strip (lower s)) = true.
Proof.
  intros V; destruct (valid_shape s V) as [ms [key [Hk [Hraw _]]]].
  assert (P : strip (lower (strip (lower s))) = strip (lower s)).
  { rewrite Hraw; apply plain_normal, canonical_plain, Hk. }
  assert (S : strip (strip (lower s)) = strip (lower s)).
  { rewrite Hraw; apply strip_fixed, canonical_no_space, Hk. }
  destruct (valid_parts s V) as [Hk' _]; cbv zeta in Hk'.
  assert (N : String.eqb (strip (lower s)) EmptyString = false).
  { destruct (strip (lower s)); [discriminate Hk'|reflexivity]. }
  revert V; unfold validate_hotkey; rewrite S, P, N; simpl.
  destruct (_ || _); [discriminate|]; trivial.
Qed.

(** C7 (as the code has it): a valid combo text parses; parsing the
    canonical text [raw_value] of the combo gives the combo back; and
    parsing its string form [str(combo)], which is the display name,
    gives the combo back whenever the main key is not a pointer
    button. *)
Theorem parse_roundtrip (s : string) :
  validate_hotkey s = true ->
  exists c,
    parse s = Some c /\
    is_valid c = true /\
    parse (raw_value c) = Some c /\
    (is_pointer_button (main_key c) = false -> parse (to_str c) = Some c).
Proof.
  intros V; destruct (valid_shape s V) as [ms [key [Hk [Hraw Hp]]]].
  eexists; split; [exact Hp|].
  assert (P : strip (lower (strip (lower s))) = strip (lower s)).
  { rewrite Hraw; apply plain_normal, canonical_plain, Hk. }
  unfold is_valid, to_str; cbn [raw_value display_name main_key].
  split; [now apply valid_normal_form|].
  split.
  - rewrite <- Hp; symmetry; now apply parse_normal.
  - intros M; rewrite <- Hp.
    rewrite (parse_normal s (strip (lower s)) eq_refl P).
    apply parse_normal; [|exact P].
    unfold _generate_display_name.
    rewrite lower_join, map_app, modifier_display_lower; simpl.
    rewrite (valid_key_display _ Hk M), Hraw.
    apply strip_fixed, canonical_no_space, Hk.
Qed.

(** The round trip at the default hotkey of the main window. *)
Lemma parse_roundtrip_witness :
  validate_hotkey "Ctrl+Tab" = true /\
  exists c,
    parse "Ctrl+Tab" = Some c /\
    is_valid c = true /\
    parse (raw_value c) = Some c /\
    (is_pointer_button (main_key c) = false -> parse (to_str c) = Some c).
Proof.
  split; [reflexivity|].
  apply (parse_roundtrip "Ctrl+Tab"); reflexivity.
Defined.

(** The string form of the valid combo [mouse4] is ["Mouse 4"], which
    parses to a different combo (main key ["mouse 4"]). *)
Lemma parse_roundtrip_fails_mouse4 :
  validate_hotkey "mouse4" = true /\
  exists c c',
    parse "mouse4" = Some c /\
    to_str c = "Mouse 4" /\
    parse (to_str c) = Some c' /\
    main_key c = "mouse4" /\
    main_key c' = "mouse 4" /\
    c' <> c.
Proof.
  split; [reflexivity|].
  eexists; eexists.
  split; [reflexivity|].
  split; [reflexivity|].
  split; [reflexivity|].
  split; [reflexivity|].
  split; [reflexivity|].
  discriminate.
Qed.

End HotkeyFacts.

(* ================================================================= *)
(** ** Properties of [core/hotkey_manager.py] *)

Module HotkeyManagerFacts.
Import PyStr PyStrFacts Hotkey Platform HotkeyManager.

(** *** The Win32 method and pointer buttons *)

Lemma pointer_button_cases (key : string) :
  is_pointer_button key = true ->
  key = "middle" \/ key = "mouse4" \/ key = "mouse5".
Proof.
  intros H; apply mem_In in H; simpl in H.
  destruct H as [<-|[<-|[<-|[]]]]; auto.
Qed.

Lemma _get_vk_code_pointer (env : Env) (key : string) :
  is_pointer_button key = true -> _get_vk_code env key = None.
Proof.
  intros H; unfold _get_vk_code.
  destruct (win32con_ok env); [|reflexivity].
  destruct (pointer_button_cases key H) as [-> | [-> | ->]]; reflexivity.
Qed.

(** C6: for a combo whose main key is a pointer button the key-code
    conversion yields no virtual key code, and [_start_win32_method]
    returns false leaving the manager as it was: no thread object is
    created or started. *)
Theorem win32_rejects_pointer_buttons (env : Env) (s : t) (config : HotkeyConfig) :
  current_config s = Some config ->
  is_pointer_button (main_key config) = true ->
  _get_vk_code env (main_key config) = None /\
  fst (_convert_for_win32 env config) = None /\
  _start_win32_method env s = (false, s).
Proof.
  intros Hc Hp.
  pose proof (_get_vk_code_pointer env _ Hp) as Hvk.
  assert (Hconv : _convert_for_win32 env config = (None, None)).
  { unfold _convert_for_win32; rewrite Hvk; destruct (win32con_ok env); reflexivity. }
  split; [exact Hvk|]; split; [now rewrite Hconv|].
  unfold _start_win32_method; rewrite Hc, Hconv.
  destruct (windows_api s); reflexivity.
Qed.

(** *** Debounce *)

Lemma _should_trigger_accept (s : t) (now : Q) :
  fst (_should_trigger now s) = true <->
  (min_trigger_interval s <= now - last_trigger_time s)%Q.
Proof.
  unfold _should_trigger.
  destruct (Qle_bool _ _) eqn:E; simpl.
  - apply Qle_bool_iff in E; tauto.
  - split; [discriminate|].
    intros H; apply Qle_bool_iff in H; congruence.
Qed.





(** *** Arming a method *)

Ltac split_ifs :=
  repeat match goal with
         | |- context [if ?b then _ else _] => destruct b
         | |- context [match ?o with Some _ => _ | None => _ end] => destruct o
         | |- context [let (_, _) := ?p in _] => destruct p
         end.

Lemma _start_keyboard_method_caps (env : Env) (s : t) :
  let s' := snd (_start_keyboard_method env s) in
  caps s' = caps s /\ is_listening s' = is_listening s /\
  active_method s' = active_method s.
Proof.
  unfold _start_keyboard_method; destruct s; cbn; split_ifs; cbn; auto.
Qed.

Lemma _start_win32_method_caps (env : Env) (s : t) :
  let s' := snd (_start_win32_method env s) in
  caps s' = caps s /\ is_listening s' = is_listening s /\
  active_method s' = active_method s.
Proof.
  unfold _start_win32_method; destruct s; cbn.
  destruct current_config0; cbn; auto.
  destruct windows_api0; cbn; auto.
  destruct (_convert_for_win32 env h) as [[vk|] m]; cbn; auto.
  destruct (thread_start_ok env); cbn; auto.
Qed.

Lemma _start_pynput_method_caps (env : Env) (s : t) :
  let s' := snd (_start_pynput_method env s) in
  caps s' = caps s /\ is_listening s' = is_listening s /\
  active_method s' = active_method s.
Proof.
  unfold _start_pynput_method; destruct s; cbn; split_ifs; cbn; auto.
Qed.

Lemma attempt_caps (env : Env) (m : HotkeyMethod) (name : option string) (s : t) :
  let s' := snd (attempt env m name s) in
  caps s' = caps s /\ is_listening s' = is_listening s /\
  active_method s' = active_method s.
Proof.
  unfold attempt.
  pose proof (_start_keyboard_method_caps env s) as K.
  pose proof (_start_win32_method_caps env s) as W.
  pose proof (_start_pynput_method_caps env s) as P.
  destruct (_ && keyboard_available s).
  { destruct (_start_keyboard_method env s); exact K. }
  destruct (_ && windows_api s).
  { destruct (_start_win32_method env s); exact W. }
  destruct (_ && pynput_available s).
  { destruct (_start_pynput_method env s); exact P. }
  cbn; auto.
Qed.

(** Whether a method arms is decided by [caps] and the environment:
    neither the local [method_name] nor what earlier failed attempts
    left behind matters. *)
Lemma attempt_success_caps (env : Env) (m : HotkeyMethod)
      (name name' : option string) (s s' : t) :
  caps s = caps s' ->
  fst (fst (attempt env m name s)) = fst (fst (attempt env m name' s')).
Proof.
  unfold caps; intros E; injection E as E1 E2 E3 E4.
  unfold attempt, _start_keyboard_method, _start_win32_method,
    _start_pynput_method.
  rewrite E1, E2, E3, E4.
  destruct m; cbn [method_eqb andb];
    destruct (keyboard_available s'), (windows_api s'), (pynput_available s'),
      (current_config s') as [config|]; cbn; try reflexivity.
  all: try (destruct (unhook_all_ok env); cbn; [|reflexivity];
            destruct (add_hotkey_ok env _); reflexivity).
  all: try (destruct (_convert_for_win32 env config) as [[vk|] fl]; cbn;
            [|reflexivity]; destruct (thread_start_ok env); reflexivity).
  all: destruct (key_listener_new_ok env); cbn; [|reflexivity];
    destruct (mouse_listener_new_ok env); cbn; [|reflexivity];
    destruct (key_listener_start_ok env); cbn; [|reflexivity];
    destruct (mouse_listener_start_ok env); reflexivity.
Qed.

Lemma find_arms_caps (env : Env) (s s' : t) (methods : list HotkeyMethod) :
  caps s = caps s' -> find (arms env s) methods = find (arms env s') methods.
Proof.
  intros E; induction methods as [|m r IH]; [reflexivity|]; simpl.
  unfold arms at 1 3; rewrite (attempt_success_caps env m None None s s' E).
  now rewrite IH.
Qed.

(** The loop arms the first method of the list that can arm. *)
Lemma start_loop_first (env : Env) (methods : list HotkeyMethod) :
  forall (name : option string) (tried : list Tried) (s : t),
    is_listening s = false -> active_method s = None ->
    exists s',
      match find (arms env s) methods with
      | Some m =>
          start_loop env methods name tried s = (true, s') /\
          active_method s' = Some m /\ is_listening s' = true
      | None =>
          start_loop env methods name tried s = (false, s') /\
          active_method s' = None /\ is_listening s' = false
      end.
Proof.
  induction methods as [|m r IH]; intros name tried s Hl Ha.
  - exists s; simpl; auto.
  - simpl.
    pose proof (attempt_caps env m name s) as C; cbv zeta in C.
    pose proof (attempt_success_caps env m name None s s eq_refl) as S.
    fold (arms env s m) in S.
    destruct (attempt env m name s) as [[ok name'] s1]; simpl in *.
    subst ok; destruct C as [Cc [Cl Ca]].
    destruct (arms env s m).
    + eexists; split; [reflexivity|]; split; reflexivity.
    + rewrite (find_arms_caps env s s1 r (eq_sym Cc)).
      apply IH; congruence.
Qed.

Lemma stop_listening_disarms (env : Env) (s : t) :
  is_listening (stop_listening env s) = false /\
  active_method (stop_listening env s) = None /\
  method_priority (stop_listening env s) = method_priority s.
Proof.
  unfold stop_listening; destruct s; cbn; split_ifs; cbn; auto.
Qed.

(** *** What the attributes hold after arming *)

Lemma stop_listening_released (env : Env) (s : t) :
  stops_return env -> hooks_need_library s ->
  released s (stop_listening env s).
Proof.
  unfold stops_return, hooks_need_library, released.
  destruct env as [wv aw uo ah wc ts kn mn ks ms kst mst].
  destruct s as [cc cbk il lt mi am mp ht st ka kh pa pk pm lc kl ml wa].
  cbn [unhook_all_ok key_listener_stop_ok mouse_listener_stop_ok
       keyboard_available keyboard_hooks hotkey_thread].
  intros [-> [-> ->]] H.
  destruct ht, ka, kl, ml; vm_compute; repeat split; auto;
    intros; try discriminate; congruence.
Qed.

Lemma _convert_for_win32_pair (env : Env) (config : HotkeyConfig) :
  _convert_for_win32 env config = (None, None) \/
  exists vk_code modifiers,
    _convert_for_win32 env config = (Some vk_code, Some modifiers).
Proof.
  unfold _convert_for_win32.
  destruct (negb (win32con_ok env)); [now left|].
  destruct (_get_vk_code env (main_key config)) as [vk|]; [|now left].
  destruct (vk =? 0)%Z; [now left|right; eauto].
Qed.

Lemma start_loop_cons (env : Env) (m : HotkeyMethod) (rest : list HotkeyMethod)
      (name : option string) (tried : list Tried) (s : t) :
  start_loop env (m :: rest) name tried s
  = let '(success, name', s1) := attempt env m name s in
    if success then
      (true, set_is_listening true (set_active_method (Some m) s1))
    else
      start_loop env rest name'
        (tried ++ [match name' with
                   | Some n => TriedFailed n
                   | None => TriedError m
                   end]) s1.
Proof. reflexivity. Qed.

Ltac leaf :=
  repeat match goal with
         | |- _ /\ _ => split
         | |- forall _, _ => intro
         | H : Some _ = Some _ |- _ => injection H as <-
         end;
  try discriminate;
  try match goal with m' : HotkeyMethod |- _ => destruct m' end;
  unfold thread_running, listener_on in *; cbn in *;
  try reflexivity; try congruence; auto.

(** The last method of the list, [pynput]. *)
Lemma start_loop_pynput (env : Env) (config : HotkeyConfig)
      (name : option string) (tried : list Tried) (s : t) :
  current_config s = Some config ->
  hooks_need_library s ->
  holds s KEYBOARD_LIB = false -> thread_running s = false ->
  key_listener s = None -> mouse_listener s = None ->
  let r := start_loop env [PYNPUT] name tried s in
  hooks_need_library (snd r) /\
  (forall m, fst r = true -> active_method (snd r) = Some m ->
             installed env config m (snd r) /\
             holds (snd r) m = true /\
             forall m', m' <> m -> holds (snd r) m' = false) /\
  (fst r = false ->
   holds (snd r) KEYBOARD_LIB = false /\
   holds (snd r) WIN32_REGISTER = false /\
   (pynput_half_started env = false -> holds (snd r) PYNPUT = false)).
Proof.
  destruct s as [cc cbk il lt mi am mp ht st ka kh pa pk pm lc kl ml wa].
  unfold hooks_need_library, thread_running, pynput_half_started.
  cbn [current_config keyboard_hooks key_listener mouse_listener hotkey_thread
       holds keyboard_available].
  intros -> HL HK HT -> ->.
  unfold start_loop, attempt, _start_pynput_method.
  cbn [method_eqb andb current_config pynput_available].
  destruct pa; cbn [negb].
  2:{ cbn; leaf. }
  destruct (key_listener_new_ok env); cbn [negb andb].
  2:{ cbn; leaf. }
  destruct (mouse_listener_new_ok env); cbn [negb andb].
  2:{ cbn; leaf. }
  destruct (key_listener_start_ok env); cbn [negb andb].
  2:{ cbn; leaf. }
  destruct (mouse_listener_start_ok env); cbn [negb andb].
  2:{ cbn; leaf. }
  cbn; leaf.
Qed.

(** From the Win32 method on. *)
Lemma start_loop_win32 (env : Env) (config : HotkeyConfig)
      (name : option string) (tried : list Tried) (s : t) :
  current_config s = Some config ->
  hooks_need_library s ->
  holds s KEYBOARD_LIB = false -> hotkey_thread s = None ->
  key_listener s = None -> mouse_listener s = None ->
  let r := start_loop env [WIN32_REGISTER; PYNPUT] name tried s in
  hooks_need_library (snd r) /\
  (forall m, fst r = true -> active_method (snd r) = Some m ->
             installed env config m (snd r) /\
             holds (snd r) m = true /\
             forall m', m' <> m -> holds (snd r) m' = false) /\
  (fst r = false ->
   holds (snd r) KEYBOARD_LIB = false /\
   holds (snd r) WIN32_REGISTER = false /\
   (pynput_half_started env = false -> holds (snd r) PYNPUT = false)).
Proof.
  intros Hc HL HK HT Hk Hm.
  rewrite start_loop_cons; unfold attempt, _start_win32_method.
  cbn [method_eqb andb]; rewrite Hc.
  destruct (windows_api s) eqn:W; cbn [negb].
  2:{ apply start_loop_pynput; auto. unfold thread_running; now rewrite HT. }
  destruct (_convert_for_win32_pair env config) as [Cv|[vk [mo Cv]]];
    rewrite Cv.
  { apply start_loop_pynput; auto. unfold thread_running; now rewrite HT. }
  destruct (thread_start_ok env); cbn [negb].
  - destruct s as [cc cbk il lt mi am mp ht st ka kh pa pk pm lc kl ml wa].
    unfold hooks_need_library in *; cbn in *; subst.
    leaf; eauto.
  - apply start_loop_pynput; auto.
Qed.

(** The whole list, from a manager that holds nothing. *)
Lemma start_loop_holds (env : Env) (config : HotkeyConfig)
      (name : option string) (tried : list Tried) (s : t) :
  unhook_all_ok env = true ->
  current_config s = Some config ->
  hooks_need_library s ->
  keyboard_hooks s = [] -> hotkey_thread s = None ->
  key_listener s = None -> mouse_listener s = None ->
  let r := start_loop env [KEYBOARD_LIB; WIN32_REGISTER; PYNPUT] name tried s in
  hooks_need_library (snd r) /\
  (forall m, fst r = true -> active_method (snd r) = Some m ->
             installed env config m (snd r) /\
             holds (snd r) m = true /\
             forall m', m' <> m -> holds (snd r) m' = false) /\
  (fst r = false ->
   holds (snd r) KEYBOARD_LIB = false /\
   holds (snd r) WIN32_REGISTER = false /\
   (pynput_half_started env = false -> holds (snd r) PYNPUT = false)).
Proof.
  intros U Hc HL HK HT Hk Hm.
  rewrite start_loop_cons; unfold attempt, _start_keyboard_method.
  cbn [method_eqb andb]; rewrite Hc, U.
  destruct (keyboard_available s) eqn:K; cbn [negb].
  2:{ apply start_loop_win32; auto. cbn; now rewrite HK. }
  destruct (add_hotkey_ok env _); cbn [negb].
  - destruct s as [cc cbk il lt mi am mp ht st ka kh pa pk pm lc kl ml wa].
    unfold hooks_need_library in *; cbn in *; subst.
    leaf.
  - apply start_loop_win32; auto. intros _; reflexivity.
Qed.

Lemma set_hotkey_as_loop (env : Env) (s : t) (config : HotkeyConfig)
      (cb : Callable) :
  method_priority s = [KEYBOARD_LIB; WIN32_REGISTER; PYNPUT] ->
  set_hotkey env s config cb
  = start_loop env [KEYBOARD_LIB; WIN32_REGISTER; PYNPUT] None []
      (set_callback (Some cb)
         (set_current_config (Some config) (stop_listening env s))).
Proof.
  intros Hp.
  destruct (stop_listening_disarms env s) as [Dl [_ Dp]].
  unfold set_hotkey, start_listening.
  cbn [current_config set_callback set_current_config is_listening
       method_priority].
  now rewrite Dl, Dp, Hp.
Qed.

(** C5 (as the code has it): [set_hotkey] first runs [stop_listening]:
    the listening flag is cleared and no method is recorded as active;
    then it arms the first method, in the order keyboard library, Win32
    [RegisterHotKey], pynput, that can arm, returning true with that
    method recorded as the active one and the listening flag set; when
    none can arm it returns false with no active method and the
    listening flag cleared.

    When the library calls of [stop_listening] return,
    [stop_listening] has removed the keyboard hooks, stopped and
    dropped both listeners, and dropped the reference to the Win32
    thread with [stop_thread] set (the thread is told to end, no
    more).  A true result then comes with what the active method
    installs (the hook of the converted combo, the started thread with
    key code and mask, or both listeners running) and with nothing
    held of the two other methods; a false result comes with no hook
    and no started thread, and with no running listener unless
    [_start_pynput_method] had started the key listener when
    [mouse_listener.start()] raised. *)
Theorem set_hotkey_arms_first (env : Env) (s : t) (config : HotkeyConfig)
        (cb : Callable) :
  method_priority s = [KEYBOARD_LIB; WIN32_REGISTER; PYNPUT] ->
  let disarmed := stop_listening env s in
  let s0 := set_callback (Some cb) (set_current_config (Some config) disarmed) in
  let r := set_hotkey env s config cb in
  is_listening disarmed = false /\ active_method disarmed = None /\
  (exists s',
      match find (arms env s0) [KEYBOARD_LIB; WIN32_REGISTER; PYNPUT] with
      | Some m =>
          r = (true, s') /\
          active_method s' = Some m /\ is_listening s' = true
      | None =>
          r = (false, s') /\
          active_method s' = None /\ is_listening s' = false
      end) /\
  (fst r = false ->
   active_method (snd r) = None /\ is_listening (snd r) = false) /\
  (stops_return env -> hooks_need_library s ->
   released s disarmed /\
   hooks_need_library (snd r) /\
   (forall m, fst r = true -> active_method (snd r) = Some m ->
              installed env config m (snd r) /\
              holds (snd r) m = true /\
              forall m', m' <> m -> holds (snd r) m' = false) /\
   (fst r = false ->
    holds (snd r) KEYBOARD_LIB = false /\
    holds (snd r) WIN32_REGISTER = false /\
    (pynput_half_started env = false -> holds (snd r) PYNPUT = false))).
Proof.
  intros Hp disarmed s0 r.
  destruct (stop_listening_disarms env s) as [Dl [Da Dp]].
  fold disarmed in Dl, Da, Dp.
  split; [exact Dl|]; split; [exact Da|].
  assert (E : r = start_loop env [KEYBOARD_LIB; WIN32_REGISTER; PYNPUT]
                    None [] s0).
  { apply set_hotkey_as_loop, Hp. }
  destruct (start_loop_first env [KEYBOARD_LIB; WIN32_REGISTER; PYNPUT]
              None [] s0) as [s' H]; [exact Dl|exact Da|].
  rewrite E; split; [exists s'; exact H|]; split.
  - destruct (find _ _); destruct H as [H1 [H2 H3]]; rewrite H1; simpl;
      [discriminate|auto].
  - intros St Hk.
    pose proof (stop_listening_released env s St Hk) as R.
    fold disarmed in R; split; [exact R|].
    destruct R as [_ [_ [R1 [R2 [R3 [R4 _]]]]]].
    apply (start_loop_holds env config None [] s0).
    + exact (proj1 St).
    + reflexivity.
    + intros _; exact R1.
    + exact R1.
    + exact R4.
    + exact R2.
    + exact R3.
Qed.

End HotkeyManagerFacts.

(* ================================================================= *)
(** ** Properties of [core/window_cycler.py] *)

Module WindowCyclerFacts.
Import PyStr Hotkey Platform WindowCycler.

Local Open Scope Z_scope.

(** *** Lists and indices *)

Lemma len_nil_iff {A} (l : list A) : len l = 0 <-> l = [].
Proof. unfold len; destruct l; simpl; split; (discriminate || reflexivity || lia). Qed.

Lemma len_pos {A} (l : list A) : l <> [] -> 0 < len l.
Proof. unfold len; destruct l; simpl; [congruence|lia]. Qed.

Lemma is_nil_true {A} (l : list A) : is_nil l = true <-> l = [].
Proof. destruct l; simpl; split; (discriminate || reflexivity). Qed.

Lemma is_nil_false {A} (l : list A) : is_nil l = false <-> l <> [].
Proof. destruct l; simpl; split; (discriminate || congruence). Qed.

Lemma getitem_in_range {A} (l : list A) (i : Z) :
  0 <= i < len l ->
  exists x, getitem l i = Some x /\ nth_error l (Z.to_nat i) = Some x /\ In x l.
Proof.
  intros H; unfold getitem, len in *.
  destruct (0 <=? i) eqn:E; [|lia].
  destruct (nth_error l (Z.to_nat i)) as [x|] eqn:N.
  - exists x; repeat split; eauto using nth_error_In.
  - apply nth_error_None in N; lia.
Qed.

Lemma pop_rest_len {A} (l : list A) (i : Z) :
  0 <= i < len l -> len (pop_rest l i) = len l - 1.
Proof.
  unfold len, pop_rest; intros H.
  rewrite length_app, length_firstn, length_skipn; lia.
Qed.

Lemma pop_rest_In {A} (l : list A) (i : Z) (x : A) :
  In x (pop_rest l i) -> In x l.
Proof.
  unfold pop_rest; intros H; apply in_app_or in H as [H|H].
  - rewrite <- (firstn_skipn (Z.to_nat i) l); apply in_or_app; now left.
  - rewrite <- (firstn_skipn (S (Z.to_nat i)) l); apply in_or_app; now right.
Qed.

(** *** The stable sort by [order] *)

Lemma insert_by_order_perm (w : GameWindow) (l : list GameWindow) :
  Permutation (insert_by_order w l) (w :: l).
Proof.
  induction l as [|x r IH]; simpl; [reflexivity|].
  destruct (order w <=? order x); [reflexivity|].
  rewrite IH; apply perm_swap.
Qed.

Lemma sorted_by_order_perm (l : list GameWindow) :
  Permutation (sorted_by_order l) l.
Proof.
  induction l as [|w r IH]; simpl; [reflexivity|].
  rewrite insert_by_order_perm; now constructor.
Qed.

Lemma insert_by_order_sorted (w : GameWindow) (l : list GameWindow) :
  StronglySorted order_le l -> StronglySorted order_le (insert_by_order w l).
Proof.
  induction 1 as [|x r Hr IH Hx]; simpl.
  - repeat constructor.
  - destruct (order w <=? order x) eqn:E.
    + apply Z.leb_le in E; constructor; [now constructor|].
      constructor; [exact E|].
      eapply Forall_impl; [|exact Hx]; unfold order_le; simpl; intros; lia.
    + apply Z.leb_gt in E; constructor; [exact IH|].
      rewrite Forall_forall in *; intros y Hy.
      apply (Permutation_in _ (insert_by_order_perm w r)) in Hy as [<-|Hy].
      * unfold order_le; lia.
      * now apply Hx.
Qed.

Lemma sorted_by_order_sorted (l : list GameWindow) :
  StronglySorted order_le (sorted_by_order l).
Proof.
  induction l as [|w r IH]; simpl; [constructor|].
  now apply insert_by_order_sorted.
Qed.

Lemma insert_by_order_stable (k : Z) (w : GameWindow) (l : list GameWindow) :
  with_order k (insert_by_order w l) = with_order k (w :: l).
Proof.
  unfold with_order; induction l as [|x r IH]; simpl; [reflexivity|].
  destruct (order w <=? order x) eqn:E; [reflexivity|].
  apply Z.leb_gt in E; simpl in *; rewrite IH.
  destruct (order x =? k) eqn:X, (order w =? k) eqn:W; try reflexivity.
  apply Z.eqb_eq in X, W; lia.
Qed.

Lemma sorted_by_order_stable (k : Z) (l : list GameWindow) :
  with_order k (sorted_by_order l) = with_order k l.
Proof.
  induction l as [|w r IH]; simpl; [reflexivity|].
  rewrite insert_by_order_stable; unfold with_order in *; simpl; now rewrite IH.
Qed.

(** *** [set_windows] *)

(** C2: [set_windows] keeps the windows whose handle is valid.  When
    none is left (so also for the empty list) it returns false and the
    cycler is unchanged.  Otherwise it returns true, and what is
    stored is those windows, ascending by [order] with windows of
    equal [order] in their given sequence, the cursor is 0 and nothing
    else changes. *)
Theorem set_windows_spec (env : Env) (s : t) (ws : list GameWindow) :
  let valid_windows := filter (is_valid_handle env) ws in
  (set_windows env s [] = (false, s)) /\
  (valid_windows = [] -> set_windows env s ws = (false, s)) /\
  (valid_windows <> [] ->
   exists s',
     set_windows env s ws = (true, s') /\
     Permutation (windows s') valid_windows /\
     StronglySorted order_le (windows s') /\
     (forall k, with_order k (windows s') = with_order k valid_windows) /\
     windows s' = sorted_by_order valid_windows /\
     current_index s' = 0 /\
     hotkey_manager s' = hotkey_manager s /\
     total_cycles s' = total_cycles s /\
     successful_activations s' = successful_activations s /\
     failed_activations s' = failed_activations s /\
     events s' = events s).
Proof.
  intros valid_windows; split; [reflexivity|]; split.
  - intros E; unfold set_windows; fold valid_windows; rewrite E.
    destruct (is_nil ws); reflexivity.
  - intros N; unfold set_windows; fold valid_windows.
    assert (Hws : is_nil ws = false).
    { destruct ws; [now contradiction N|reflexivity]. }
    apply is_nil_false in N; rewrite Hws, N.
    eexists; split; [reflexivity|]; cbn.
    repeat split;
      auto using sorted_by_order_perm, sorted_by_order_sorted.
    intros k; apply sorted_by_order_stable.
Qed.

(** *** [cycle_next] on an empty list *)

(** C8 (as the code has it): with no window stored, [cycle_next]
    returns normally and leaves the cycler exactly as it was: no
    exception reaches the caller, no counter moves and no observer is
    called (the only trace is a line on the console). *)
Theorem cycle_next_empty_returns (env : Env) (s : t) :
  windows s = [] -> cycle_next env s = Returned s.
Proof. intros H; unfold cycle_next; now rewrite H. Qed.

(** *** Removing a window *)

(** The cursor rule of [_remove_invalid_window], on the shortened list. *)
Lemma _remove_invalid_window_eq (s : t) (i : Z) :
  0 <= i < len (windows s) ->
  exists w,
    nth_error (windows s) (Z.to_nat i) = Some w /\
    _remove_invalid_window s i =
    notify (WindowRemoved w)
      (let s1 := set_windows_field (pop_rest (windows s) i) s in
       if (current_index s1 >=? len (windows s1)) && negb (is_nil (windows s1))
       then set_current_index 0 s1 else s1).
Proof.
  intros H; destruct (getitem_in_range _ _ H) as [w [_ [N _]]].
  exists w; split; [exact N|].
  unfold _remove_invalid_window; rewrite N.
  replace ((0 <=? i) && (i <? len (windows s))) with true; [reflexivity|].
  symmetry; apply andb_true_iff; split; [apply Z.leb_le|apply Z.ltb_lt]; lia.
Qed.

Lemma _remove_invalid_window_fields (s : t) (i : Z) :
  0 <= i < len (windows s) ->
  let s' := _remove_invalid_window s i in
  windows s' = pop_rest (windows s) i /\
  len (windows s') = len (windows s) - 1 /\
  (exists w, nth_error (windows s) (Z.to_nat i) = Some w /\
             events s' = events s ++ [WindowRemoved w]) /\
  hotkey_manager s' = hotkey_manager s /\
  windows_api s' = windows_api s /\
  total_cycles s' = total_cycles s /\
  successful_activations s' = successful_activations s /\
  failed_activations s' = failed_activations s.
Proof.
  intros H s'; destruct (_remove_invalid_window_eq s i H) as [w [N E]].
  unfold s'; rewrite E; cbn.
  assert (W : forall b : bool,
             windows (if b then set_current_index 0
                                 (set_windows_field (pop_rest (windows s) i) s)
                      else set_windows_field (pop_rest (windows s) i) s)
             = pop_rest (windows s) i) by (intros []; reflexivity).
  rewrite W, (pop_rest_len _ _ H).
  repeat split; try (destruct (_ && _); reflexivity).
  exists w; split; [exact N|destruct (_ && _); reflexivity].
Qed.

(** After a removal that leaves a window, the cursor is in range: a
    cursor at or past the new end is reset to 0, any other stays. *)
Lemma _remove_invalid_window_cursor (s : t) (i : Z) :
  0 <= i < len (windows s) ->
  0 <= current_index s ->
  let s' := _remove_invalid_window s i in
  windows s' <> [] ->
  (len (windows s') <= current_index s -> current_index s' = 0) /\
  (current_index s < len (windows s') -> current_index s' = current_index s) /\
  0 <= current_index s' < len (windows s').
Proof.
  intros H C s' NE.
  destruct (_remove_invalid_window_fields s i H) as [W [L _]]; fold s' in W, L.
  destruct (_remove_invalid_window_eq s i H) as [w [_ E]]; fold s' in E.
  assert (X : current_index s' =
              if (current_index s >=? len (pop_rest (windows s) i))
                 && negb (is_nil (pop_rest (windows s) i))
              then 0 else current_index s).
  { rewrite E; cbn; destruct (_ && _); reflexivity. }
  rewrite <- W in X.
  apply is_nil_false in NE; rewrite NE, andb_true_r, Z.geb_leb in X.
  apply is_nil_false, len_pos in NE.
  destruct (len (windows s') <=? current_index s) eqn:G;
    [apply Z.leb_le in G|apply Z.leb_gt in G]; rewrite X; lia.
Qed.

(** *** The loop of [cycle_next] ends and keeps the cursor in range *)

Lemma stop_cycling_windows (env : Env) (s : t) :
  windows (stop_cycling env s) = windows s /\
  current_index (stop_cycling env s) = current_index s.
Proof. split; reflexivity. Qed.

Lemma py_mod_next (c n : Z) :
  0 < n -> py_mod (c + 1) n = Some ((c + 1) mod n).
Proof.
  intros H; unfold py_mod.
  destruct (n =? 0) eqn:E; [apply Z.eqb_eq in E; lia|reflexivity].
Qed.

Lemma cycle_loop_in_range (env : Env) :
  forall (fuel : nat) (m a : Z) (s : t),
    0 <= current_index s < len (windows s) ->
    (Z.to_nat (m - a) + List.length (windows s) < fuel)%nat ->
    exists s', cycle_loop env fuel m a s = Returned s' /\ cursor_in_range s'.
Proof.
  induction fuel as [|fuel IH]; intros m a s C F; [lia|].
  cbn [cycle_loop].
  destruct (a <? m) eqn:A; cbn [negb].
  2:{ exists s; split; [reflexivity|intros _; exact C]. }
  apply Z.ltb_lt in A.
  replace (current_index s >=? len (windows s)) with false
    by (symmetry; rewrite Z.geb_leb; apply Z.leb_gt; lia).
  destruct (getitem_in_range _ _ C) as [w [G _]].
  rewrite G; cbn [or_raise bind].
  destruct (is_valid_handle env w); cbn [negb].
  - assert (P : 0 < len (windows s)) by lia.
    destruct (_activate_window env s w).
    + cbn [windows set_successful_activations current_index].
      rewrite (py_mod_next _ _ P); cbn [or_raise bind].
      eexists; split; [reflexivity|].
      intros _; cbn; apply Z.mod_pos_bound; exact P.
    + cbn [windows set_failed_activations current_index].
      rewrite (py_mod_next _ _ P); cbn [or_raise bind].
      apply IH; cbn.
      * apply Z.mod_pos_bound; exact P.
      * lia.
  - assert (C' : 0 <= current_index s < len (windows s)) by exact C.
    pose proof (_remove_invalid_window_fields s _ C') as [_ [L _]].
    pose proof (_remove_invalid_window_cursor s _ C' (proj1 C)) as R.
    cbv zeta in L, R.
    destruct (is_nil (windows (_remove_invalid_window s (current_index s))))
      eqn:N.
    + eexists; split; [reflexivity|].
      apply is_nil_true in N; intros X; now rewrite (proj1 (stop_cycling_windows _ _)) in X.
    + apply is_nil_false in N; apply IH; [apply R, N|].
      unfold len in L; lia.
Qed.

(** *** Every public operation returns and keeps the cursor in range *)

Lemma cursor_zero_in_range (s : t) : current_index s = 0 -> cursor_in_range s.
Proof. intros E N; rewrite E; pose proof (len_pos _ N); lia. Qed.

Lemma cycle_next_in_range (env : Env) (s : t) :
  cursor_in_range s ->
  exists s', cycle_next env s = Returned s' /\ cursor_in_range s'.
Proof.
  intros C; unfold cycle_next.
  destruct (is_nil (windows s)) eqn:N.
  - exists s; split; [reflexivity|exact C].
  - apply is_nil_false in N; apply cycle_loop_in_range.
    + exact (C N).
    + cbn; unfold cycle_fuel, len; lia.
Qed.

Lemma cycle_to_specific_in_range (env : Env) (s : t) (i : Z) :
  cursor_in_range s ->
  exists r, cycle_to_specific env s i = Returned r /\ cursor_in_range (snd r).
Proof.
  intros C; unfold cycle_to_specific.
  destruct (is_nil (windows s)) eqn:N; cbn [orb].
  { eexists; split; [reflexivity|exact C]. }
  destruct (i <? 0) eqn:I0; cbn [orb].
  { eexists; split; [reflexivity|exact C]. }
  destruct (i >=? len (windows s)) eqn:I1.
  { eexists; split; [reflexivity|exact C]. }
  apply is_nil_false in N; apply Z.ltb_ge in I0.
  rewrite Z.geb_leb in I1; apply Z.leb_gt in I1.
  assert (R : 0 <= i < len (windows s)) by lia.
  destruct (getitem_in_range _ _ R) as [w [G _]].
  rewrite G; cbn [or_raise bind].
  destruct (is_valid_handle env w); cbn [negb].
  - destruct (_activate_window env s w).
    + eexists; split; [reflexivity|]; intros _; exact R.
    + eexists; split; [reflexivity|exact C].
  - eexists; split; [reflexivity|]; cbn [snd]; intros X.
    apply (_remove_invalid_window_cursor s i R); [apply (C N)|exact X].
Qed.

Lemma range_down_S (k : nat) : range_down (S k) = Z.of_nat k :: range_down k.
Proof.
  unfold range_down; rewrite seq_S, map_app, rev_app_distr; reflexivity.
Qed.

Lemma refresh_loop_in_range (env : Env) :
  forall (k : nat) (s : t),
    (k <= List.length (windows s))%nat ->
    cursor_in_range s ->
    exists s', refresh_loop env (range_down k) s = Returned s' /\
               cursor_in_range s'.
Proof.
  induction k as [|k IH]; intros s K C.
  - exists s; split; [reflexivity|exact C].
  - rewrite range_down_S; cbn [refresh_loop].
    assert (R : 0 <= Z.of_nat k < len (windows s)) by (unfold len; lia).
    destruct (getitem_in_range _ _ R) as [w [G _]].
    rewrite G; cbn [or_raise bind].
    destruct (is_valid_handle env w); cbn [negb].
    + apply IH; [lia|exact C].
    + pose proof (_remove_invalid_window_fields s _ R) as [_ [L _]].
      cbv zeta in L; apply IH; [unfold len in L; lia|].
      intros X; apply (_remove_invalid_window_cursor s _ R); [|exact X].
      apply C; intros E; rewrite E in R; cbn in R; lia.
Qed.

Lemma refresh_window_validity_in_range (env : Env) (s : t) :
  cursor_in_range s ->
  exists s', refresh_window_validity env s = Returned s' /\ cursor_in_range s'.
Proof. intros C; apply refresh_loop_in_range; [lia|exact C]. Qed.

Lemma set_windows_in_range (env : Env) (s : t) (ws : list GameWindow) :
  cursor_in_range s -> cursor_in_range (snd (set_windows env s ws)).
Proof.
  intros C; unfold set_windows.
  destruct (is_nil ws); [exact C|].
  destruct (is_nil (filter _ ws)); [exact C|].
  now apply cursor_zero_in_range.
Qed.

Lemma reorder_windows_in_range (s : t) (new_order : list Z) :
  cursor_in_range s -> cursor_in_range (snd (reorder_windows s new_order)).
Proof.
  intros C; unfold reorder_windows.
  destruct (negb _); [exact C|].
  destruct (reorder_loop _ _); [|exact C].
  now apply cursor_zero_in_range.
Qed.

Lemma step_in_range (env : Env) (s : t) (op : Op) :
  cursor_in_range s ->
  exists s', step env s op = Returned s' /\ cursor_in_range s'.
Proof.
  intros C; destruct op as [ws| |i|name| |o|]; cbn [step].
  - eexists; split; [reflexivity|now apply set_windows_in_range].
  - now apply cycle_next_in_range.
  - destruct (cycle_to_specific_in_range env s i C) as [r [E R]].
    rewrite E; eexists; split; [reflexivity|exact R].
  - unfold cycle_to_character; destruct (find_character _ _ _) as [i|].
    + destruct (cycle_to_specific_in_range env s i C) as [r [E R]].
      rewrite E; eexists; split; [reflexivity|exact R].
    + eexists; split; [reflexivity|exact C].
  - now apply refresh_window_validity_in_range.
  - eexists; split; [reflexivity|now apply reorder_windows_in_range].
  - eexists; split; [reflexivity|exact C].
Qed.

Lemma init_in_range (k p a : bool) : cursor_in_range (init k p a).
Proof. intros N; now contradiction N. Qed.

(** C9: from a cycler whose cursor is in range (as the new cycler's
    is), every run of public operations, each under any answers of
    the platform, returns without raising and ends with
    [0 <= current_index < len(windows)] whenever the list is not
    empty.  In particular a removal that leaves a window resets a
    cursor at or past the new end to 0 and leaves the cursor in
    range. *)
Theorem cursor_invariant (s : t) (ops : list (Env * Op)) :
  cursor_in_range s ->
  (exists s', run s ops = Returned s' /\ cursor_in_range s') /\
  (forall (env : Env) (op : Op),
      exists s', step env s op = Returned s' /\ cursor_in_range s') /\
  (forall i : Z,
      0 <= i < len (windows s) ->
      let s' := _remove_invalid_window s i in
      len (windows s') = len (windows s) - 1 /\
      (windows s' <> [] ->
       (len (windows s') <= current_index s -> current_index s' = 0) /\
       0 <= current_index s' < len (windows s'))).
Proof.
  intros C; split; [|split].
  - revert s C; induction ops as [|[env op] rest IH]; intros s C.
    + exists s; split; [reflexivity|exact C].
    + cbn [run]; destruct (step_in_range env s op C) as [s1 [E C1]].
      rewrite E; cbn [bind]; now apply IH.
  - intros env op; now apply step_in_range.
  - intros i R s'.
    pose proof (_remove_invalid_window_fields s i R) as [_ [L _]].
    split; [exact L|]; intros N.
    assert (P : 0 <= current_index s).
    { apply C; intros E; rewrite E in R; cbn in R; lia. }
    destruct (_remove_invalid_window_cursor s i R P N) as [A [_ B]].
    split; assumption.
Qed.

(** *** A trigger on which every activation fails *)

Lemma cycle_loop_all_fail (env : Env) :
  forall (k fuel : nat) (m a : Z) (s : t),
    windows s <> [] ->
    0 <= current_index s ->
    (forall w, In w (windows s) -> is_valid_handle env w = true) ->
    (forall w, In w (windows s) -> _activate_window env s w = false) ->
    m - a = Z.of_nat k ->
    (k < fuel)%nat ->
    exists s',
      cycle_loop env fuel m a s = Returned s' /\
      windows s' = windows s /\
      failed_activations s' = failed_activations s + Z.of_nat k /\
      total_cycles s' = total_cycles s /\
      successful_activations s' = successful_activations s /\
      events s' = events s /\
      hotkey_manager s' = hotkey_manager s.
Proof.
  induction k as [|k IH]; intros fuel m a s N C V F M K;
    (destruct fuel as [|fuel]; [lia|]); cbn [cycle_loop].
  - replace (a <? m) with false by (symmetry; apply Z.ltb_ge; lia).
    exists s; cbn; repeat split; lia.
  - replace (a <? m) with true by (symmetry; apply Z.ltb_lt; lia).
    cbn [negb].
    pose proof (len_pos _ N) as P.
    set (s1 := if current_index s >=? len (windows s)
               then set_current_index 0 s else s).
    assert (W1 : windows s1 = windows s)
      by (unfold s1; destruct (_ >=? _); reflexivity).
    assert (A1 : forall w, _activate_window env s1 w = _activate_window env s w)
      by (intros w; unfold s1; destruct (_ >=? _); reflexivity).
    assert (O1 : failed_activations s1 = failed_activations s /\
                 total_cycles s1 = total_cycles s /\
                 successful_activations s1 = successful_activations s /\
                 events s1 = events s /\
                 hotkey_manager s1 = hotkey_manager s)
      by (unfold s1; destruct (_ >=? _); repeat split; reflexivity).
    assert (C1 : 0 <= current_index s1 < len (windows s1)).
    { rewrite W1; unfold s1; rewrite Z.geb_leb.
      destruct (len (windows s) <=? current_index s) eqn:G;
        [cbn; lia|apply Z.leb_gt in G; lia]. }
    destruct (getitem_in_range _ _ C1) as [w [G [_ I]]].
    rewrite G; cbn [or_raise bind].
    rewrite W1 in I; rewrite (V w I), A1, (F w I); cbn [negb].
    cbn [windows set_failed_activations current_index].
    rewrite W1, (py_mod_next _ _ P); cbn [or_raise bind].
    destruct O1 as [O1 [O2 [O3 [O4 O5]]]].
    edestruct (IH fuel m (a + 1)) as [s' [E [Hw [Hf [Ht [Hs [He Hh]]]]]]];
      [| | | | |lia|exists s'; split; [exact E|]].
    + cbn; rewrite W1; exact N.
    + cbn; apply Z.mod_pos_bound; exact P.
    + cbn; rewrite W1; exact V.
    + cbn [windows set_current_index set_failed_activations]; rewrite W1.
      intros w' I'; rewrite <- (F w' I'), <- A1; reflexivity.
    + lia.
    + cbn in Hw, Hf, Ht, Hs, He, Hh.
      rewrite Hw, Hf, Ht, Hs, He, Hh, W1, O1, O2, O3, O4, O5.
      repeat split; lia.
Qed.

(** C3: on a non-empty list of [N] windows, all valid, on which every
    activation attempt fails, one [cycle_next] returns (it raises
    nothing), adds exactly 1 to [total_cycles] and exactly [N] to
    [failed_activations], and activates no window: no observer is
    called, [successful_activations] and the list are unchanged. *)
Theorem cycle_next_all_fail (env : Env) (s : t) :
  windows s <> [] ->
  0 <= current_index s ->
  (forall w, In w (windows s) -> is_valid_handle env w = true) ->
  (forall w, In w (windows s) -> _activate_window env s w = false) ->
  exists s',
    cycle_next env s = Returned s' /\
    total_cycles s' = total_cycles s + 1 /\
    failed_activations s' = failed_activations s + len (windows s) /\
    successful_activations s' = successful_activations s /\
    events s' = events s /\
    windows s' = windows s.
Proof.
  intros N C V F; unfold cycle_next.
  apply is_nil_false in N; rewrite N; apply is_nil_false in N.
  edestruct (cycle_loop_all_fail env (List.length (windows s))
               (cycle_fuel (List.length (windows s)))
               (len (windows s)) 0
               (set_total_cycles (total_cycles s + 1) s))
    as [s' [E [Hw [Hf [Ht [Hs [He _]]]]]]]; try assumption.
  - unfold len; cbn; lia.
  - unfold cycle_fuel; lia.
  - exists s'; split; [exact E|]; cbn in *.
    unfold len; repeat split; assumption.
Qed.

(** *** A trigger whose first candidate can be activated *)

Lemma cycle_loop_activates (env : Env) (fuel : nat) (m a : Z) (s : t)
      (w : GameWindow) :
  a < m ->
  0 <= current_index s < len (windows s) ->
  getitem (windows s) (current_index s) = Some w ->
  is_valid_handle env w = true ->
  _activate_window env s w = true ->
  cycle_loop env (S fuel) m a s =
  Returned
    (notify (WindowActivated w)
       (set_current_index ((current_index s + 1) mod len (windows s))
          (set_successful_activations (successful_activations s + 1) s))).
Proof.
  intros M C G V A; cbn [cycle_loop].
  replace (a <? m) with true by (symmetry; apply Z.ltb_lt; lia).
  replace (current_index s >=? len (windows s)) with false
    by (symmetry; rewrite Z.geb_leb; apply Z.leb_gt; lia).
  cbn [negb]; rewrite G; cbn [or_raise bind]; rewrite V, A; cbn [negb].
  change (py_mod _ _) with (py_mod (current_index s + 1) (len (windows s))).
  rewrite py_mod_next by lia; reflexivity.
Qed.

(** With the cursor on a valid window that can be activated,
    [cycle_next] activates that window, touches no other entry and
    leaves the cursor one past it. *)
Lemma cycle_next_activates_cursor (env : Env) (s : t) (w : GameWindow) :
  0 <= current_index s < len (windows s) ->
  getitem (windows s) (current_index s) = Some w ->
  is_valid_handle env w = true ->
  _activate_window env s w = true ->
  cycle_next env s =
  Returned
    (notify (WindowActivated w)
       (set_current_index ((current_index s + 1) mod len (windows s))
          (set_successful_activations (successful_activations s + 1)
             (set_total_cycles (total_cycles s + 1) s)))).
Proof.
  intros C G V A; unfold cycle_next.
  assert (N : windows s <> []).
  { intros E; rewrite E in C; cbn in C; lia. }
  apply is_nil_false in N; rewrite N; unfold cycle_fuel.
  assert (P : 0 < len (windows s)) by lia.
  exact (cycle_loop_activates env _ _ 0
           (set_total_cycles (total_cycles s + 1) s) w P C G V A).
Qed.

(** With the cursor on a window that is no longer valid, and another
    window left, the loop removes it and goes on without counting an
    attempt. *)
Lemma cycle_loop_removes (env : Env) (fuel : nat) (m a : Z) (s : t)
      (w : GameWindow) :
  a < m ->
  0 <= current_index s < len (windows s) ->
  getitem (windows s) (current_index s) = Some w ->
  is_valid_handle env w = false ->
  windows (_remove_invalid_window s (current_index s)) <> [] ->
  cycle_loop env (S fuel) m a s =
  cycle_loop env fuel m a (_remove_invalid_window s (current_index s)).
Proof.
  intros M C G V N; cbn [cycle_loop].
  replace (a <? m) with true by (symmetry; apply Z.ltb_lt; lia).
  replace (current_index s >=? len (windows s)) with false
    by (symmetry; rewrite Z.geb_leb; apply Z.leb_gt; lia).
  cbn [negb]; rewrite G; cbn [or_raise bind]; rewrite V; cbn [negb].
  apply is_nil_false in N; now rewrite N.
Qed.

Lemma cycle_next_unfold (env : Env) (s : t) :
  windows s <> [] ->
  cycle_next env s =
  cycle_loop env (cycle_fuel (List.length (windows s))) (len (windows s)) 0
             (set_total_cycles (total_cycles s + 1) s).
Proof. intros N; unfold cycle_next; apply is_nil_false in N; now rewrite N. Qed.

(** C10: when [cycle_to_specific(i)] returns true the cursor is [i]
    itself and the window at [i] was activated; the next [cycle_next],
    the window being still valid and activation still granted (as
    under the same platform answers), activates this same window
    again and only then leaves the cursor one past it, at
    [(i + 1) % len(windows)]. *)
Theorem jump_then_next_reactivates (env : Env) (s s1 : t) (i : Z) :
  cycle_to_specific env s i = Returned (true, s1) ->
  exists w,
    0 <= i < len (windows s) /\
    getitem (windows s) i = Some w /\
    current_index s1 = i /\
    windows s1 = windows s /\
    events s1 = events s ++ [WindowActivated w] /\
    (forall env',
        is_valid_handle env' w = true ->
        activate_window env' (hwnd w) = true ->
        exists s2,
          cycle_next env' s1 = Returned s2 /\
          events s2 = events s1 ++ [WindowActivated w] /\
          current_index s2 = (i + 1) mod len (windows s1)) /\
    (exists s2,
        cycle_next env s1 = Returned s2 /\
        events s2 = events s1 ++ [WindowActivated w] /\
        current_index s2 = (i + 1) mod len (windows s1)).
Proof.
  unfold cycle_to_specific.
  destruct (is_nil (windows s)) eqn:N; cbn [orb]; [discriminate|].
  destruct (i <? 0) eqn:I0; cbn [orb]; [discriminate|].
  destruct (i >=? len (windows s)) eqn:I1; [discriminate|].
  apply Z.ltb_ge in I0; rewrite Z.geb_leb in I1; apply Z.leb_gt in I1.
  assert (R : 0 <= i < len (windows s)) by lia.
  destruct (getitem_in_range _ _ R) as [w [G _]].
  rewrite G; cbn [or_raise bind].
  destruct (is_valid_handle env w) eqn:V; cbn [negb]; [|discriminate].
  destruct (_activate_window env s w) eqn:A; [|discriminate].
  intros E; injection E as <-.
  exists w; cbn [current_index windows events notify set_current_index].
  repeat split; try assumption; try lia.
  - intros env' V' A'.
    eexists; split; [apply (cycle_next_activates_cursor env' _ w)|];
      cbn; try assumption; try (split; reflexivity).
    unfold _activate_window in *; cbn.
    destruct (windows_api s); [exact A'|discriminate A].
  - eexists; split; [apply (cycle_next_activates_cursor env _ w)|];
      cbn; try assumption; try (split; reflexivity).
Qed.

(** *** Lazy pruning *)



End WindowCyclerFacts.

(* ================================================================= *)
(** ** The properties on concrete cyclers and managers *)

Module Instances.
Import PyStr Hotkey Platform Examples.
Import HotkeyManagerFacts WindowCyclerFacts.

Local Open Scope Z_scope.



(** [set_windows] on a list with a live window, and on a dead one. *)
Lemma set_windows_spec_witness :
  filter (WindowCycler.is_valid_handle B_gone) [C; A; B] <> [] /\
  filter (WindowCycler.is_valid_handle B_gone) [B] = [] /\
  (exists s',
      WindowCycler.set_windows B_gone cycler_AB [C; A; B] = (true, s') /\
      WindowCycler.windows s' = [A; C] /\
      WindowCycler.current_index s' = 0) /\
  WindowCycler.set_windows B_gone cycler_AB [B] = (false, cycler_AB).
Proof.
  split; [discriminate|]; split; [reflexivity|]; split.
  - destruct (proj2 (proj2 (set_windows_spec B_gone cycler_AB [C; A; B])))
      as [s' [E [_ [_ [_ [W [I _]]]]]]]; [discriminate|].
    exists s'; split; [exact E|]; split; [exact W|exact I].
  - apply (proj1 (proj2 (set_windows_spec B_gone cycler_AB [B]))).
    reflexivity.
Defined.

(** A trigger on A, B, C with every foreground request refused. *)
Lemma cycle_next_all_fail_witness :
  exists s',
    WindowCycler.cycle_next focus_denied cycler_ABC = WindowCycler.Returned s' /\
    WindowCycler.total_cycles s' = 1 /\
    WindowCycler.failed_activations s' = 3 /\
    WindowCycler.successful_activations s' = 0 /\
    WindowCycler.events s' = [] /\
    WindowCycler.windows s' = [A; B; C].
Proof.
  apply (cycle_next_all_fail focus_denied cycler_ABC).
  - discriminate.
  - apply Z.le_refl.
  - intros w _; reflexivity.
  - intros w _; reflexivity.
Defined.



(** Binding Ctrl+Mouse 5 on a manager whose [pynput] listeners run
    for Ctrl+Tab, where only [pynput] can arm. *)
Lemma set_hotkey_arms_first_witness :
  HotkeyManager.method_priority manager_pynput
  = [HotkeyManager.KEYBOARD_LIB; HotkeyManager.WIN32_REGISTER;
     HotkeyManager.PYNPUT] /\
  HotkeyManager.stops_return only_pynput /\
  HotkeyManager.hooks_need_library manager_pynput /\
  HotkeyManager.holds manager_pynput HotkeyManager.PYNPUT = true /\
  HotkeyManager.released manager_pynput
    (HotkeyManager.stop_listening only_pynput manager_pynput) /\
  (exists s',
      HotkeyManager.set_hotkey only_pynput manager_pynput ctrl_mouse5
        "cycle_next" = (true, s') /\
      HotkeyManager.active_method s' = Some HotkeyManager.PYNPUT /\
      HotkeyManager.is_listening s' = true) /\
  HotkeyManager.installed only_pynput ctrl_mouse5 HotkeyManager.PYNPUT
    (snd (HotkeyManager.set_hotkey only_pynput manager_pynput ctrl_mouse5
            "cycle_next")) /\
  HotkeyManager.holds
    (snd (HotkeyManager.set_hotkey only_pynput manager_pynput ctrl_mouse5
            "cycle_next")) HotkeyManager.KEYBOARD_LIB = false /\
  HotkeyManager.holds
    (snd (HotkeyManager.set_hotkey only_pynput manager_pynput ctrl_mouse5
            "cycle_next")) HotkeyManager.WIN32_REGISTER = false.
Proof.
  assert (St : HotkeyManager.stops_return only_pynput).
  { split; [reflexivity|]; split; reflexivity. }
  assert (Hk : HotkeyManager.hooks_need_library manager_pynput).
  { intros _; reflexivity. }
  destruct (set_hotkey_arms_first only_pynput manager_pynput ctrl_mouse5
              "cycle_next" eq_refl) as [_ [_ [Ex [_ D]]]].
  destruct (D St Hk) as [R [_ [I _]]].
  destruct (I HotkeyManager.PYNPUT eq_refl eq_refl) as [I1 [_ I3]].
  split; [reflexivity|]; split; [exact St|]; split; [exact Hk|].
  split; [reflexivity|]; split; [exact R|]; split; [exact Ex|].
  split; [exact I1|]; split; apply I3; discriminate.
Defined.

(** Two bindings that return false with a [pynput] listener running.
    Where only [pynput] is left to try and [mouse_listener.start()]
    raises, the key listener was started before and stays.  Where
    [key_listener.stop()] raises and no method can arm, the key
    listener of the binding before stays. *)
Lemma set_hotkey_false_with_listener_running :
  (exists s',
      HotkeyManager.set_hotkey mouse_start_raises fresh_manager ctrl_tab
        "cycle_next" = (false, s') /\
      HotkeyManager.is_listening s' = false /\
      HotkeyManager.active_method s' = None /\
      HotkeyManager.key_listener s' = Some (HotkeyManager.mkListener true) /\
      HotkeyManager.holds s' HotkeyManager.PYNPUT = true) /\
  HotkeyManager.holds manager_pynput HotkeyManager.PYNPUT = true /\
  (exists s',
      HotkeyManager.set_hotkey key_stop_raises manager_pynput ctrl_tab
        "cycle_next" = (false, s') /\
      HotkeyManager.key_listener s' = Some (HotkeyManager.mkListener true) /\
      HotkeyManager.holds s' HotkeyManager.PYNPUT = true).
Proof.
  split; [|split; [vm_compute; reflexivity|]].
  - exists (snd (HotkeyManager.set_hotkey mouse_start_raises fresh_manager
                   ctrl_tab "cycle_next")).
    split; [vm_compute; reflexivity|]; split; [vm_compute; reflexivity|].
    split; [vm_compute; reflexivity|]; split; vm_compute; reflexivity.
  - exists (snd (HotkeyManager.set_hotkey key_stop_raises manager_pynput
                   ctrl_tab "cycle_next")).
    split; [vm_compute; reflexivity|]; split; vm_compute; reflexivity.
Qed.

(** Ctrl+Mouse 5 cannot be registered with Win32. *)
Lemma win32_rejects_pointer_buttons_witness :
  HotkeyManager.current_config manager_mouse5 = Some ctrl_mouse5 /\
  is_pointer_button (main_key ctrl_mouse5) = true /\
  HotkeyManager._get_vk_code all_alive (main_key ctrl_mouse5) = None /\
  fst (HotkeyManager._convert_for_win32 all_alive ctrl_mouse5) = None /\
  HotkeyManager._start_win32_method all_alive manager_mouse5
  = (false, manager_mouse5).
Proof.
  split; [reflexivity|]; split; [reflexivity|].
  apply (win32_rejects_pointer_buttons all_alive manager_mouse5 ctrl_mouse5);
    reflexivity.
Defined.

(** A trigger on the new cycler. *)
Lemma cycle_next_empty_returns_witness :
  WindowCycler.windows fresh = [] /\
  WindowCycler.cycle_next all_alive fresh = WindowCycler.Returned fresh.
Proof.
  split; [reflexivity|].
  apply (cycle_next_empty_returns all_alive fresh); reflexivity.
Defined.

(** A trigger before any [set_windows]: nothing is raised, the call
    returns and the cycler is the new cycler still. *)
Lemma cycle_next_before_set_windows_is_silent :
  WindowCycler.windows fresh = [] /\
  WindowCycler.cycle_next all_alive fresh = WindowCycler.Returned fresh /\
  forall e, WindowCycler.cycle_next all_alive fresh <> WindowCycler.Raised e.
Proof.
  split; [reflexivity|]; split; [reflexivity|]; intros e; discriminate.
Qed.

(** The session, from the new cycler. *)
Lemma cursor_invariant_witness :
  WindowCycler.cursor_in_range fresh /\
  exists s',
    WindowCycler.run fresh session = WindowCycler.Returned s' /\
    WindowCycler.cursor_in_range s'.
Proof.
  split; [apply init_in_range|].
  exact (proj1 (cursor_invariant fresh session (init_in_range true true true))).
Defined.

(** A jump to B, then a trigger. *)
Lemma jump_then_next_reactivates_witness :
  WindowCycler.cycle_to_specific all_alive cycler_ABC 1
  = WindowCycler.Returned (true, cycler_jumped) /\
  WindowCycler.current_index cycler_jumped = 1 /\
  exists s2,
    WindowCycler.cycle_next all_alive cycler_jumped = WindowCycler.Returned s2 /\
    WindowCycler.events s2
    = WindowCycler.events cycler_jumped ++ [WindowCycler.WindowActivated B] /\
    WindowCycler.current_index s2 = 2.
Proof.
  split; [reflexivity|]; split; [reflexivity|].
  destruct (jump_then_next_reactivates all_alive cycler_ABC cycler_jumped 1
              eq_refl) as [w [_ [G [_ [_ [_ [_ N]]]]]]].
  injection G as <-; exact N.
Defined.

End Instances.

(* ================================================================= *)
(** ** More properties of [core/hotkey_manager.py] *)

Module HotkeyManagerMore.
Import PyStr PyStrFacts Hotkey HotkeyErrors Platform HotkeyManager Pynput.
Import HotkeyManagerFacts.

Local Open Scope Z_scope.

(** *** Virtual key codes *)

Lemma some_eq {A} (a b : A) : Some a = Some b -> a = b.
Proof. congruence. Qed.

Lemma ord_upper_letter (key : string) :
  String.length key = 1%nat -> isalpha key = true ->
  65 <= ord (upper key) <= 90.
Proof.
  destruct key as [|c [|d r]]; try discriminate; intros _.
  destruct c as [[] [] [] [] [] [] [] []]; vm_compute;
    solve [discriminate | intros _; split; discriminate].
Qed.

Lemma ord_digit (key : string) :
  String.length key = 1%nat -> isdigit key = true -> 48 <= ord key <= 57.
Proof.
  destruct key as [|c [|d r]]; try discriminate; intros _.
  destruct c as [[] [] [] [] [] [] [] []]; vm_compute;
    solve [discriminate | intros _; split; discriminate].
Qed.

Lemma dict_get_special_vk (key : string) (vk : Z) :
  dict_get key special_vk_map = Some vk -> 8 <= vk <= 46.
Proof.
  unfold special_vk_map; cbn [dict_get].
  repeat (destruct (String.eqb key _);
          [intros E; injection E as <-; vm_compute; split; discriminate|]).
  discriminate.
Qed.

(** X1: For a key of ASCII characters, at most 4300 of them, every
    virtual key code that [_get_vk_code] returns lies between 8 and
    123; it is never 0, so the truth test on the code in
    [_convert_for_win32] drops nothing: for a combo with such a main
    key the conversion yields a key code exactly when [_get_vk_code]
    does, and the same one. *)
Theorem vk_code_range (env : Env) (config : HotkeyConfig) :
  (forall key vk,
      plain_key key -> _get_vk_code env key = Some vk -> 8 <= vk <= 123) /\
  (plain_key (main_key config) ->
   fst (_convert_for_win32 env config) = _get_vk_code env (main_key config)).
Proof.
  assert (R : forall key vk, _get_vk_code env key = Some vk -> 8 <= vk <= 123).
  { intros key vk; unfold _get_vk_code.
    destruct (win32con_ok env); cbn [negb]; [|discriminate].
    unfold vk_function_key.
    destruct (startswith "f" key && isdigit (tail key)).
    - destruct ((1 <=? int (tail key)) && (int (tail key) <=? 12)) eqn:F.
      + apply andb_true_iff in F as [F1 F2].
        apply Z.leb_le in F1, F2; intros E; apply some_eq in E; rewrite <- E.
        unfold VK_F1; lia.
      + destruct (dict_get key special_vk_map) eqn:D.
        * intros E; apply some_eq in E; rewrite <- E.
          apply dict_get_special_vk in D; lia.
        * destruct (String.length key =? 1)%nat eqn:L; cbn [andb].
          -- apply Nat.eqb_eq in L.
             destruct (isalpha key) eqn:Al.
             ++ intros E; apply some_eq in E; rewrite <- E.
                pose proof (ord_upper_letter key L Al); lia.
             ++ destruct (isdigit key) eqn:Dg.
                ** intros E; apply some_eq in E; rewrite <- E.
                   pose proof (ord_digit key L Dg); lia.
                ** destruct (mem key _); discriminate.
          -- destruct (mem key _); discriminate.
    - destruct (dict_get key special_vk_map) eqn:D.
      + intros E; apply some_eq in E; rewrite <- E.
        apply dict_get_special_vk in D; lia.
      + destruct (String.length key =? 1)%nat eqn:L; cbn [andb].
        * apply Nat.eqb_eq in L.
          destruct (isalpha key) eqn:Al.
          -- intros E; apply some_eq in E; rewrite <- E.
             pose proof (ord_upper_letter key L Al); lia.
          -- destruct (isdigit key) eqn:Dg.
             ++ intros E; apply some_eq in E; rewrite <- E.
                pose proof (ord_digit key L Dg); lia.
             ++ destruct (mem key _); discriminate.
        * destruct (mem key _); discriminate. }
  split; [intros key vk _; apply R|intros _].
  unfold _convert_for_win32.
  destruct (win32con_ok env) eqn:W; cbn [negb].
  - destruct (_get_vk_code env (main_key config)) as [vk|] eqn:E;
      [|reflexivity].
    pose proof (R _ _ E) as B.
    destruct (vk =? 0) eqn:Z0; [apply Z.eqb_eq in Z0; lia|reflexivity].
  - unfold _get_vk_code; rewrite W; reflexivity.
Qed.

(** X2: Of the valid main keys, the Win32 method has a key code for all
    but the pointer buttons and insert, home, end, pageup and
    pagedown. *)
Theorem vk_code_valid_keys (env : Env) (key : string) :
  win32con_ok env = true ->
  In key VALID_KEYS ->
  (_get_vk_code env key = None <->
   is_pointer_button key = true \/ In key navigation_keys).
Proof.
  intros W H.
  assert (E : forall k, _get_vk_code env k
                        = _get_vk_code Examples.all_alive k).
  { intros k; unfold _get_vk_code; rewrite W; reflexivity. }
  rewrite E.
  assert (A : forallb
                (fun k =>
                   Bool.eqb
                     (match _get_vk_code Examples.all_alive k with
                      | None => true
                      | Some _ => false
                      end)
                     (is_pointer_button k || mem k navigation_keys))
                VALID_KEYS = true) by (vm_compute; reflexivity).
  rewrite forallb_forall in A; specialize (A _ H).
  apply eqb_prop in A.
  rewrite <- mem_In, <- orb_true_iff, <- A.
  destruct (_get_vk_code Examples.all_alive key); split;
    (discriminate || reflexivity).
Qed.

(** *** The modifier mask *)

Lemma has_flag_lor (mask : Z) (k m : ModifierKey) :
  has_flag (Z.lor mask (modifier_flag k)) m
  = has_flag mask m || has_flag (modifier_flag k) m.
Proof.
  unfold has_flag; rewrite Z.land_lor_distr_l.
  assert (B : Z.land (modifier_flag k) (modifier_flag m) = 0 \/
              Z.land (modifier_flag k) (modifier_flag m) = modifier_flag m).
  { destruct k, m; vm_compute; auto. }
  assert (P : 0 < modifier_flag m) by (destruct m; reflexivity).
  assert (L : 0 <= Z.land mask (modifier_flag m)).
  { apply Z.land_nonneg; right; lia. }
  destruct B as [B|B]; rewrite B.
  - rewrite Z.lor_0_r; cbn; now rewrite orb_false_r.
  - replace (modifier_flag m =? 0) with false by (symmetry; apply Z.eqb_neq; lia).
    cbn; rewrite orb_true_r; apply negb_true_iff, Z.eqb_neq.
    intros E; apply Z.lor_eq_0_iff in E as [_ E]; lia.
Qed.

Lemma has_flag_self (k m : ModifierKey) :
  has_flag (modifier_flag k) m = true <-> k = m.
Proof. destruct k, m; vm_compute; split; congruence. Qed.

Lemma mask_flags (ms : list ModifierKey) (m : ModifierKey) :
  forall acc,
    has_flag (fold_left (fun flags k => Z.lor flags (modifier_flag k)) ms acc) m
    = true <-> has_flag acc m = true \/ In m ms.
Proof.
  induction ms as [|k r IH]; intros acc; cbn [fold_left In].
  - tauto.
  - rewrite IH, has_flag_lor, orb_true_iff, has_flag_self; tauto.
Qed.

(** X3: When the Win32 conversion yields a key code it also yields a
    modifier mask in which the bit of a modifier is set exactly when
    the combo has that modifier; so the mask does not depend on the
    order or the repetition of the modifiers. *)
Theorem win32_modifier_mask (env : Env) (config : HotkeyConfig) (vk : Z) :
  fst (_convert_for_win32 env config) = Some vk ->
  exists mask,
    snd (_convert_for_win32 env config) = Some mask /\
    0 <= mask <= 15 /\
    forall m, has_flag mask m = true <-> In m (modifiers config).
Proof.
  unfold _convert_for_win32.
  destruct (win32con_ok env); cbn [negb]; [|discriminate].
  destruct (_get_vk_code env (main_key config)) as [v|]; [|discriminate].
  destruct (v =? 0); [discriminate|]; intros _; cbn [snd].
  set (mask := fold_left _ _ _).
  assert (F : forall m, has_flag mask m = true <-> In m (modifiers config)).
  { intros m; unfold mask; rewrite mask_flags.
    split; [intros [H|H]; [destruct m; discriminate H|exact H]|tauto]. }
  exists mask; split; [reflexivity|]; split; [|exact F].
  assert (G : forall l acc, 0 <= acc <= 15 ->
                0 <= fold_left (fun flags k => Z.lor flags (modifier_flag k))
                       l acc <= 15).
  { induction l as [|k r IH]; intros acc A; [exact A|].
    cbn [fold_left]; apply IH.
    assert (K : 0 <= modifier_flag k < 2 ^ 4) by (destruct k; vm_compute; split; congruence).
    assert (A' : 0 <= acc < 2 ^ 4) by lia.
    split.
    - apply Z.lor_nonneg; lia.
    - assert (X : Z.lor acc (modifier_flag k) < 2 ^ 4); [|lia].
      destruct (Z.eq_dec (Z.lor acc (modifier_flag k)) 0) as [->|NZ];
        [reflexivity|].
      apply Z.log2_lt_pow2; [pose proof (Z.lor_nonneg acc (modifier_flag k)); lia|].
      rewrite Z.log2_lor by lia.
      apply Z.max_lub_lt.
      + destruct (Z.eq_dec acc 0) as [->|N]; [reflexivity|].
        apply Z.log2_lt_pow2; lia.
      + destruct k; reflexivity. }
  apply G; lia.
Qed.

(** *** Stopping *)

(** X4: [stop_listening] is idempotent under the same platform answers.
    When the library calls it makes return, the attributes it leaves
    are: not listening, no active method, no keyboard hook, no pynput
    listener, no reference to a Win32 thread and, if there was one,
    [stop_thread] set.  That thread is only told to end: whether it
    has ended is not stated. *)
Theorem stop_listening_idempotent (env : Env) (s : t) :
  stop_listening env (stop_listening env s) = stop_listening env s /\
  (stops_return env -> hooks_need_library s ->
   released s (stop_listening env s)).
Proof.
  split; [|apply stop_listening_released].
  destruct env as [wv aw uo ah wc ts kn mn ks ms kst mst].
  destruct s as [cc cbk il lt mi am mp ht st ka kh pa pk pm lc kl ml wa].
  destruct ht, ka, uo, kl, kst, ml, mst; vm_compute; reflexivity.
Qed.

(** *** Binding *)

Lemma _start_keyboard_method_keeps (env : Env) (s : t) :
  let s' := snd (_start_keyboard_method env s) in
  callback s' = callback s /\
  last_trigger_time s' = last_trigger_time s /\
  min_trigger_interval s' = min_trigger_interval s /\
  method_priority s' = method_priority s.
Proof.
  unfold _start_keyboard_method; destruct s; cbn; split_ifs; cbn; auto.
Qed.

Lemma _start_win32_method_keeps (env : Env) (s : t) :
  let s' := snd (_start_win32_method env s) in
  callback s' = callback s /\
  last_trigger_time s' = last_trigger_time s /\
  min_trigger_interval s' = min_trigger_interval s /\
  method_priority s' = method_priority s.
Proof.
  unfold _start_win32_method; destruct s; cbn.
  destruct current_config0; cbn; auto.
  destruct windows_api0; cbn; auto.
  destruct (_convert_for_win32 env h) as [[vk|] m]; cbn; auto.
  destruct (thread_start_ok env); cbn; auto.
Qed.

Lemma _start_pynput_method_keeps (env : Env) (s : t) :
  let s' := snd (_start_pynput_method env s) in
  callback s' = callback s /\
  last_trigger_time s' = last_trigger_time s /\
  min_trigger_interval s' = min_trigger_interval s /\
  method_priority s' = method_priority s.
Proof.
  unfold _start_pynput_method; destruct s; cbn; split_ifs; cbn; auto.
Qed.

Lemma attempt_keeps (env : Env) (m : HotkeyMethod) (name : option string)
      (s : t) :
  let s' := snd (attempt env m name s) in
  callback s' = callback s /\
  last_trigger_time s' = last_trigger_time s /\
  min_trigger_interval s' = min_trigger_interval s /\
  method_priority s' = method_priority s.
Proof.
  unfold attempt.
  pose proof (_start_keyboard_method_keeps env s) as K.
  pose proof (_start_win32_method_keeps env s) as W.
  pose proof (_start_pynput_method_keeps env s) as P.
  destruct (_ && keyboard_available s).
  { destruct (_start_keyboard_method env s); exact K. }
  destruct (_ && HotkeyManager.windows_api s).
  { destruct (_start_win32_method env s); exact W. }
  destruct (_ && pynput_available s).
  { destruct (_start_pynput_method env s); exact P. }
  cbn; auto.
Qed.

Lemma start_loop_keeps (env : Env) (methods : list HotkeyMethod) :
  forall (name : option string) (tried : list Tried) (s : t),
    let s' := snd (start_loop env methods name tried s) in
    caps s' = caps s /\
    callback s' = callback s /\
    last_trigger_time s' = last_trigger_time s /\
    min_trigger_interval s' = min_trigger_interval s /\
    method_priority s' = method_priority s.
Proof.
  induction methods as [|m r IH]; intros name tried s; cbn [start_loop].
  - cbn; auto.
  - pose proof (attempt_caps env m name s) as [C _].
    pose proof (attempt_keeps env m name s) as [K1 [K2 [K3 K4]]].
    destruct (attempt env m name s) as [[ok name'] s1]; cbn [snd] in *.
    destruct ok.
    + cbn; auto.
    + specialize (IH name' (tried ++ [match name' with
                                       | Some n => TriedFailed n
                                       | None => TriedError m
                                       end]) s1).
      cbv zeta in IH; destruct IH as [I0 [I1 [I2 [I3 I4]]]].
      repeat split; congruence.
Qed.

(** X5: Whatever it returns, [set_hotkey] stores the given combo and
    callback; it changes neither the debounce clock nor the interval
    nor which methods are available.  A failed binding therefore
    replaces the stored combo too. *)
Theorem set_hotkey_stores_config (env : Env) (s : t) (config : HotkeyConfig)
        (cb : Callable) :
  let s' := snd (set_hotkey env s config cb) in
  current_config s' = Some config /\
  callback s' = Some cb /\
  last_trigger_time s' = last_trigger_time s /\
  min_trigger_interval s' = min_trigger_interval s /\
  keyboard_available s' = keyboard_available s /\
  pynput_available s' = pynput_available s /\
  HotkeyManager.windows_api s' = HotkeyManager.windows_api s.
Proof.
  unfold set_hotkey, start_listening.
  remember (set_callback (Some cb)
              (set_current_config (Some config) (stop_listening env s)))
    as s0 eqn:Hs0.
  assert (S0 : current_config s0 = Some config /\ callback s0 = Some cb /\
               last_trigger_time s0 = last_trigger_time s /\
               min_trigger_interval s0 = min_trigger_interval s /\
               keyboard_available s0 = keyboard_available s /\
               pynput_available s0 = pynput_available s /\
               HotkeyManager.windows_api s0 = HotkeyManager.windows_api s).
  { subst s0; unfold stop_listening; destruct s; cbn.
    destruct hotkey_thread0, keyboard_available0, (unhook_all_ok env),
      key_listener0, (key_listener_stop_ok env), mouse_listener0,
      (mouse_listener_stop_ok env); cbn; repeat split; reflexivity. }
  clear Hs0; destruct S0 as [A [B [C [D [E [F G]]]]]].
  rewrite A; cbv zeta.
  destruct (is_listening s0); [cbn [snd]; repeat split; assumption|].
  pose proof (start_loop_keeps env (method_priority s0) None [] s0)
    as [I0 [I1 [I2 [I3 _]]]].
  unfold caps in I0; injection I0 as J1 J2 J3 J4.
  repeat split; congruence.
Qed.

(** *** The pynput listener is edge-triggered *)

Lemma _should_trigger_tracker (now : Q) (s : t) :
  let s' := snd (_should_trigger now s) in
  _is_combo_active_pynput s' = _is_combo_active_pynput s /\
  last_combo_state s' = last_combo_state s /\
  current_config s' = current_config s /\
  callback s' = callback s /\
  (fst (_should_trigger now s) = true -> last_trigger_time s' = now).
Proof.
  unfold _should_trigger; destruct (Qle_bool _ _); cbn;
    repeat split; (reflexivity || discriminate).
Qed.

Lemma tracker_set (b : bool) (x : t) :
  _is_combo_active_pynput x = b ->
  in_sync (set_last_combo_state b x) /\
  _is_combo_active_pynput (set_last_combo_state b x) = b /\
  current_config (set_last_combo_state b x) = current_config x.
Proof.
  intros A; unfold in_sync.
  change (_is_combo_active_pynput (set_last_combo_state b x))
    with (_is_combo_active_pynput x).
  rewrite A; repeat split.
Qed.

Lemma _check_combo_and_trigger_spec (now : Q) (s : t) (config : HotkeyConfig) :
  current_config s = Some config ->
  let r := _check_combo_and_trigger now s in
  in_sync (snd r) /\
  _is_combo_active_pynput (snd r) = _is_combo_active_pynput s /\
  current_config (snd r) = current_config s /\
  (fst r <= 1)%nat /\
  (fst r = 1%nat <->
   last_combo_state s = false /\
   _is_combo_active_pynput s = true /\
   fst (_should_trigger now s) = true /\
   callback s <> None) /\
  (fst r = 1%nat -> last_trigger_time (snd r) = now).
Proof.
  intros Hc; unfold _check_combo_and_trigger; rewrite Hc.
  pose proof (_should_trigger_tracker now s) as [T1 [T2 [T3 [T4 T5]]]].
  cbv zeta in *.
  destruct (_is_combo_active_pynput s) eqn:Act;
    destruct (last_combo_state s) eqn:Last; cbn [andb negb].
  2:{ destruct (_should_trigger now s) as [ok s'] eqn:Tr; cbn [fst snd] in *.
      destruct (tracker_set true s' T1) as [X1 [X2 X3]].
      destruct ok.
      - destruct (callback s') eqn:Cb; cbn [fst snd].
        + split; [exact X1|]; split; [exact X2|]; split; [exact (eq_trans X3 (eq_trans T3 Hc))|].
          split; [auto with arith|]; split.
          * split; [intros _|reflexivity].
            repeat split; congruence.
          * intros _; apply T5; reflexivity.
        + split; [exact X1|]; split; [exact X2|]; split; [exact (eq_trans X3 (eq_trans T3 Hc))|].
          split; [auto with arith|]; split; [|discriminate].
          split; [discriminate|].
          intros [_ [_ [_ N]]]; congruence.
      - split; [exact X1|]; split; [exact X2|]; split; [exact (eq_trans X3 (eq_trans T3 Hc))|].
        split; [auto with arith|]; split; [|discriminate].
        split; [discriminate|].
        intros [_ [_ [N _]]]; discriminate N. }
  all: cbn [fst snd];
    destruct (tracker_set _ s Act) as [X1 [X2 X3]];
    (split; [exact X1|]); (split; [exact X2|]); (split; [exact (eq_trans X3 Hc)|]);
    (split; [auto with arith|]); (split; [|discriminate]);
    (split; [discriminate|]); intros [L [A _]]; congruence.
Qed.

(** What an input does before the check: it only changes what is
    held. *)
Lemma handle_as_check (now : Q) (i : Input) (s : t) :
  exists s1,
    handle now i s = _check_combo_and_trigger now s1 /\
    current_config s1 = current_config s /\
    callback s1 = callback s /\
    last_combo_state s1 = last_combo_state s /\
    last_trigger_time s1 = last_trigger_time s /\
    min_trigger_interval s1 = min_trigger_interval s /\
    (is_repeat s i = true -> s1 = s).
Proof.
  destruct i as [key|key|button pressed]; cbn [handle is_repeat];
    unfold _on_key_press, _on_key_release, _on_mouse_click.
  - eexists; split; [reflexivity|]; repeat split.
    intros R; unfold set_add; rewrite R; destruct s; reflexivity.
  - destruct (set_in key (pressed_keys s)); eexists;
      (split; [reflexivity|]); repeat split; discriminate.
  - destruct pressed.
    + eexists; split; [reflexivity|]; repeat split.
      cbn [andb]; intros R; unfold set_add; rewrite R; destruct s; reflexivity.
    + destruct (set_in button (pressed_mouse s)); eexists;
        (split; [reflexivity|]); repeat split; discriminate.
Qed.

Lemma handle_fires (now : Q) (i : Input) (s : t) (config : HotkeyConfig) :
  current_config s = Some config ->
  current_config (snd (handle now i s)) = Some config /\
  (fst (handle now i s) <= 1)%nat /\
  (fst (handle now i s) = 1%nat ->
   _is_combo_active_pynput (snd (handle now i s)) = true).
Proof.
  intros Hc.
  destruct (handle_as_check now i s) as [s1 [E [C1 _]]].
  rewrite <- C1 in Hc.
  pose proof (_check_combo_and_trigger_spec now s1 config Hc)
    as [_ [A [C [L [F _]]]]].
  cbv zeta in *; rewrite E.
  split; [now rewrite C|]; split; [exact L|].
  intros N; rewrite A; apply F, N.
Qed.

(** X6: Every input of the pynput listeners starts the callback at most
    once, and exactly when the combo was not held before (per the
    tracker), is held after the input, the debounce accepts the moment
    and a callback is stored.  After the input the tracker tells
    whether the combo is held; while it says held, no input starts
    the callback. *)
Theorem handle_edge_triggered (now : Q) (i : Input) (s : t)
        (config : HotkeyConfig) :
  current_config s = Some config ->
  let r := handle now i s in
  in_sync (snd r) /\
  (fst r <= 1)%nat /\
  (fst r = 1%nat <->
   last_combo_state s = false /\
   _is_combo_active_pynput (snd r) = true /\
   (min_trigger_interval s <= now - last_trigger_time s)%Q /\
   callback s <> None) /\
  (last_combo_state s = true -> fst r = 0%nat).
Proof.
  intros Hc r.
  destruct (handle_as_check now i s) as [s1 [E [C1 [C2 [C3 [C4 [C5 _]]]]]]].
  rewrite <- C1 in Hc.
  pose proof (_check_combo_and_trigger_spec now s1 config Hc)
    as [S [A [_ [L [F _]]]]].
  cbv zeta in *; unfold r; rewrite E.
  assert (D : fst (_should_trigger now s1) = true <->
              (min_trigger_interval s <= now - last_trigger_time s)%Q).
  { rewrite _should_trigger_accept, C4, C5; tauto. }
  split; [exact S|]; split; [exact L|]; split.
  - rewrite F, A, C3, C2, D; tauto.
  - intros T.
    destruct (fst (_check_combo_and_trigger now s1)) as [|[|n]] eqn:N;
      [reflexivity| |].
    + destruct (proj1 F eq_refl) as [X _]; congruence.
    + exfalso; apply (Nat.nle_succ_0 n); now apply le_S_n.
Qed.

(** *** Holding the combo *)

Lemma _check_combo_and_trigger_in_sync (now : Q) (s : t) :
  in_sync s -> _check_combo_and_trigger now s = (0%nat, s).
Proof.
  unfold in_sync, _check_combo_and_trigger; intros H; rewrite <- H.
  destruct (current_config s); [|reflexivity].
  rewrite andb_negb_r; destruct s; reflexivity.
Qed.

(** X7: Inputs that repeat what is already held (the key repeat of the
    operating system, a second press of a held button), delivered
    while the tracker agrees with what is held, start no callback and
    leave the manager exactly as it is, however many they are. *)
Theorem key_repeat_never_fires (inputs : list (Q * Input)) (s : t) :
  in_sync s ->
  Forall (fun ti => is_repeat s (snd ti) = true) inputs ->
  replay inputs s = (0%nat, s).
Proof.
  intros S; induction 1 as [|[now i] rest R _ IH]; [reflexivity|].
  cbn [replay snd] in *.
  destruct (handle_as_check now i s) as [s1 [E [_ [_ [_ [_ [_ X]]]]]]].
  rewrite E, (X R), (_check_combo_and_trigger_in_sync now s S), IH.
  reflexivity.
Qed.

(** *** Combos the pynput listener cannot see *)

Lemma never_active (s : t) (config : HotkeyConfig) :
  current_config s = Some config ->
  In WIN (modifiers config) \/ In (main_key config) navigation_keys ->
  _is_combo_active_pynput s = false.
Proof.
  intros Hc H; unfold _is_combo_active_pynput; rewrite Hc.
  destruct (forallb _ _) eqn:F; [|reflexivity].
  destruct H as [H|H].
  - rewrite forallb_forall in F; discriminate (F _ H).
  - cbn in H.
    destruct H as [<-|[<-|[<-|[<-|[<-|[]]]]]]; reflexivity.
Qed.

(** X8: A combo with the [WIN] modifier, or with the main key insert,
    home, end, pageup or pagedown, is never seen as held by the pynput
    method: whatever is pressed and released, it is not active and the
    callback is never started. *)
Theorem pynput_never_detects (inputs : list (Q * Input)) (s : t)
        (config : HotkeyConfig) :
  current_config s = Some config ->
  In WIN (modifiers config) \/ In (main_key config) navigation_keys ->
  fst (replay inputs s) = 0%nat /\
  _is_combo_active_pynput (snd (replay inputs s)) = false.
Proof.
  intros Hc H.
  assert (G : fst (replay inputs s) = 0%nat /\
              current_config (snd (replay inputs s)) = Some config).
  { revert s Hc; induction inputs as [|[now i] rest IH]; intros s Hc;
      [split; [reflexivity|exact Hc]|].
    cbn [replay].
    destruct (handle_fires now i s config Hc) as [C [L F]].
    destruct (handle now i s) as [n s1]; cbn [fst snd] in *.
    destruct (IH s1 C) as [I1 I2].
    destruct (replay rest s1) as [m s2]; cbn [fst snd] in *.
    split; [|exact I2]; subst m.
    destruct n as [|[|n]]; [reflexivity| |].
    - rewrite (never_active s1 config C H) in F.
      discriminate (F eq_refl).
    - exfalso; apply (Nat.nle_succ_0 n); now apply le_S_n. }
  destruct G as [G1 G2]; split; [exact G1|].
  apply (never_active _ config G2 H).
Qed.

End HotkeyManagerMore.

(* ================================================================= *)
(** ** More properties of [models/hotkey.py] and [models/game_window.py] *)

Module HotkeyMore.
Import PyStr PyStrFacts Hotkey HotkeyErrors HotkeyFacts.

(** *** [strip] and [lower] in general *)

Lemma char_lower_idem (c : ascii) : char_lower (char_lower c) = char_lower c.
Proof. destruct c as [[] [] [] [] [] [] [] []]; reflexivity. Qed.

Lemma is_space_char_lower (c : ascii) : is_space (char_lower c) = is_space c.
Proof. destruct c as [[] [] [] [] [] [] [] []]; reflexivity. Qed.

Lemma lower_idem (s : string) : lower (lower s) = lower s.
Proof. induction s; simpl; [reflexivity|now rewrite char_lower_idem, IHs]. Qed.

Lemma lower_empty (s : string) : lower s = EmptyString <-> s = EmptyString.
Proof. destruct s; simpl; split; (reflexivity || discriminate). Qed.

Lemma lower_lstrip (s : string) : lower (lstrip s) = lstrip (lower s).
Proof.
  induction s as [|c r IH]; simpl; [reflexivity|].
  rewrite is_space_char_lower; destruct (is_space c); [exact IH|reflexivity].
Qed.

Lemma lower_rstrip (s : string) : lower (rstrip s) = rstrip (lower s).
Proof.
  induction s as [|c r IH]; simpl; [reflexivity|].
  rewrite <- IH, is_space_char_lower.
  destruct (rstrip r); simpl; [destruct (is_space c)|]; reflexivity.
Qed.

Lemma lower_strip (s : string) : lower (strip s) = strip (lower s).
Proof. unfold strip; now rewrite lower_rstrip, lower_lstrip. Qed.

Lemma rstrip_idem (s : string) : rstrip (rstrip s) = rstrip s.
Proof.
  induction s as [|c r IH]; simpl; [reflexivity|].
  destruct (rstrip r) as [|a b] eqn:R.
  - destruct (is_space c) eqn:S; simpl; [reflexivity|now rewrite S].
  - change (rstrip (String c (String a b)))
      with (match rstrip (String a b) with
            | EmptyString =>
                if is_space c then EmptyString else String c EmptyString
            | r' => String c r'
            end).
    now rewrite IH.
Qed.

(** Empty, or starting with a character that is no white space. *)
Lemma lstrip_head (s : string) :
  match lstrip s with
  | EmptyString => True
  | String c _ => is_space c = false
  end.
Proof.
  induction s as [|c r IH]; simpl; [exact I|].
  destruct (is_space c) eqn:S; [exact IH|exact S].
Qed.

Lemma lstrip_rstrip (s : string) :
  match s with
  | EmptyString => True
  | String c _ => is_space c = false
  end ->
  lstrip (rstrip s) = rstrip s.
Proof.
  destruct s as [|c r]; [reflexivity|]; intros S; simpl.
  destruct (rstrip r); rewrite ?S; simpl; rewrite ?S; reflexivity.
Qed.

Lemma strip_idem (s : string) : strip (strip s) = strip s.
Proof.
  unfold strip; rewrite (lstrip_rstrip _ (lstrip_head s)); apply rstrip_idem.
Qed.

Lemma normal_idem (s : string) :
  strip (lower (strip (lower s))) = strip (lower s).
Proof. now rewrite lower_strip, lower_idem, strip_idem. Qed.

Lemma strip_lower_empty (s : string) :
  String.eqb (strip (lower s)) EmptyString = String.eqb (strip s) EmptyString.
Proof.
  rewrite <- lower_strip.
  destruct (strip s); reflexivity.
Qed.

(** *** [parse] *)

Lemma ModifierKey_of_None (m : string) :
  ModifierKey_of m = None <-> mem m VALID_MODIFIERS = false.
Proof.
  unfold ModifierKey_of, mem, VALID_MODIFIERS; cbn [existsb].
  destruct (String.eqb m "ctrl"), (String.eqb m "alt"),
    (String.eqb m "shift"), (String.eqb m "win"); cbn;
    split; (reflexivity || discriminate).
Qed.

Lemma ModifierKey_of_value (m : string) (k : ModifierKey) :
  ModifierKey_of m = Some k -> modifier_value k = m.
Proof.
  unfold ModifierKey_of.
  destruct (String.eqb m "ctrl") eqn:E1;
    [apply String.eqb_eq in E1; intros [= <-]; now subst|].
  destruct (String.eqb m "alt") eqn:E2;
    [apply String.eqb_eq in E2; intros [= <-]; now subst|].
  destruct (String.eqb m "shift") eqn:E3;
    [apply String.eqb_eq in E3; intros [= <-]; now subst|].
  destruct (String.eqb m "win") eqn:E4;
    [apply String.eqb_eq in E4; intros [= <-]; now subst|].
  discriminate.
Qed.

Lemma parse_modifiers_None (l : list string) :
  parse_modifiers l = None <->
  exists part, In part l /\ mem part VALID_MODIFIERS = false.
Proof.
  induction l as [|m r IH]; cbn [parse_modifiers In].
  - split; [discriminate|intros [p [[] _]]].
  - destruct (ModifierKey_of m) as [k|] eqn:K.
    + assert (V : mem m VALID_MODIFIERS = true).
      { destruct (mem m VALID_MODIFIERS) eqn:V; [reflexivity|].
        apply ModifierKey_of_None in V; congruence. }
      destruct (parse_modifiers r) as [ms|].
      * split; [discriminate|].
        intros [p [[<-|H] B]]; [congruence|].
        assert (X : Some ms = None) by (apply IH; eauto).
        discriminate X.
      * split; [intros _|reflexivity].
        destruct (proj1 IH eq_refl) as [p [H B]]; eauto.
    + split; [intros _|reflexivity].
      exists m; split; [now left|now apply ModifierKey_of_None].
Qed.

Lemma parse_modifiers_values (l : list string) (ms : list ModifierKey) :
  parse_modifiers l = Some ms -> map modifier_value ms = l.
Proof.
  revert ms; induction l as [|m r IH]; cbn [parse_modifiers]; intros ms.
  - intros [= <-]; reflexivity.
  - destruct (ModifierKey_of m) as [k|] eqn:K; [|discriminate].
    destruct (parse_modifiers r) as [ms'|]; [|discriminate].
    intros [= <-]; simpl.
    now rewrite (ModifierKey_of_value _ _ K), (IH ms' eq_refl).
Qed.

(** X9: [parse] raises exactly when a part before the last [+] is not one
    of the four modifier names.  The last part is never checked: on
    success it is the main key as it stands, and the modifiers are the
    parts before it, in their sequence and with repetitions. *)
Theorem parse_fails_on_bad_modifier (s : string) :
  let parts := split "+" (strip (lower s)) in
  (parse s = None <->
   exists part, In part (removelast parts) /\
                mem part VALID_MODIFIERS = false) /\
  (forall c, parse s = Some c ->
             raw_value c = strip (lower s) /\
             main_key c = last parts EmptyString /\
             map modifier_value (modifiers c) = removelast parts).
Proof.
  intros parts; unfold parse; fold parts.
  pose proof (parse_modifiers_None (removelast parts)) as N.
  pose proof (parse_modifiers_values (removelast parts)) as V.
  destruct (parse_modifiers (removelast parts)) as [ms|].
  - split.
    + split; [discriminate|]; intros H; apply N in H; discriminate.
    + intros c [= <-]; cbn; repeat split; now apply V.
  - split.
    + split; [intros _; now apply N|reflexivity].
    + discriminate.
Qed.

(** X10: The raw value of a parsed combo is a normal form: parsing it gives
    the same combo again; and the combo is valid exactly when the text
    it was parsed from validates. *)
Theorem parse_raw_value_fixed (s : string) (c : HotkeyConfig) :
  parse s = Some c ->
  parse (raw_value c) = Some c /\
  is_valid c = validate_hotkey s.
Proof.
  intros P.
  assert (R : raw_value c = strip (lower s)).
  { revert P; unfold parse; destruct (parse_modifiers _); [|discriminate].
    intros [= <-]; reflexivity. }
  split.
  - rewrite R, <- P; symmetry; apply parse_normal; [reflexivity|apply normal_idem].
  - unfold is_valid, validate_hotkey; rewrite R, normal_idem, strip_idem.
    rewrite orb_diag, strip_lower_empty.
    destruct (String.eqb s EmptyString) eqn:E; [|reflexivity].
    apply String.eqb_eq in E; subst s; reflexivity.
Qed.

(** *** [get_validation_error] *)

Lemma find_invalid_modifier (l : list string) :
  find (fun m => negb (mem m VALID_MODIFIERS)) l = None <->
  forallb (fun m => mem m VALID_MODIFIERS) l = true.
Proof.
  induction l as [|m r IH]; cbn [find forallb]; [tauto|].
  destruct (mem m VALID_MODIFIERS); cbn [negb andb]; [exact IH|].
  split; discriminate.
Qed.

Lemma some_key (a b : string) : Some (InvalidKey a) = Some (InvalidKey b) -> a = b.
Proof. congruence. Qed.

Lemma some_modifier (a b : string) :
  Some (InvalidModifier a) = Some (InvalidModifier b) -> a = b.
Proof. congruence. Qed.

(** X11: [get_validation_error] and [validate_hotkey] agree: there is no
    error message exactly for the texts that validate.  A reported
    invalid modifier is a part of the text that is no modifier name,
    and a reported invalid key is its last part. *)
Theorem validation_error_iff_invalid (s : string) :
  (get_validation_error s = None <-> validate_hotkey s = true) /\
  (forall m, get_validation_error s = Some (InvalidModifier m) ->
             mem m VALID_MODIFIERS = false /\
             In m (removelast (split "+" (strip (lower s))))) /\
  (forall k, get_validation_error s = Some (InvalidKey k) ->
             mem k VALID_KEYS = false /\
             k = last (split "+" (strip (lower s))) EmptyString).
Proof.
  unfold get_validation_error, validate_hotkey; cbv zeta.
  destruct (_ || _).
  { split; [split; discriminate|]; split; discriminate. }
  destruct (_ <? _)%nat.
  { split; [split; discriminate|]; split; discriminate. }
  destruct (mem (last _ _) VALID_KEYS) eqn:K; cbn [negb].
  2:{ split; [split; discriminate|]; split; [discriminate|].
      intros k E; apply some_key in E; subst k; split; [exact K|reflexivity]. }
  pose proof (find_invalid_modifier
                (removelast (split "+" (strip (lower s))))) as F.
  destruct (find _ _) as [bad|] eqn:Fd.
  - assert (B : forallb (fun m => mem m VALID_MODIFIERS)
                        (removelast (split "+" (strip (lower s)))) = false).
    { destruct (forallb _ _); [|reflexivity].
      discriminate (proj2 F eq_refl). }
    rewrite B; cbn [negb].
    split; [split; discriminate|]; split; [|discriminate].
    intros m E; apply some_modifier in E; subst m.
    apply find_some in Fd as [Fd1 Fd2].
    split; [now apply negb_true_iff in Fd2|exact Fd1].
  - rewrite (proj1 F eq_refl); cbn [negb].
    destruct (has_duplicates _);
      (split; [split; (discriminate || reflexivity)|]; split; discriminate).
Qed.

(** *** Presets *)

(** X12: Every keyboard and mouse preset of the hotkey dialog validates,
    and parses to a combo whose raw value is the preset's text. *)
Theorem presets_are_valid (preset : string * string) :
  In preset (KEYBOARD_PRESETS ++ MOUSE_PRESETS) ->
  validate_hotkey (snd preset) = true /\
  exists c, parse (snd preset) = Some c /\ raw_value c = snd preset.
Proof.
  intros H.
  assert (A : forallb preset_ok (KEYBOARD_PRESETS ++ MOUSE_PRESETS) = true)
    by (vm_compute; reflexivity).
  rewrite forallb_forall in A; specialize (A _ H).
  unfold preset_ok in A; apply andb_true_iff in A as [V P].
  split; [exact V|].
  destruct (parse (snd preset)) as [c|]; [|discriminate].
  exists c; split; [reflexivity|now apply String.eqb_eq].
Qed.

End HotkeyMore.

Module GameWindowMore.
Import PyStr WindowCycler GameWindowDisplay.

Local Open Scope Z_scope.





End GameWindowMore.

(* ================================================================= *)
(** ** More properties of [core/window_cycler.py] *)

Module WindowCyclerMore.
Import PyStr Hotkey Platform WindowCycler WindowCyclerQueries.
Import WindowCyclerFacts.

Local Open Scope Z_scope.

(** *** [refresh_window_validity] *)

Lemma firstn_S_nth {A} (l : list A) (k : nat) (x : A) :
  nth_error l k = Some x ->
  firstn (S k) l = firstn k l ++ [x] /\ skipn k l = x :: skipn (S k) l.
Proof.
  revert k; induction l as [|a r IH]; intros [|k]; cbn; try discriminate.
  - intros [= ->]; split; reflexivity.
  - intros H; destruct (IH k H) as [F S]; cbn in F; rewrite F; split;
      [reflexivity|exact S].
Qed.

Lemma pop_rest_parts {A} (l : list A) (k : nat) :
  (k < List.length l)%nat ->
  pop_rest l (Z.of_nat k) = firstn k l ++ skipn (S k) l /\
  firstn k (pop_rest l (Z.of_nat k)) = firstn k l /\
  skipn k (pop_rest l (Z.of_nat k)) = skipn (S k) l.
Proof.
  intros H; unfold pop_rest; rewrite Nat2Z.id.
  assert (L : List.length (firstn k l) = k) by (rewrite length_firstn; lia).
  split; [reflexivity|]; split.
  - rewrite firstn_app, L, Nat.sub_diag, firstn_firstn, Nat.min_id; cbn.
    now rewrite app_nil_r.
  - rewrite skipn_app, L, Nat.sub_diag, skipn_firstn_comm, Nat.sub_diag; cbn.
    reflexivity.
Qed.

(** The loop over the indices [k-1 .. 0]: the first [k] windows are
    filtered, the others stay. *)
Lemma refresh_loop_filter (env : Env) :
  forall (k : nat) (s : t),
    (k <= List.length (windows s))%nat ->
    exists s',
      refresh_loop env (range_down k) s = Returned s' /\
      windows s'
      = filter (is_valid_handle env) (firstn k (windows s))
        ++ skipn k (windows s) /\
      events s'
      = events s
        ++ map WindowRemoved
             (rev (filter (fun w => negb (is_valid_handle env w))
                          (firstn k (windows s)))) /\
      hotkey_manager s' = hotkey_manager s /\
      windows_api s' = windows_api s /\
      total_cycles s' = total_cycles s /\
      successful_activations s' = successful_activations s /\
      failed_activations s' = failed_activations s.
Proof.
  induction k as [|k IH]; intros s K.
  - exists s; cbn; rewrite app_nil_r; repeat split; reflexivity.
  - rewrite range_down_S; cbn [refresh_loop].
    assert (R : 0 <= Z.of_nat k < len (windows s)) by (unfold len; lia).
    destruct (getitem_in_range _ _ R) as [w [G [N _]]].
    rewrite Nat2Z.id in N.
    destruct (firstn_S_nth _ _ _ N) as [F1 F2].
    rewrite G; cbn [or_raise bind].
    destruct (is_valid_handle env w) eqn:V; cbn [negb].
    + destruct (IH s) as [s' [E [W [Ev Rest]]]]; [lia|].
      exists s'; split; [exact E|]; split; [|split; [|exact Rest]].
      * rewrite W, F1, F2, filter_app; cbn; rewrite V, <- app_assoc.
        reflexivity.
      * rewrite Ev, F1, filter_app; cbn; rewrite V; cbn.
        now rewrite app_nil_r.
    + pose proof (_remove_invalid_window_fields s _ R)
        as [W1 [L1 [[w' [N' E1]] [H1 [A1 [T1 [S1 Fa1]]]]]]].
      cbv zeta in *.
      rewrite Nat2Z.id in N'; rewrite N in N'; injection N' as <-.
      destruct (pop_rest_parts (windows s) k) as [_ [P1 P2]]; [lia|].
      destruct (IH (_remove_invalid_window s (Z.of_nat k)))
        as [s' [E [W [Ev [H2 [A2 [T2 [S2 Fa2]]]]]]]].
      { unfold len in L1; lia. }
      exists s'; split; [exact E|].
      rewrite W, Ev, W1, P1, P2, E1, F1, !filter_app; cbn; rewrite V; cbn.
      rewrite app_nil_r, rev_app_distr; cbn; rewrite <- app_assoc.
      repeat split; congruence.
Qed.

(** X14: [refresh_window_validity] returns and keeps exactly the valid
    windows, in their sequence.  Each invalid window is notified as
    removed, the last in the list first.  Counters and the hotkey
    manager are untouched: cycling is not stopped, even when no
    window is left. *)
Theorem refresh_window_validity_filter (env : Env) (s : t) :
  exists s',
    refresh_window_validity env s = Returned s' /\
    windows s' = filter (is_valid_handle env) (windows s) /\
    events s'
    = events s
      ++ map WindowRemoved
           (rev (filter (fun w => negb (is_valid_handle env w)) (windows s))) /\
    hotkey_manager s' = hotkey_manager s /\
    total_cycles s' = total_cycles s /\
    successful_activations s' = successful_activations s /\
    failed_activations s' = failed_activations s.
Proof.
  destruct (refresh_loop_filter env (List.length (windows s)) s (le_n _))
    as [s' [E [W [Ev [H [_ [T [S F]]]]]]]].
  rewrite firstn_all, skipn_all, app_nil_r in W; rewrite firstn_all in Ev.
  exists s'; repeat split; assumption.
Qed.

Lemma refresh_loop_all_valid (env : Env) :
  forall (k : nat) (s : t),
    (k <= List.length (windows s))%nat ->
    (forall w, In w (windows s) -> is_valid_handle env w = true) ->
    refresh_loop env (range_down k) s = Returned s.
Proof.
  induction k as [|k IH]; intros s K V; [reflexivity|].
  rewrite range_down_S; cbn [refresh_loop].
  assert (R : 0 <= Z.of_nat k < len (windows s)) by (unfold len; lia).
  destruct (getitem_in_range _ _ R) as [w [G [_ I]]].
  rewrite G; cbn [or_raise bind]; rewrite (V w I); cbn [negb].
  apply IH; [lia|exact V].
Qed.

(** X15: [refresh_window_validity] changes nothing when every window is
    valid, and it is idempotent under the same platform answers: a
    second call right after the first returns the same cycler and
    notifies nothing. *)
Theorem refresh_window_validity_idempotent (env : Env) (s s1 : t) :
  ((forall w, In w (windows s) -> is_valid_handle env w = true) ->
   refresh_window_validity env s = Returned s) /\
  (refresh_window_validity env s = Returned s1 ->
   refresh_window_validity env s1 = Returned s1).
Proof.
  split.
  - intros V; apply refresh_loop_all_valid; [apply le_n|exact V].
  - intros E.
    destruct (refresh_loop_filter env (List.length (windows s)) s (le_n _))
      as [s' [E' [W _]]].
    unfold refresh_window_validity in E; rewrite E' in E.
    injection E as ->.
    rewrite firstn_all, skipn_all, app_nil_r in W.
    apply refresh_loop_all_valid; [apply le_n|].
    intros w I; rewrite W in I; now apply filter_In in I.
Qed.

(** *** A trigger when every window is gone *)

Lemma remove_at_split (s : t) (pre post : list GameWindow) (w : GameWindow) :
  windows s = pre ++ w :: post ->
  let s' := _remove_invalid_window s (len pre) in
  windows s' = pre ++ post /\
  events s' = events s ++ [WindowRemoved w] /\
  current_index s'
  = (if (current_index s >=? len (pre ++ post))
        && negb (is_nil (pre ++ post))
     then 0 else current_index s) /\
  hotkey_manager s' = hotkey_manager s /\
  windows_api s' = windows_api s /\
  total_cycles s' = total_cycles s /\
  successful_activations s' = successful_activations s /\
  failed_activations s' = failed_activations s.
Proof.
  intros W s'.
  assert (R : 0 <= len pre < len (windows s)).
  { rewrite W; unfold len; rewrite length_app; cbn; lia. }
  destruct (_remove_invalid_window_eq s _ R) as [w' [N E]].
  assert (P : pop_rest (windows s) (len pre) = pre ++ post).
  { unfold pop_rest, len; rewrite Nat2Z.id, W.
    rewrite firstn_app, Nat.sub_diag, firstn_all; cbn [firstn].
    rewrite app_nil_r, skipn_app, skipn_all2 by lia.
    replace (S (List.length pre) - List.length pre)%nat with 1%nat by lia.
    reflexivity. }
  assert (X : w' = w).
  { unfold len in N; rewrite Nat2Z.id, W, nth_error_app2 in N by lia.
    rewrite Nat.sub_diag in N; cbn in N; congruence. }
  subst w'; unfold s'; rewrite E, P; cbn.
  destruct (_ && _); cbn; repeat split; reflexivity.
Qed.

Lemma cycle_loop_all_invalid (env : Env) :
  forall (n fuel : nat) (m a : Z) (s : t) (pre post : list GameWindow),
    List.length (pre ++ post) = n ->
    (n <= fuel)%nat ->
    a < m ->
    post <> [] ->
    windows s = pre ++ post ->
    current_index s = len pre ->
    (forall w, In w (windows s) -> is_valid_handle env w = false) ->
    exists s',
      cycle_loop env fuel m a s = Returned s' /\
      windows s' = [] /\
      events s'
      = events s ++ map WindowRemoved (post ++ pre) ++ [CyclingStopped] /\
      hotkey_manager s'
      = HotkeyManager.stop_listening env (hotkey_manager s) /\
      total_cycles s' = total_cycles s /\
      successful_activations s' = successful_activations s /\
      failed_activations s' = failed_activations s.
Proof.
  induction n as [|n IH]; intros fuel m a s pre post L F A NE W C V.
  { destruct pre, post; cbn in L; congruence. }
  destruct post as [|w post]; [congruence|].
  destruct fuel as [|fuel]; [lia|].
  assert (R : 0 <= current_index s < len (windows s)).
  { rewrite C, W; unfold len; rewrite length_app; cbn; lia. }
  assert (G : getitem (windows s) (current_index s) = Some w).
  { destruct (getitem_in_range _ _ R) as [x [G [N _]]].
    rewrite G; f_equal.
    rewrite C, W in N; unfold len in N.
    rewrite Nat2Z.id, nth_error_app2, Nat.sub_diag in N by lia.
    cbn in N; congruence. }
  assert (Vw : is_valid_handle env w = false).
  { apply V; rewrite W; apply in_or_app; right; now left. }
  pose proof (remove_at_split s pre post w W)
    as [W' [E' [C' [H' [_ [T' [S' Fa']]]]]]]; cbv zeta in *.
  rewrite <- C in *.
  destruct (pre ++ post) as [|x rest] eqn:PP.
  - (* the last window goes *)
    cbn [cycle_loop].
    replace (a <? m) with true by (symmetry; apply Z.ltb_lt; lia).
    replace (current_index s >=? len (windows s)) with false
      by (symmetry; rewrite Z.geb_leb; apply Z.leb_gt; lia).
    cbn [negb]; rewrite G; cbn [or_raise bind]; rewrite Vw; cbn [negb].
    rewrite W'; cbn [is_nil].
    eexists; split; [reflexivity|].
    apply app_eq_nil in PP as [-> ->].
    cbn; rewrite W', E', H', T', S', Fa', <- app_assoc.
    repeat split; reflexivity.
  - rewrite (cycle_loop_removes env fuel m a s w A R G Vw)
      by (rewrite W'; discriminate).
    assert (V' : forall w0,
               In w0 (windows (_remove_invalid_window s (current_index s))) ->
               is_valid_handle env w0 = false).
    { intros w0 I; apply V; rewrite W; rewrite W', <- PP in I.
      apply in_app_or in I as [I|I]; apply in_or_app;
        [now left|right; now right]. }
    assert (Ln : List.length (pre ++ post) = n).
    { rewrite length_app in *; cbn in L; lia. }
    destruct post as [|y post].
    + (* wrap around to the front of the list *)
      rewrite app_nil_r in PP, Ln.
      destruct (IH fuel m a (_remove_invalid_window s (current_index s))
                  [] pre) as [s' [E [X1 [X2 [X3 [X4 [X5 X6]]]]]]];
        try assumption; try lia.
      * rewrite PP; discriminate.
      * rewrite W', PP; reflexivity.
      * rewrite C'; cbn [is_nil negb].
        rewrite andb_true_r, Z.geb_leb, C.
        replace (len (x :: rest) <=? len pre) with true; [reflexivity|].
        symmetry; apply Z.leb_le; rewrite <- PP; lia.
      * exists s'; split; [exact E|]; split; [exact X1|].
        rewrite X2, X3, X4, X5, X6, E', H', T', S', Fa', app_nil_r.
        cbn; rewrite <- !app_assoc; repeat split; reflexivity.
    + destruct (IH fuel m a (_remove_invalid_window s (current_index s))
                  pre (y :: post)) as [s' [E [X1 [X2 [X3 [X4 [X5 X6]]]]]]];
        try assumption; try lia.
      * discriminate.
      * rewrite W', PP; reflexivity.
      * rewrite C'; cbn [is_nil negb].
        rewrite andb_true_r, Z.geb_leb, C.
        replace (len (x :: rest) <=? len pre) with false; [reflexivity|].
        symmetry; apply Z.leb_gt; rewrite <- PP.
        unfold len; rewrite length_app; cbn; lia.
      * exists s'; split; [exact E|]; split; [exact X1|].
        rewrite X2, X3, X4, X5, X6, E', H', T', S', Fa'.
        cbn; rewrite <- !app_assoc; repeat split; reflexivity.
Qed.

(** X16: When every window of a non-empty list has become invalid, one
    trigger removes them all, starting at the cursor and wrapping
    around, activates nothing, counts no failure, and, the list being
    empty, stops cycling: the hotkey manager is told to stop listening
    and the stop is notified last. *)
Theorem cycle_next_all_invalid (env : Env) (s : t) :
  0 <= current_index s < len (windows s) ->
  (forall w, In w (windows s) -> is_valid_handle env w = false) ->
  exists s',
    cycle_next env s = Returned s' /\
    windows s' = [] /\
    events s'
    = events s
      ++ map WindowRemoved
           (skipn (Z.to_nat (current_index s)) (windows s)
            ++ firstn (Z.to_nat (current_index s)) (windows s))
      ++ [CyclingStopped] /\
    hotkey_manager s'
    = HotkeyManager.stop_listening env (hotkey_manager s) /\
    HotkeyManager.is_listening (hotkey_manager s') = false /\
    total_cycles s' = total_cycles s + 1 /\
    successful_activations s' = successful_activations s /\
    failed_activations s' = failed_activations s.
Proof.
  intros C V.
  assert (N : windows s <> []).
  { intros E; rewrite E in C; cbn in C; lia. }
  rewrite (cycle_next_unfold env s N).
  set (c := Z.to_nat (current_index s)).
  assert (Lc : (c < List.length (windows s))%nat) by (unfold c, len in *; lia).
  destruct (cycle_loop_all_invalid env (List.length (windows s))
              (cycle_fuel (List.length (windows s))) (len (windows s)) 0
              (set_total_cycles (total_cycles s + 1) s)
              (firstn c (windows s)) (skipn c (windows s)))
    as [s' [E [X1 [X2 [X3 [X4 [X5 X6]]]]]]].
  - now rewrite firstn_skipn.
  - unfold cycle_fuel; lia.
  - lia.
  - intros Z0; apply (f_equal (@List.length _)) in Z0.
    rewrite length_skipn in Z0; cbn in Z0; lia.
  - cbn; now rewrite firstn_skipn.
  - cbn; unfold len; rewrite length_firstn, Nat.min_l by lia.
    unfold c; lia.
  - exact V.
  - exists s'; split; [exact E|].
    cbn in X2, X3, X4, X5, X6.
    repeat split; try assumption.
    rewrite X3; apply (proj1 (HotkeyManagerFacts.stop_listening_disarms env _)).
Qed.

(** *** What a trigger may do *)

Lemma getitem_In {A} (l : list A) (i : Z) (x : A) :
  getitem l i = Some x -> In x l.
Proof.
  unfold getitem; destruct (0 <=? i); [apply nth_error_In|].
  destruct (- len l <=? i); [apply nth_error_In|discriminate].
Qed.

(** Either nothing happens, or the window at a valid index goes. *)
Lemma _remove_invalid_window_cases (s : t) (i : Z) :
  _remove_invalid_window s i = s \/
  (0 <= i < len (windows s) /\
   exists w,
     nth_error (windows s) (Z.to_nat i) = Some w /\
     windows (_remove_invalid_window s i) = pop_rest (windows s) i /\
     events (_remove_invalid_window s i) = events s ++ [WindowRemoved w] /\
     total_cycles (_remove_invalid_window s i) = total_cycles s /\
     successful_activations (_remove_invalid_window s i)
     = successful_activations s).
Proof.
  destruct ((0 <=? i) && (i <? len (windows s))) eqn:G.
  - right; apply andb_true_iff in G as [G1 G2].
    apply Z.leb_le in G1; apply Z.ltb_lt in G2.
    assert (R : 0 <= i < len (windows s)) by lia.
    split; [exact R|].
    pose proof (_remove_invalid_window_fields s i R)
      as [W [_ [[w [N E]] [_ [_ [T [S _]]]]]]].
    exists w; repeat split; assumption.
  - left; unfold _remove_invalid_window; now rewrite G.
Qed.

Lemma sound_event_incl (env : Env) (l l' : list GameWindow) (e : Event) :
  incl l' l -> sound_event env l' e -> sound_event env l e.
Proof.
  intros I; destruct e; cbn; [| |trivial]; intros [H R]; split; auto.
Qed.

Lemma count_activations_app (a b : list Event) :
  count_activations (a ++ b) = count_activations a + count_activations b.
Proof.
  unfold count_activations, len; rewrite filter_app, length_app; lia.
Qed.

Lemma cycle_loop_sound (env : Env) :
  forall (fuel : nat) (m a : Z) (s s' : t),
    cycle_loop env fuel m a s = Returned s' ->
    exists added,
      events s' = events s ++ added /\
      Forall (sound_event env (windows s)) added /\
      0 <= count_activations added <= 1 /\
      successful_activations s'
      = successful_activations s + count_activations added /\
      total_cycles s' = total_cycles s /\
      incl (windows s') (windows s) /\
      (forall w, In w (windows s) ->
                 In w (windows s') \/ In (WindowRemoved w) added).
Proof.
  induction fuel as [|fuel IH]; intros m a s s'; [discriminate|].
  cbn [cycle_loop].
  destruct (a <? m); cbn [negb].
  2:{ intros [= <-]; exists []; rewrite app_nil_r.
      repeat split; auto using incl_refl; cbn; lia. }
  set (s1 := if current_index s >=? len (windows s)
             then set_current_index 0 s else s).
  assert (K : windows s1 = windows s /\ events s1 = events s /\
              successful_activations s1 = successful_activations s /\
              total_cycles s1 = total_cycles s /\
              windows_api s1 = windows_api s)
    by (unfold s1; destruct (_ >=? _); repeat split; reflexivity).
  destruct K as [K1 [K2 [K3 [K4 K5]]]].
  rewrite <- K1, <- K2, <- K3, <- K4.
  clearbody s1; clear K1 K2 K3 K4 K5 s.
  destruct (getitem (windows s1) (current_index s1)) as [w|] eqn:G;
    cbn [or_raise bind]; [|discriminate].
  pose proof (getitem_In _ _ _ G) as I.
  destruct (is_valid_handle env w) eqn:V; cbn [negb].
  - destruct (_activate_window env s1 w) eqn:Act.
    + destruct (py_mod _ _) as [next|]; cbn [or_raise bind]; [|discriminate].
      intros [= <-]; exists [WindowActivated w]; cbn.
      repeat split; auto using incl_refl; try lia.
      constructor; [|constructor]; cbn.
      unfold _activate_window in Act.
      destruct (windows_api s1); cbn in Act; [|discriminate].
      repeat split; assumption.
    + destruct (py_mod _ _) as [next|]; cbn [or_raise bind]; [|discriminate].
      intros E; apply IH in E; cbn in E; exact E.
  - destruct (_remove_invalid_window_cases s1 (current_index s1))
      as [Same|[R [w' [N [W [E [T S]]]]]]].
    + rewrite Same.
      destruct (is_nil (windows s1)) eqn:Nil.
      * apply is_nil_true in Nil; rewrite Nil in I; destruct I.
      * intros X; apply IH in X; exact X.
    + assert (w' = w).
      { unfold getitem in G.
        replace (0 <=? current_index s1) with true in G
          by (symmetry; apply Z.leb_le; lia).
        congruence. }
      subst w'.
      assert (Inc : incl (windows (_remove_invalid_window s1 (current_index s1)))
                         (windows s1)).
      { rewrite W; intros x; apply pop_rest_In. }
      assert (Keep : forall x, In x (windows s1) ->
                 In x (windows (_remove_invalid_window s1 (current_index s1)))
                 \/ x = w).
      { intros x Ix; rewrite W; unfold pop_rest.
        rewrite <- (firstn_skipn (Z.to_nat (current_index s1)) (windows s1))
          in Ix.
        apply in_app_or in Ix as [Ix|Ix].
        - left; apply in_or_app; now left.
        - destruct (firstn_S_nth _ _ _ N) as [_ Sk].
          rewrite Sk in Ix; destruct Ix as [<-|Ix]; [now right|].
          left; apply in_or_app; now right. }
      destruct (is_nil (windows (_remove_invalid_window s1 (current_index s1))))
        eqn:Nil.
      * intros [= <-]; exists [WindowRemoved w; CyclingStopped].
        cbn; rewrite E, <- app_assoc; cbn.
        apply is_nil_true in Nil.
        repeat split; try lia; try assumption.
        -- repeat constructor; assumption.
        -- intros x Ix; destruct (Keep x Ix) as [Ix' | ->];
             [rewrite Nil in Ix'; destruct Ix'|right; now left].
      * intros X; apply IH in X.
        destruct X as [added [X1 [X2 [X3 [X4 [X5 [X6 X7]]]]]]].
        exists (WindowRemoved w :: added).
        rewrite X1, E, <- app_assoc; cbn [app].
        split; [reflexivity|]; split.
        { constructor; [split; assumption|].
          eapply Forall_impl; [|exact X2].
          intros e; now apply sound_event_incl. }
        split; [exact X3|]; split; [rewrite X4, S; reflexivity|].
        split; [congruence|]; split.
        { intros x Ix; apply Inc, X6, Ix. }
        intros x Ix; destruct (Keep x Ix) as [Ix' | ->].
        -- destruct (X7 x Ix') as [Y|Y]; [now left|right; now right].
        -- right; now left.
Qed.

(** X17: Whatever the platform answers and whatever the cycler, a trigger
    that returns has notified only the following, after what was
    notified before: the removal of windows of the list that are
    invalid, at most one activation, of a window of the list that is
    valid and whose activation succeeded, and a stop.  The success
    counter grows by the number of activations, and every window of
    the list is either still there or was notified as removed; no
    window is added. *)
Theorem cycle_next_sound (env : Env) (s s' : t) :
  cycle_next env s = Returned s' ->
  exists added,
    events s' = events s ++ added /\
    Forall (sound_event env (windows s)) added /\
    0 <= count_activations added <= 1 /\
    successful_activations s'
    = successful_activations s + count_activations added /\
    incl (windows s') (windows s) /\
    (forall w, In w (windows s) ->
               In w (windows s') \/ In (WindowRemoved w) added).
Proof.
  unfold cycle_next; destruct (is_nil (windows s)).
  - intros [= <-]; exists []; rewrite app_nil_r.
    repeat split; auto using incl_refl; cbn; lia.
  - intros E; apply cycle_loop_sound in E.
    destruct E as [added [X1 [X2 [X3 [X4 [_ [X6 X7]]]]]]].
    exists added.
    exact (conj X1 (conj X2 (conj X3 (conj X4 (conj X6 X7))))).
Qed.

(** *** Round robin *)

Lemma round_robin_mod (l : list GameWindow) :
  forall (n : nat) (c c' : Z),
    c mod len l = c' mod len l -> round_robin l c n = round_robin l c' n.
Proof.
  induction n as [|n IH]; intros c c' E; [reflexivity|].
  cbn [round_robin]; unfold window_at; rewrite E.
  destruct (nth_error _ _); [|reflexivity].
  f_equal; apply IH.
  destruct (Z.eq_dec (len l) 0) as [Z0|NZ].
  - rewrite Z0, !Z.mod_0_r in *; now rewrite E.
  - now rewrite (Z.add_mod c), (Z.add_mod c'), E by exact NZ.
Qed.

Lemma run_triggers_S (env : Env) (n : nat) (s : t) :
  run s (triggers env (S n))
  = bind (cycle_next env s) (fun s1 => run s1 (triggers env n)).
Proof. reflexivity. Qed.

(** X18: With every window valid and every activation granted, [n]
    triggers in a row activate the windows in list order from the
    cursor on, wrapping around; all of them succeed and the list is
    unchanged.  After as many triggers as there are windows every
    window was activated once and the cursor is back where it
    was. *)
Theorem triggers_round_robin (env : Env) (n : nat) (s : t) :
  0 <= current_index s < len (windows s) ->
  windows_api s = true ->
  (forall w, In w (windows s) ->
             is_valid_handle env w = true /\
             activate_window env (hwnd w) = true) ->
  exists s',
    run s (triggers env n) = Returned s' /\
    windows s' = windows s /\
    current_index s' = (current_index s + Z.of_nat n) mod len (windows s) /\
    events s' = events s ++ round_robin (windows s) (current_index s) n /\
    total_cycles s' = total_cycles s + Z.of_nat n /\
    successful_activations s' = successful_activations s + Z.of_nat n /\
    failed_activations s' = failed_activations s /\
    (Z.of_nat n = len (windows s) -> current_index s' = current_index s).
Proof.
  revert s; induction n as [|n IH]; intros s C Api V.
  - exists s; cbn [triggers repeat run round_robin].
    rewrite app_nil_r, !Z.add_0_r, Z.mod_small by lia.
    repeat split; try reflexivity; lia.
  - rewrite run_triggers_S.
    destruct (getitem_in_range _ _ C) as [w [G [N I]]].
    destruct (V w I) as [Vw Aw].
    assert (Act : _activate_window env s w = true).
    { unfold _activate_window; rewrite Api; exact Aw. }
    rewrite (cycle_next_activates_cursor env s w C G Vw Act); cbn [bind].
    set (s1 := notify _ _).
    assert (P : 0 < len (windows s)) by lia.
    destruct (IH s1) as [s' [E [W [Cu [Ev [T [Su [Fa _]]]]]]]].
    + cbn; apply Z.mod_pos_bound; exact P.
    + exact Api.
    + exact V.
    + exists s'; split; [exact E|].
      cbn in W, Cu, Ev, T, Su, Fa.
      assert (Cu' : current_index s'
                    = (current_index s + Z.of_nat (S n)) mod len (windows s)).
      { rewrite Cu, Zplus_mod_idemp_l; f_equal; lia. }
      split; [exact W|]; split; [exact Cu'|]; split.
      { rewrite Ev, <- app_assoc; f_equal; cbn [round_robin app].
        unfold window_at at 1.
        rewrite (Z.mod_small (current_index s)), N by lia.
        f_equal; apply round_robin_mod.
        now rewrite Zmod_mod. }
      split; [lia|]; split; [lia|]; split; [exact Fa|].
      intros L; rewrite Cu', L.
      rewrite <- (Z.mul_1_l (len (windows s))) at 1.
      rewrite Z.mod_add by lia; apply Z.mod_small; exact C.
Qed.

(** *** [reorder_windows] *)

Lemma reorder_loop_spec (ws : list GameWindow) (new_order : list Z) :
  match reorder_loop ws new_order with
  | Some l =>
      all_in_range (len ws) new_order = true /\
      map Some l = pick ws new_order
  | None => all_in_range (len ws) new_order = false
  end.
Proof.
  induction new_order as [|o r IH]; cbn [reorder_loop all_in_range forallb pick map].
  - split; reflexivity.
  - destruct ((0 <=? o) && (o <? len ws)) eqn:G; cbn [andb]; [|reflexivity].
    apply andb_true_iff in G as [G1 G2].
    apply Z.leb_le in G1; apply Z.ltb_lt in G2.
    assert (R : 0 <= o < len ws) by lia.
    destruct (getitem_in_range _ _ R) as [w [_ [N _]]]; rewrite N.
    fold (all_in_range (len ws) r); fold (pick ws r).
    destruct (reorder_loop ws r) as [l|]; [|exact IH].
    destruct IH as [A P]; split; [exact A|].
    cbn [map]; now rewrite P.
Qed.

Lemma nth_error_seq (l : list GameWindow) :
  map (nth_error l) (seq 0 (List.length l)) = map Some l.
Proof.
  induction l as [|a r IH]; [reflexivity|].
  cbn [List.length seq map nth_error]; f_equal.
  rewrite <- seq_shift, map_map; cbn [nth_error]; exact IH.
Qed.

Lemma map_Some_inj {A} (l l' : list A) : map Some l = map Some l' -> l = l'.
Proof.
  revert l'; induction l as [|a r IH]; intros [|b r']; cbn;
    try discriminate; [reflexivity|].
  intros [= -> E]; f_equal; now apply IH.
Qed.

(** X19: [reorder_windows] succeeds exactly when [new_order] has as many
    entries as there are windows and each is an index into the list;
    the new list then holds, at each place, the window that was at the
    given index, and the cursor is 0.  When [new_order] is a
    permutation of the indices the same windows are kept; otherwise
    the cycler is unchanged on failure. *)
Theorem reorder_windows_spec (s : t) (new_order : list Z) :
  let r := reorder_windows s new_order in
  (fst r = true <->
   len new_order = len (windows s) /\
   all_in_range (len (windows s)) new_order = true) /\
  (fst r = false -> snd r = s) /\
  (fst r = true ->
   map Some (windows (snd r)) = pick (windows s) new_order /\
   current_index (snd r) = 0 /\
   events (snd r) = events s /\
   (Permutation new_order
                (map Z.of_nat (seq 0 (List.length (windows s)))) ->
    Permutation (windows (snd r)) (windows s))).
Proof.
  unfold reorder_windows.
  pose proof (reorder_loop_spec (windows s) new_order) as L.
  destruct (len new_order =? len (windows s)) eqn:E; cbn [negb].
  2:{ apply Z.eqb_neq in E; cbn.
      split; [split; [discriminate|tauto]|].
      split; [reflexivity|discriminate]. }
  apply Z.eqb_eq in E.
  destruct (reorder_loop (windows s) new_order) as [l|].
  - destruct L as [A P]; cbn.
    split; [tauto|]; split; [discriminate|]; intros _.
    repeat split; [exact P|].
    intros Pm.
    assert (Q : Permutation (map Some l) (map Some (windows s))).
    { rewrite P, <- nth_error_seq; unfold pick.
      rewrite (Permutation_map _ Pm), map_map.
      erewrite map_ext; [reflexivity|].
      intros k; cbn; now rewrite Nat2Z.id. }
    apply Permutation_sym, Permutation_map_inv in Q as [l3 [Q1 Q2]].
    apply map_Some_inj in Q1; subst l3; now symmetry.
  - cbn; split; [split; [discriminate|]|split; [reflexivity|discriminate]].
    intros [_ A]; congruence.
Qed.

(** *** Setting up and stopping *)

Lemma start_loop_true (env : Env) (methods : list HotkeyManager.HotkeyMethod) :
  forall name tried hm hm',
    HotkeyManager.start_loop env methods name tried hm = (true, hm') ->
    HotkeyManager.is_listening hm' = true.
Proof.
  induction methods as [|m r IH]; intros name tried hm hm';
    cbn [HotkeyManager.start_loop]; [discriminate|].
  destruct (HotkeyManager.attempt env m name hm) as [[ok name'] hm1].
  destruct ok; [intros [= <-]; reflexivity|apply IH].
Qed.

Lemma set_hotkey_true_listening (env : Env) (hm hm' : HotkeyManager.t)
      (config : HotkeyConfig) (cb : HotkeyManager.Callable) :
  HotkeyManager.set_hotkey env hm config cb = (true, hm') ->
  HotkeyManager.is_listening hm' = true.
Proof.
  unfold HotkeyManager.set_hotkey.
  generalize (HotkeyManager.set_callback (Some cb)
                (HotkeyManager.set_current_config (Some config)
                   (HotkeyManager.stop_listening env hm))).
  intros hm0; unfold HotkeyManager.start_listening.
  destruct (HotkeyManager.current_config hm0); [|discriminate].
  destruct (HotkeyManager.is_listening hm0); [discriminate|].
  apply start_loop_true.
Qed.

Lemma set_windows_true_nonempty (env : Env) (s s1 : t) (ws : list GameWindow) :
  set_windows env s ws = (true, s1) -> windows s1 <> [].
Proof.
  unfold set_windows.
  destruct (is_nil ws); [discriminate|].
  destruct (is_nil (filter _ ws)) eqn:F; [discriminate|].
  intros [= <-]; cbn [windows set_current_index set_windows_field].
  intros Z0.
  pose proof (sorted_by_order_perm (filter (is_valid_handle env) ws)) as P.
  rewrite Z0 in P; apply Permutation_nil in P.
  apply is_nil_false in F; contradiction.
Qed.

Lemma start_cycling_iff (s : t) :
  start_cycling s = true <->
  windows s <> [] /\ HotkeyManager.is_listening (hotkey_manager s) = true.
Proof.
  unfold start_cycling.
  destruct (is_nil (windows s)) eqn:N.
  - apply is_nil_true in N; split; [discriminate|intros [H _]; contradiction].
  - apply is_nil_false in N.
    destruct (HotkeyManager.is_listening (hotkey_manager s)); cbn;
      split; auto; intros [_ H]; discriminate.
Qed.

Lemma is_cycling_active_iff (s : t) :
  is_cycling_active s = true <->
  windows s <> [] /\ HotkeyManager.is_listening (hotkey_manager s) = true.
Proof.
  unfold is_cycling_active; rewrite andb_true_iff.
  assert (G : (len (windows s) >? 0) = true <-> windows s <> []).
  { split.
    - intros H E; rewrite E in H; discriminate.
    - intros H; apply Z.gtb_lt; now apply len_pos. }
  rewrite G; tauto.
Qed.

Lemma cycler_set_hotkey_true (env : Env) (s1 s2 : t) (config : HotkeyConfig) :
  WindowCycler.set_hotkey env s1 config = (true, s2) ->
  windows s2 = windows s1 /\
  HotkeyManager.is_listening (hotkey_manager s2) = true.
Proof.
  unfold WindowCycler.set_hotkey.
  pose proof (fun hm' => set_hotkey_true_listening env (hotkey_manager s1) hm'
                           config "cycle_next") as L.
  destruct (HotkeyManager.set_hotkey env (hotkey_manager s1) config
              "cycle_next") as [r hm].
  intros E; injection E as -> <-.
  split; [reflexivity|exact (L hm eq_refl)].
Qed.

(** X20: Once [set_windows] and then [set_hotkey] have returned true,
    [start_cycling] returns true and cycling is active, with the
    windows that [set_windows] stored.  After [stop_cycling] neither
    holds any more and the stop has been notified. *)
Theorem setup_then_start (env env' env'' : Env) (s s1 s2 : t)
        (ws : list GameWindow) (config : HotkeyConfig) :
  set_windows env s ws = (true, s1) ->
  WindowCycler.set_hotkey env' s1 config = (true, s2) ->
  windows s2 = windows s1 /\
  start_cycling s2 = true /\
  is_cycling_active s2 = true /\
  start_cycling (stop_cycling env'' s2) = false /\
  is_cycling_active (stop_cycling env'' s2) = false /\
  events (stop_cycling env'' s2) = events s2 ++ [CyclingStopped].
Proof.
  intros SW SH.
  pose proof (set_windows_true_nonempty env s s1 ws SW) as N.
  destruct (cycler_set_hotkey_true env' s1 s2 config SH) as [W Li].
  pose proof (proj1 (HotkeyManagerFacts.stop_listening_disarms env''
                       (hotkey_manager s2))) as D.
  rewrite <- W in N.
  split; [exact W|].
  split; [apply start_cycling_iff; split; [exact N|exact Li]|].
  split; [apply is_cycling_active_iff; split; [exact N|exact Li]|].
  split.
  { apply not_true_iff_false; intros X; apply start_cycling_iff in X.
    destruct X as [_ X].
    change (hotkey_manager (stop_cycling env'' s2))
      with (HotkeyManager.stop_listening env'' (hotkey_manager s2)) in X.
    congruence. }
  split; [|reflexivity].
  apply not_true_iff_false; intros X; apply is_cycling_active_iff in X.
  destruct X as [_ X].
  change (hotkey_manager (stop_cycling env'' s2))
    with (HotkeyManager.stop_listening env'' (hotkey_manager s2)) in X.
  congruence.
Qed.

(** *** [cycle_to_character] *)

Lemma find_character_spec (name : string) :
  forall (l : list GameWindow) (i : Z),
    match find_character name i l with
    | Some j =>
        i <= j < i + len l /\
        (exists w, nth_error l (Z.to_nat (j - i)) = Some w /\
                   lower (character_name w) = lower name) /\
        (forall k w, i <= k < j -> nth_error l (Z.to_nat (k - i)) = Some w ->
                     lower (character_name w) <> lower name)
    | None =>
        forall w, In w l -> lower (character_name w) <> lower name
    end.
Proof.
  induction l as [|a r IH]; intros i; cbn [find_character].
  - intros w [].
  - destruct (String.eqb _ _) eqn:E.
    + apply String.eqb_eq in E; unfold len; cbn [List.length].
      split; [lia|]; split.
      * exists a; rewrite Z.sub_diag; split; [reflexivity|exact E].
      * intros k w K; lia.
    + apply String.eqb_neq in E; specialize (IH (i + 1)).
      destruct (find_character name (i + 1) r) as [j|].
      * destruct IH as [B [[w [N M]] F]]; unfold len in *; cbn [List.length].
        split; [lia|]; split.
        -- exists w; replace (Z.to_nat (j - i)) with (S (Z.to_nat (j - (i + 1))))
             by lia.
           split; assumption.
        -- intros k w' K N'.
           destruct (Z.eq_dec k i) as [->|NE].
           ++ rewrite Z.sub_diag in N'; cbn in N'; congruence.
           ++ apply (F k w'); [lia|].
              replace (Z.to_nat (k - i)) with (S (Z.to_nat (k - (i + 1))))
                in N' by lia.
              exact N'.
      * intros w [<-|I]; [exact E|now apply IH].
Qed.

(** X21: [cycle_to_character] compares names without regard to letter
    case.  When no window of the list bears the name it returns false
    and changes nothing; otherwise it is [cycle_to_specific] at the
    first window that bears it. *)
Theorem cycle_to_character_first_match (env : Env) (s : t) (name : string) :
  ((forall w, In w (windows s) ->
              lower (character_name w) <> lower name) /\
   cycle_to_character env s name = Returned (false, s)) \/
  (exists i w,
      0 <= i < len (windows s) /\
      nth_error (windows s) (Z.to_nat i) = Some w /\
      lower (character_name w) = lower name /\
      (forall k w', 0 <= k < i ->
                    nth_error (windows s) (Z.to_nat k) = Some w' ->
                    lower (character_name w') <> lower name) /\
      cycle_to_character env s name = cycle_to_specific env s i).
Proof.
  unfold cycle_to_character.
  pose proof (find_character_spec name (windows s) 0) as F.
  destruct (find_character name 0 (windows s)) as [i|].
  - right; destruct F as [B [[w [N M]] E]].
    rewrite Z.sub_0_r in N.
    exists i, w; repeat split; try assumption; try lia.
    intros k w' K N'; apply (E k w' K); now rewrite Z.sub_0_r.
  - left; split; [exact F|reflexivity].
Qed.

(** *** [set_windows] does not depend on the sequence given *)

Lemma filter_perm {A} (f : A -> bool) (l l' : list A) :
  Permutation l l' -> Permutation (filter f l) (filter f l').
Proof.
  induction 1 as [|x l l' _ IH|x y l|l l' l'' _ IH1 _ IH2]; cbn.
  - constructor.
  - destruct (f x); [now constructor|exact IH].
  - destruct (f x), (f y); try reflexivity; apply perm_swap.
  - now transitivity (filter f l').
Qed.

Lemma NoDup_map_filter {A B} (g : A -> B) (f : A -> bool) (l : list A) :
  NoDup (map g l) -> NoDup (map g (filter f l)).
Proof.
  induction l as [|a r IH]; cbn; [trivial|].
  intros N; inversion N as [|? ? Na Nr]; subst.
  destruct (f a); [|now apply IH].
  cbn; constructor; [|now apply IH].
  intros I; apply Na.
  apply in_map_iff in I as [x [E I]]; apply filter_In in I as [I _].
  rewrite <- E; now apply in_map.
Qed.

(** Two lists sorted by [order] that hold the same windows, with
    pairwise different orders, are equal. *)
Lemma sorted_unique (a : list GameWindow) :
  forall b,
    StronglySorted order_le a -> StronglySorted order_le b ->
    Permutation a b -> NoDup (map order a) -> a = b.
Proof.
  induction a as [|x a' IH]; intros b Sa Sb P N.
  - apply Permutation_nil in P; now subst.
  - destruct b as [|y b'];
      [apply Permutation_sym, Permutation_nil in P; discriminate|].
    inversion Sa as [|? ? Sa' Fa]; subst.
    inversion Sb as [|? ? Sb' Fb]; subst.
    inversion N as [|? ? Nx N']; subst.
    rewrite Forall_forall in Fa, Fb.
    assert (Ix : In x (y :: b')) by (apply (Permutation_in _ P); now left).
    assert (Iy : In y (x :: a'))
      by (apply (Permutation_in _ (Permutation_sym P)); now left).
    assert (E : y = x).
    { destruct Iy as [E|Iy]; [now symmetry|].
      destruct Ix as [E|Ix]; [exact E|].
      pose proof (Fa _ Iy) as L1; pose proof (Fb _ Ix) as L2.
      unfold order_le in *.
      exfalso; apply Nx.
      replace (order x) with (order y) by lia.
      now apply in_map. }
    subst y; f_equal.
    apply IH; try assumption.
    now apply Permutation_cons_inv in P.
Qed.

(** X22: When the windows given have pairwise different [order] values,
    what [set_windows] stores and returns does not depend on the
    sequence in which they are given. *)
Theorem set_windows_order_independent (env : Env) (s : t)
        (ws ws' : list GameWindow) :
  NoDup (map order ws) ->
  Permutation ws ws' ->
  set_windows env s ws = set_windows env s ws'.
Proof.
  intros N P; unfold set_windows.
  assert (E0 : is_nil ws = is_nil ws').
  { destruct ws, ws'; try reflexivity.
    - apply Permutation_nil in P; discriminate.
    - apply Permutation_sym, Permutation_nil in P; discriminate. }
  rewrite <- E0; destruct (is_nil ws); [reflexivity|].
  pose proof (filter_perm (is_valid_handle env) _ _ P) as Pf.
  assert (E : sorted_by_order (filter (is_valid_handle env) ws)
              = sorted_by_order (filter (is_valid_handle env) ws')).
  { apply sorted_unique; try apply sorted_by_order_sorted.
    - rewrite !sorted_by_order_perm; exact Pf.
    - apply (Permutation_NoDup
               (l := map order (filter (is_valid_handle env) ws))).
      + apply Permutation_map, Permutation_sym, sorted_by_order_perm.
      + now apply NoDup_map_filter. }
  assert (E1 : is_nil (filter (is_valid_handle env) ws)
               = is_nil (filter (is_valid_handle env) ws')).
  { destruct (filter _ ws), (filter _ ws'); try reflexivity.
    - apply Permutation_nil in Pf; discriminate.
    - apply Permutation_sym, Permutation_nil in Pf; discriminate. }
  now rewrite <- E1, E.
Qed.

(** *** [cycle_to_specific] *)

(** X23: [cycle_to_specific] always returns, from any cycler, and never
    touches the counters or the hotkey manager.  It returns true
    exactly when the index is in range, the window there is valid and
    its activation succeeds.  With an index out of range, or when the
    activation fails, the cycler is unchanged; an invalid window at
    the index is removed and notified as removed. *)
Theorem cycle_to_specific_spec (env : Env) (s : t) (i : Z) :
  exists b s',
    cycle_to_specific env s i = Returned (b, s') /\
    total_cycles s' = total_cycles s /\
    successful_activations s' = successful_activations s /\
    failed_activations s' = failed_activations s /\
    hotkey_manager s' = hotkey_manager s /\
    (b = true <->
     0 <= i < len (windows s) /\
     exists w, nth_error (windows s) (Z.to_nat i) = Some w /\
               is_valid_handle env w = true /\
               _activate_window env s w = true) /\
    (~ 0 <= i < len (windows s) -> s' = s) /\
    (forall w, 0 <= i < len (windows s) ->
               nth_error (windows s) (Z.to_nat i) = Some w ->
               (is_valid_handle env w = false ->
                windows s' = pop_rest (windows s) i /\
                events s' = events s ++ [WindowRemoved w]) /\
               (is_valid_handle env w = true ->
                _activate_window env s w = false -> s' = s)).
Proof.
  unfold cycle_to_specific.
  destruct (is_nil (windows s) || (i <? 0) || (i >=? len (windows s))) eqn:G.
  - assert (O : ~ 0 <= i < len (windows s)).
    { apply orb_true_iff in G as [G|G]; [apply orb_true_iff in G as [G|G]|].
      - apply is_nil_true in G; rewrite G; cbn; lia.
      - apply Z.ltb_lt in G; lia.
      - rewrite Z.geb_leb in G; apply Z.leb_le in G; lia. }
    exists false, s.
    split; [reflexivity|]; split; [reflexivity|]; split; [reflexivity|].
    split; [reflexivity|]; split; [reflexivity|]; split.
    { split; [discriminate|intros [R _]; contradiction]. }
    split; [reflexivity|intros w R; contradiction].
  - apply orb_false_iff in G as [G G3]; apply orb_false_iff in G as [G1 G2].
    apply Z.ltb_ge in G2; rewrite Z.geb_leb in G3; apply Z.leb_gt in G3.
    assert (R : 0 <= i < len (windows s)) by lia.
    destruct (getitem_in_range _ _ R) as [w [Gi [N _]]].
    rewrite Gi; cbn [or_raise bind].
    destruct (is_valid_handle env w) eqn:V; cbn [negb].
    + destruct (_activate_window env s w) eqn:A.
      * eexists; eexists; split; [reflexivity|].
        split; [reflexivity|]; split; [reflexivity|]; split; [reflexivity|].
        split; [reflexivity|]; split.
        { split; [intros _|reflexivity].
          split; [exact R|exists w; repeat split; assumption]. }
        split; [intros NR; contradiction|].
        intros w' _ N'; assert (w' = w) by congruence; subst w'.
        split; [intros V'; congruence|intros _ A'; congruence].
      * exists false, s.
        split; [reflexivity|]; split; [reflexivity|]; split; [reflexivity|].
        split; [reflexivity|]; split; [reflexivity|]; split.
        { split; [discriminate|].
          intros [_ [w' [N' [_ A']]]]; assert (w' = w) by congruence.
          subst w'; congruence. }
        split; [reflexivity|].
        intros w' _ N'; split; [intros V'|reflexivity].
        assert (w' = w) by congruence; subst w'; congruence.
    + pose proof (_remove_invalid_window_fields s i R)
        as [W [_ [[w' [N' E]] [H [_ [T [S F]]]]]]].
      cbv zeta in *.
      assert (w' = w) by congruence; subst w'.
      eexists; eexists; split; [reflexivity|].
      split; [exact T|]; split; [exact S|]; split; [exact F|].
      split; [exact H|]; split.
      { split; [discriminate|].
        intros [_ [w0 [N0 [V0 _]]]]; assert (w0 = w) by congruence.
        subst w0; congruence. }
      split; [intros NR; contradiction|].
      intros w0 _ N0; assert (w0 = w) by congruence; subst w0.
      split; [intros _; split; assumption|intros V0; congruence].
Qed.

(** *** The current and the next window *)

Lemma get_current_window_at (s : t) (w : GameWindow) :
  0 <= current_index s < len (windows s) ->
  nth_error (windows s) (Z.to_nat (current_index s)) = Some w ->
  get_current_window s = Some w.
Proof.
  intros C N; unfold get_current_window.
  assert (NE : is_nil (windows s) = false).
  { apply is_nil_false; intros E; rewrite E in C; cbn in C; lia. }
  rewrite NE; cbn [negb andb].
  replace (0 <=? current_index s) with true by (symmetry; apply Z.leb_le; lia).
  replace (current_index s <? len (windows s)) with true
    by (symmetry; apply Z.ltb_lt; lia).
  exact N.
Qed.

(** X24: With the cursor on a valid window whose activation succeeds,
    [get_current_window] names that window before the trigger; after
    the trigger it names the window that [get_next_window] named
    before, the one the following trigger will try. *)
Theorem current_window_after_trigger (env : Env) (s : t) (w : GameWindow) :
  0 <= current_index s < len (windows s) ->
  getitem (windows s) (current_index s) = Some w ->
  is_valid_handle env w = true ->
  _activate_window env s w = true ->
  exists s' next,
    cycle_next env s = Returned s' /\
    get_current_window s = Some w /\
    get_next_window s = Returned (Some next) /\
    get_current_window s' = Some next /\
    events s' = events s ++ [WindowActivated w].
Proof.
  intros C G V A.
  assert (P : 0 < len (windows s)) by lia.
  pose proof (Z.mod_pos_bound (current_index s + 1) (len (windows s)) P) as B.
  destruct (getitem_in_range _ _ B) as [next [Gn [Nn _]]].
  destruct (getitem_in_range _ _ C) as [w' [G' [N' _]]].
  assert (w' = w) by congruence; subst w'.
  eexists; exists next.
  split; [apply (cycle_next_activates_cursor env s w C G V A)|].
  split; [now apply get_current_window_at|]; split.
  - unfold get_next_window.
    replace (is_nil (windows s)) with false.
    + rewrite (py_mod_next _ _ P); cbn [or_raise bind]; rewrite Gn; reflexivity.
    + symmetry; apply is_nil_false; intros E; rewrite E in P; cbn in P; lia.
  - split; [|reflexivity].
    apply get_current_window_at; [exact B|exact Nn].
Qed.

End WindowCyclerMore.

(* ================================================================= *)
(** ** The further properties on concrete data *)

Module MoreInstances.
Import PyStr Hotkey HotkeyErrors Platform Examples MoreExamples.
Import HotkeyManagerMore HotkeyMore GameWindowMore WindowCyclerMore.

Local Open Scope Z_scope.

Lemma vk_code_range_witness :
  plain_key "f5" /\
  HotkeyManager._get_vk_code all_alive "f5" = Some 116 /\ 8 <= 116 <= 123 /\
  fst (HotkeyManager._convert_for_win32 all_alive ctrl_shift_f5)
  = HotkeyManager._get_vk_code all_alive "f5".
Proof.
  assert (P : plain_key "f5").
  { split; [reflexivity|]; unfold int_max_str_digits; cbn; lia. }
  split; [exact P|]; split; [reflexivity|]; split.
  - apply (proj1 (vk_code_range all_alive ctrl_shift_f5) "f5" 116 P eq_refl).
  - apply (proj2 (vk_code_range all_alive ctrl_shift_f5) P).
Defined.

Lemma vk_code_valid_keys_witness :
  win32con_ok all_alive = true /\
  In "home" VALID_KEYS /\
  HotkeyManager._get_vk_code all_alive "home" = None.
Proof.
  assert (H : In "home" VALID_KEYS) by (apply PyStrFacts.mem_In; reflexivity).
  split; [reflexivity|]; split; [exact H|].
  apply (proj2 (vk_code_valid_keys all_alive "home" eq_refl H)).
  right; apply PyStrFacts.mem_In; reflexivity.
Defined.

Lemma win32_modifier_mask_witness :
  fst (HotkeyManager._convert_for_win32 all_alive ctrl_shift_f5) = Some 116 /\
  exists mask,
    snd (HotkeyManager._convert_for_win32 all_alive ctrl_shift_f5) = Some mask /\
    0 <= mask <= 15 /\
    forall m, Pynput.has_flag mask m = true <-> In m [CTRL; SHIFT].
Proof.
  split; [reflexivity|].
  apply (win32_modifier_mask all_alive ctrl_shift_f5 116 eq_refl).
Defined.

Lemma stop_listening_idempotent_witness :
  HotkeyManager.stops_return all_alive /\
  HotkeyManager.hooks_need_library manager_pynput /\
  HotkeyManager.stop_listening all_alive
    (HotkeyManager.stop_listening all_alive manager_pynput)
  = HotkeyManager.stop_listening all_alive manager_pynput /\
  HotkeyManager.released manager_pynput
    (HotkeyManager.stop_listening all_alive manager_pynput).
Proof.
  assert (St : HotkeyManager.stops_return all_alive).
  { split; [reflexivity|]; split; reflexivity. }
  assert (Hk : HotkeyManager.hooks_need_library manager_pynput).
  { intros _; reflexivity. }
  split; [exact St|]; split; [exact Hk|]; split.
  - apply (proj1 (stop_listening_idempotent all_alive manager_pynput)).
  - apply (proj2 (stop_listening_idempotent all_alive manager_pynput) St Hk).
Defined.

Lemma handle_edge_triggered_witness :
  HotkeyManager.current_config manager_ctrl_down = Some ctrl_tab /\
  fst (Pynput.handle 1000 (Pynput.KeyPress Pynput.Key_tab) manager_ctrl_down)
  = 1%nat /\
  Pynput.in_sync
    (snd (Pynput.handle 1000 (Pynput.KeyPress Pynput.Key_tab)
            manager_ctrl_down)).
Proof.
  split; [reflexivity|].
  destruct (handle_edge_triggered 1000 (Pynput.KeyPress Pynput.Key_tab)
              manager_ctrl_down ctrl_tab eq_refl) as [S [_ [F _]]].
  split; [|exact S].
  apply (proj2 F).
  split; [reflexivity|]; split; [reflexivity|]; split.
  - intros H; discriminate H.
  - intros H; discriminate H.
Defined.

Lemma key_repeat_never_fires_witness :
  Pynput.in_sync manager_holding /\
  Pynput.replay key_repeat manager_holding = (0%nat, manager_holding).
Proof.
  split; [reflexivity|].
  apply (key_repeat_never_fires key_repeat manager_holding eq_refl).
  repeat constructor.
Defined.

Lemma pynput_never_detects_witness :
  HotkeyManager.current_config manager_win_d = Some win_d /\
  In WIN (modifiers win_d) /\
  fst (Pynput.replay
         [(1000%Q, Pynput.KeyPress (Pynput.KeyCode_from_char "d"));
          (1001%Q, Pynput.KeyRelease (Pynput.KeyCode_from_char "d"))]
         manager_win_d) = 0%nat.
Proof.
  split; [reflexivity|]; split; [left; reflexivity|].
  apply (pynput_never_detects _ manager_win_d win_d eq_refl).
  left; left; reflexivity.
Defined.

Lemma parse_fails_on_bad_modifier_witness :
  parse "super+f5" = None /\
  exists c, parse "ctrl+foo" = Some c /\ main_key c = "foo".
Proof.
  split.
  - apply (proj2 (proj1 (parse_fails_on_bad_modifier "super+f5"))).
    exists "super"; split; [left; reflexivity|reflexivity].
  - exists ctrl_foo; split; [reflexivity|].
    apply (proj2 (parse_fails_on_bad_modifier "ctrl+foo") ctrl_foo eq_refl).
Defined.

Lemma parse_raw_value_fixed_witness :
  parse "  Ctrl+FOO " = Some ctrl_foo /\
  parse (raw_value ctrl_foo) = Some ctrl_foo /\
  is_valid ctrl_foo = validate_hotkey "  Ctrl+FOO ".
Proof.
  split; [reflexivity|].
  apply (parse_raw_value_fixed "  Ctrl+FOO " ctrl_foo eq_refl).
Defined.

Lemma validation_error_iff_invalid_witness :
  validate_hotkey "ctrl+tab" = true /\
  get_validation_error "ctrl+tab" = None /\
  get_validation_error "super+f5" = Some (InvalidModifier "super") /\
  PyStr.mem "super" VALID_MODIFIERS = false.
Proof.
  assert (V : validate_hotkey "ctrl+tab" = true) by (vm_compute; reflexivity).
  assert (E : get_validation_error "super+f5" = Some (InvalidModifier "super"))
    by (vm_compute; reflexivity).
  split; [exact V|]; split.
  - apply (proj2 (proj1 (validation_error_iff_invalid "ctrl+tab")) V).
  - split; [exact E|].
    exact (proj1 (proj1 (proj2 (validation_error_iff_invalid "super+f5"))
                    "super" E)).
Defined.

Lemma presets_are_valid_witness :
  In ("Ctrl+Tab", "ctrl+tab") (KEYBOARD_PRESETS ++ MOUSE_PRESETS) /\
  validate_hotkey "ctrl+tab" = true /\
  exists c, parse "ctrl+tab" = Some c /\ raw_value c = "ctrl+tab".
Proof.
  assert (H : In ("Ctrl+Tab", "ctrl+tab") (KEYBOARD_PRESETS ++ MOUSE_PRESETS))
    by (left; reflexivity).
  split; [exact H|].
  apply (presets_are_valid ("Ctrl+Tab", "ctrl+tab") H).
Defined.


Lemma refresh_window_validity_idempotent_witness :
  WindowCycler.refresh_window_validity B_gone cycler_ABC
  = WindowCycler.Returned cycler_refreshed /\
  WindowCycler.windows cycler_refreshed = [A; C] /\
  WindowCycler.refresh_window_validity B_gone cycler_refreshed
  = WindowCycler.Returned cycler_refreshed.
Proof.
  split; [reflexivity|]; split; [reflexivity|].
  apply (proj2 (refresh_window_validity_idempotent B_gone cycler_ABC
                  cycler_refreshed)).
  reflexivity.
Defined.

Lemma cycle_next_all_invalid_witness :
  exists s',
    WindowCycler.cycle_next all_gone cycler_at_1 = WindowCycler.Returned s' /\
    WindowCycler.windows s' = [] /\
    WindowCycler.events s'
    = [WindowCycler.WindowRemoved B; WindowCycler.WindowRemoved C;
       WindowCycler.WindowRemoved A; WindowCycler.CyclingStopped].
Proof.
  destruct (cycle_next_all_invalid all_gone cycler_at_1)
    as [s' [E [W [Ev _]]]].
  - split; [intros C; discriminate C|reflexivity].
  - intros w _; reflexivity.
  - exists s'; split; [exact E|]; split; [exact W|exact Ev].
Defined.

Lemma cycle_next_sound_witness :
  exists s' added,
    WindowCycler.cycle_next B_gone cycler_at_1 = WindowCycler.Returned s' /\
    WindowCycler.events s' = WindowCycler.events cycler_at_1 ++ added /\
    Forall (WindowCyclerQueries.sound_event B_gone
              (WindowCycler.windows cycler_at_1)) added.
Proof.
  destruct (WindowCycler.cycle_next B_gone cycler_at_1) as [s'| |] eqn:E;
    try discriminate E.
  destruct (cycle_next_sound B_gone cycler_at_1 s' E) as [added [X1 [X2 _]]].
  exists s', added; split; [reflexivity|]; split; [exact X1|exact X2].
Defined.

Lemma triggers_round_robin_witness :
  exists s',
    WindowCycler.run cycler_ABC (WindowCyclerQueries.triggers all_alive 4)
    = WindowCycler.Returned s' /\
    WindowCycler.current_index s' = 1 /\
    WindowCycler.events s'
    = [WindowCycler.WindowActivated A; WindowCycler.WindowActivated B;
       WindowCycler.WindowActivated C; WindowCycler.WindowActivated A].
Proof.
  destruct (triggers_round_robin all_alive 4 cycler_ABC)
    as [s' [E [_ [Cu [Ev _]]]]].
  - split; [intros C; discriminate C|reflexivity].
  - reflexivity.
  - intros w _; split; reflexivity.
  - exists s'; split; [exact E|]; split; [exact Cu|exact Ev].
Defined.

Lemma reorder_windows_spec_witness :
  fst (WindowCycler.reorder_windows cycler_ABC [2; 0; 1]) = true /\
  Permutation
    (WindowCycler.windows (snd (WindowCycler.reorder_windows cycler_ABC
                                  [2; 0; 1])))
    (WindowCycler.windows cycler_ABC) /\
  snd (WindowCycler.reorder_windows cycler_ABC [2; 0]) = cycler_ABC.
Proof.
  pose proof (reorder_windows_spec cycler_ABC [2; 0; 1]) as [T [_ P]].
  assert (H : fst (WindowCycler.reorder_windows cycler_ABC [2; 0; 1]) = true)
    by (apply (proj2 T); split; reflexivity).
  split; [exact H|]; split.
  - apply (proj2 (proj2 (proj2 (P H)))).
    apply perm_trans with [0; 2; 1];
      [apply perm_swap|apply perm_skip, perm_swap].
  - apply (proj1 (proj2 (reorder_windows_spec cycler_ABC [2; 0]))).
    reflexivity.
Defined.

Lemma setup_then_start_witness :
  WindowCycler.set_windows all_alive fresh [C; A; B] = (true, cycler_ABC) /\
  WindowCycler.set_hotkey only_pynput cycler_ABC ctrl_tab
  = (true, cycler_bound) /\
  WindowCycler.start_cycling cycler_bound = true /\
  WindowCyclerQueries.is_cycling_active cycler_bound = true /\
  WindowCycler.start_cycling (WindowCycler.stop_cycling all_alive cycler_bound)
  = false.
Proof.
  assert (E1 : WindowCycler.set_windows all_alive fresh [C; A; B]
               = (true, cycler_ABC)) by (vm_compute; reflexivity).
  assert (E2 : WindowCycler.set_hotkey only_pynput cycler_ABC ctrl_tab
               = (true, cycler_bound)) by (vm_compute; reflexivity).
  split; [exact E1|]; split; [exact E2|].
  destruct (setup_then_start all_alive only_pynput all_alive fresh cycler_ABC
              cycler_bound [C; A; B] ctrl_tab E1 E2)
    as [_ [S1 [S2 [S3 _]]]].
  split; [exact S1|]; split; [exact S2|exact S3].
Defined.

Lemma cycle_to_character_first_match_witness :
  exists i w,
    0 <= i < WindowCycler.len (WindowCycler.windows cycler_ABC) /\
    lower (WindowCycler.character_name w) = lower "b" /\
    WindowCycler.cycle_to_character all_alive cycler_ABC "b"
    = WindowCycler.cycle_to_specific all_alive cycler_ABC i.
Proof.
  destruct (cycle_to_character_first_match all_alive cycler_ABC "b")
    as [[H _]|[i [w [R [_ [M [_ E]]]]]]].
  - exfalso; apply (H B); [right; left; reflexivity|reflexivity].
  - exists i, w; split; [exact R|]; split; [exact M|exact E].
Defined.

Lemma set_windows_order_independent_witness :
  NoDup (map WindowCycler.order [A; B; C]) /\
  Permutation [A; B; C] [C; A; B] /\
  WindowCycler.set_windows all_alive fresh [A; B; C]
  = WindowCycler.set_windows all_alive fresh [C; A; B].
Proof.
  assert (N : NoDup (map WindowCycler.order [A; B; C])).
  { repeat constructor; cbn.
    - intros [H|[H|[]]]; discriminate H.
    - intros [H|[]]; discriminate H.
    - intros []. }
  assert (P : Permutation [A; B; C] [C; A; B]).
  { apply perm_trans with [A; C; B];
      [apply perm_skip, perm_swap|apply perm_swap]. }
  split; [exact N|]; split; [exact P|].
  apply (set_windows_order_independent all_alive fresh _ _ N P).
Defined.

Lemma cycle_to_specific_spec_witness :
  exists b s',
    WindowCycler.cycle_to_specific all_alive cycler_ABC 7
    = WindowCycler.Returned (b, s') /\
    s' = cycler_ABC /\
    WindowCycler.total_cycles s' = WindowCycler.total_cycles cycler_ABC.
Proof.
  destruct (cycle_to_specific_spec all_alive cycler_ABC 7)
    as [b [s' [E [T [_ [_ [_ [_ [Out _]]]]]]]]].
  exists b, s'; split; [exact E|]; split; [|exact T].
  apply Out; intros [_ H]; discriminate H.
Defined.

Lemma current_window_after_trigger_witness :
  exists s' next,
    WindowCycler.cycle_next all_alive cycler_ABC = WindowCycler.Returned s' /\
    WindowCycler.get_current_window cycler_ABC = Some A /\
    WindowCyclerQueries.get_next_window cycler_ABC
    = WindowCycler.Returned (Some next) /\
    WindowCycler.get_current_window s' = Some next /\
    WindowCycler.events s'
    = WindowCycler.events cycler_ABC ++ [WindowCycler.WindowActivated A].
Proof.
  apply (current_window_after_trigger all_alive cycler_ABC A).
  - split; [intros C; discriminate C|reflexivity].
  - reflexivity.
  - reflexivity.
  - reflexivity.
Defined.

End MoreInstances.
